(** * Tensor-parallel linear layers ([colossalai/shardformer/layer/linear.py])

    A shallow embedding of [Linear1D_Col] and [Linear1D_Row]: their
    constructors, the dense-to-parallel conversion [from_native_module],
    parameter initialisation and the forward passes, with the collective
    operations a forward pass issues kept as explicit nodes of a program
    tree that a lock-step group interpreter runs over all ranks. *)

From Stdlib Require Import String Ascii DecimalString.
From Stdlib Require Import List Arith PeanoNat Lia Bool ZArith.
Import ListNotations.
Local Open Scope string_scope.
Local Open Scope nat_scope.
Local Open Scope list_scope.

(** ** Python exceptions raised by the layers *)

Inductive Exn : Type :=
| ValueError (msg : string)
| AssertionError (msg : string)
| RuntimeError (msg : string)
| IndexError (msg : string)
| ZeroDivisionError (msg : string).

(** [Exc A] is a computation that returns an [A] or raises. *)
Definition Exc (A : Type) : Type := (Exn + A)%type.

(** ** Rendering of integers and shapes in diagnostics *)

Definition show_nat (n : nat) : string := NilZero.string_of_uint (Nat.to_uint n).

Fixpoint show_dims (ds : list nat) : string :=
  match ds with
  | [] => ""
  | [d] => show_nat d
  | d :: ds' => (show_nat d ++ ", " ++ show_dims ds')%string
  end.

(** [str(torch.Size([2, 3]))] is ["torch.Size([2, 3])"]. *)
Definition show_shape (ds : list nat) : string :=
  ("torch.Size([" ++ show_dims ds ++ "])")%string.

(** [names msg s]: the text [s] occurs in the diagnostic [msg]. *)
Definition names (msg s : string) : Prop :=
  exists pre post : string, msg = (pre ++ s ++ post)%string.

(** ** Scalars and tensors *)

(** The element type of a tensor with the two operations a linear layer
    uses.  Nothing is assumed of them here; the laws a comparison with the
    dense layer needs are stated apart, in [ScalarLaws]. *)
Class Scalar (R : Type) : Type := {
  rzero : R;
  radd : R -> R -> R;
  rmul : R -> R -> R
}.

Class ScalarLaws (R : Type) `{Scalar R} : Prop := {
  radd_assoc : forall a b c : R, radd a (radd b c) = radd (radd a b) c;
  radd_zero_l : forall a : R, radd rzero a = a;
  radd_zero_r : forall a : R, radd a rzero = a
}.

#[export] Instance Z_Scalar : Scalar Z :=
  {| rzero := 0%Z; radd := Z.add; rmul := Z.mul |}.

#[export] Instance Z_ScalarLaws : ScalarLaws Z.
Proof.
  split; intros; cbn; lia.
Qed.

Section Tensors.
Context {R : Type} `{Scalar R}.

(** A tensor whose last dimension has [t_width] entries: one row per
    index of the leading dimensions (a weight [[out, in]] has [out] rows
    of width [in]; an activation has one row per batch entry). *)
Record Tensor : Type := mkTensor {
  t_width : nat;
  t_rows : list (list R)
}.

Definition shape (t : Tensor) : list nat := [length (t_rows t); t_width t].

(** Every row has the declared width. *)
Definition tensor_wf (t : Tensor) : Prop :=
  Forall (fun r => length r = t_width t) (t_rows t).

Fixpoint map2 {A B C : Type} (f : A -> B -> C) (xs : list A) (ys : list B)
  : list C :=
  match xs, ys with
  | x :: xs', y :: ys' => f x y :: map2 f xs' ys'
  | _, _ => []
  end.

(** The inner product of an input row and a weight row. *)
Fixpoint dot (x w : list R) : R :=
  match x, w with
  | a :: x', b :: w' => radd (rmul a b) (dot x' w')
  | _, _ => rzero
  end.

(** [output + bias] with the bias broadcast over the rows. *)
Definition add_bias (t : Tensor) (b : list R) : Tensor :=
  {| t_width := t_width t; t_rows := map (fun r => map2 radd r b) (t_rows t) |}.

(** [F.linear(input, weight, bias)]: [input @ weight.T (+ bias)]. *)
Definition F_linear (input weight : Tensor) (bias : option (list R)) : Tensor :=
  let out :=
    {| t_width := length (t_rows weight);
       t_rows := map (fun x => map (dot x) (t_rows weight)) (t_rows input) |} in
  match bias with
  | Some b => add_bias out b
  | None => out
  end.

(** Elementwise sum of two tensors of one shape. *)
Definition tensor_add (a b : Tensor) : Tensor :=
  {| t_width := t_width a; t_rows := map2 (map2 radd) (t_rows a) (t_rows b) |}.

(** Two tensors joined along the last dimension. *)
Definition cat2 (a b : Tensor) : Tensor :=
  {| t_width := t_width a + t_width b;
     t_rows := map2 (@app R) (t_rows a) (t_rows b) |}.

(** [torch.cat(tensors, dim=-1)]; an empty list is an error. *)
Definition torch_cat (ts : list Tensor) : Exc Tensor :=
  match ts with
  | [] => inl (RuntimeError "torch.cat(): expected a non-empty list of Tensors")
  | t :: ts' => inr (fold_left cat2 ts' t)
  end.

(** [list.split(size)] on the rows: blocks of [size] rows, the last one
    shorter when [size] does not divide the number of rows. *)
Fixpoint split_rows (fuel size : nat) (rows : list (list R))
  : list (list (list R)) :=
  match fuel with
  | 0 => []
  | S fuel' =>
      match rows with
      | [] => []
      | _ => firstn size rows :: split_rows fuel' size (skipn size rows)
      end
  end.

(** [torch.chunk(t, chunks, dim=0)]: blocks of [ceil(n / chunks)] rows,
    so fewer than [chunks] blocks may come back; a tensor with no row
    gives [chunks] empty blocks. *)
Definition torch_chunk (t : Tensor) (chunks : nat) : list Tensor :=
  let n := length (t_rows t) in
  let size := (n + chunks - 1) / chunks in
  if n =? 0
  then repeat {| t_width := t_width t; t_rows := [] |} chunks
  else map (fun rs => {| t_width := t_width t; t_rows := rs |})
           (split_rows n size (t_rows t)).

End Tensors.

Arguments Tensor R : clear implicits.

(** ** Process groups and collective operations *)

(** The process-group handle as the calling rank sees it: the global ranks
    of the group in rank order and the caller's index among them.
    [pg_none] marks the Python value [None], which stands for the default
    group. *)
Record ProcessGroup : Type := mkGroup {
  pg_none : bool;
  pg_ranks : list nat;
  pg_index : nat
}.

(** [dist.get_world_size(group)]. *)
Definition get_world_size (pg : ProcessGroup) : nat := length (pg_ranks pg).

(** [dist.distributed_c10d._get_global_rank(group, i)]. *)
Definition get_global_rank (pg : ProcessGroup) (i : nat) : nat :=
  nth i (pg_ranks pg) 0.

(** The handle an asynchronous collective returns. *)
Definition Handle : Type := nat.

Section Collectives.
Context {R : Type} `{Scalar R}.

(** What one rank does in a forward pass: local computation is a Rocq
    term, and every operation that involves the other ranks is a node.
    [AllReduce] is the blocking sum, [AllReduceAsync] issues the sum and
    hands back a handle, [Wait] blocks on a handle and then sees the
    reduced buffer, [AllGather] joins the ranks' tensors along the last
    dimension. *)
Inductive Prog (A : Type) : Type :=
| Ret (a : A)
| Raise (e : Exn)
| AllReduce (t : Tensor R) (k : Tensor R -> Prog A)
| AllReduceAsync (t : Tensor R) (k : Handle -> Prog A)
| Wait (h : Handle) (k : Tensor R -> Prog A)
| AllGather (t : Tensor R) (k : Tensor R -> Prog A).

Arguments Ret {A} a.
Arguments Raise {A} e.
Arguments AllReduce {A} t k.
Arguments AllReduceAsync {A} t k.
Arguments Wait {A} h k.
Arguments AllGather {A} t k.

Fixpoint bind {A B : Type} (p : Prog A) (f : A -> Prog B) : Prog B :=
  match p with
  | Ret a => f a
  | Raise e => Raise e
  | AllReduce t k => AllReduce t (fun s => bind (k s) f)
  | AllReduceAsync t k => AllReduceAsync t (fun h => bind (k h) f)
  | Wait h k => Wait h (fun s => bind (k s) f)
  | AllGather t k => AllGather t (fun s => bind (k s) f)
  end.

(** A local step that may raise. *)
Definition lift {A : Type} (x : Exc A) : Prog A :=
  match x with
  | inl e => Raise e
  | inr a => Ret a
  end.

(** The program stops here without having reached a collective. *)
Definition no_collective {A : Type} (p : Prog A) : bool :=
  match p with
  | Ret _ | Raise _ => true
  | _ => false
  end.

(** Modelled from the spec: [ReduceSum] ([reduce_forward] and
    [dist.all_reduce], neither under src/) "elementwise-sums the partial
    tensor contributed by every rank; result replicated on all ranks".
    The contributions are taken in rank order. *)
Definition reduce_sum (t : Tensor R) (ts : list (Tensor R)) : Tensor R :=
  fold_left tensor_add ts t.

(** Modelled from the spec: [AllGather]
    ([gather_forward_split_backward], not under src/) "concatenates the
    [group.world_size] shards, each contributed by one rank, in rank
    order along [dim]". *)
Definition all_gather (t : Tensor R) (ts : list (Tensor R)) : Tensor R :=
  fold_left cat2 ts t.

(** Modelled from the spec: [Split] ([split_forward_gather_backward],
    not under src/) is "pure local computation -- slices a replicated
    tensor into the contiguous block owned by the calling rank; issues
    no network traffic". *)
Definition split_forward (t : Tensor R) (pg : ProcessGroup) : Tensor R :=
  let w := t_width t / get_world_size pg in
  {| t_width := w;
     t_rows := map (fun r => firstn w (skipn (pg_index pg * w) r)) (t_rows t) |}.

(** *** The group in lock step *)

(** Every rank ends (with a value or an exception), or some rank blocks
    for ever on a collective the others never issue. *)
Inductive Outcome (A : Type) : Type :=
| Finished (results : list (Exc A))
| Hang.

Arguments Finished {A} results.
Arguments Hang {A}.

Fixpoint traverse {X Y : Type} (f : X -> option Y) (xs : list X)
  : option (list Y) :=
  match xs with
  | [] => Some []
  | x :: xs' =>
      match f x, traverse f xs' with
      | Some y, Some ys => Some (y :: ys)
      | _, _ => None
      end
  end.

Definition at_exit {A : Type} (p : Prog A) : option (Exc A) :=
  match p with
  | Ret a => Some (inr a)
  | Raise e => Some (inl e)
  | _ => None
  end.

Definition at_all_reduce {A : Type} (p : Prog A)
  : option (Tensor R * (Tensor R -> Prog A)) :=
  match p with AllReduce t k => Some (t, k) | _ => None end.

Definition at_all_reduce_async {A : Type} (p : Prog A)
  : option (Tensor R * (Handle -> Prog A)) :=
  match p with AllReduceAsync t k => Some (t, k) | _ => None end.

Definition at_all_gather {A : Type} (p : Prog A)
  : option (Tensor R * (Tensor R -> Prog A)) :=
  match p with AllGather t k => Some (t, k) | _ => None end.

(** A rank at [Wait h] resumes with the buffer of handle [h]. *)
Definition at_wait {A : Type} (pending : list (Tensor R)) (p : Prog A)
  : option (Prog A) :=
  match p with
  | Wait h k => option_map k (nth_error pending h)
  | _ => None
  end.

(** [run pending p ps]: rank 0 runs [p] and the other ranks run [ps], in
    rank order.  A collective completes when every rank has issued it;
    [pending] holds the sums of the asynchronous reductions issued so
    far, indexed by handle.  The group hangs when the ranks disagree on
    the next operation. *)
Fixpoint run {A : Type} (pending : list (Tensor R)) (p : Prog A)
  (ps : list (Prog A)) {struct p} : Outcome A :=
  match p with
  | Ret a =>
      match traverse at_exit ps with
      | Some rs => Finished (inr a :: rs)
      | None => Hang
      end
  | Raise e =>
      match traverse at_exit ps with
      | Some rs => Finished (inl e :: rs)
      | None => Hang
      end
  | AllReduce t k =>
      match traverse at_all_reduce ps with
      | Some tks =>
          let s := reduce_sum t (map fst tks) in
          run pending (k s) (map (fun tk => snd tk s) tks)
      | None => Hang
      end
  | AllReduceAsync t k =>
      match traverse at_all_reduce_async ps with
      | Some tks =>
          let s := reduce_sum t (map fst tks) in
          let h := length pending in
          run (pending ++ [s]) (k h) (map (fun tk => snd tk h) tks)
      | None => Hang
      end
  | Wait h k =>
      match nth_error pending h, traverse (at_wait pending) ps with
      | Some s, Some ps' => run pending (k s) ps'
      | _, _ => Hang
      end
  | AllGather t k =>
      match traverse at_all_gather ps with
      | Some tks =>
          let s := all_gather t (map fst tks) in
          run pending (k s) (map (fun tk => snd tk s) tks)
      | None => Hang
      end
  end.

(** The ranks of a group run their programs from a state with no
    reduction in flight. *)
Definition run_group {A : Type} (ps : list (Prog A)) : Outcome A :=
  match ps with
  | [] => Finished []
  | p :: ps' => run [] p ps'
  end.

(** What [forward] returns: the output alone, or the pair
    [(output, bias)] when the bias addition is left to the caller. *)
Inductive Output : Type :=
| Single (output : Tensor R)
| WithBias (output : Tensor R) (bias : option (list R)).

End Collectives.

Arguments Prog R A : clear implicits.
Arguments Outcome : clear implicits.
Arguments Output R : clear implicits.
Arguments Ret {R A} a.
Arguments Raise {R A} e.
Arguments AllReduce {R A} t k.
Arguments AllReduceAsync {R A} t k.
Arguments Wait {R A} h k.
Arguments AllGather {R A} t k.
Arguments Finished {A} results.
Arguments Hang {A}.
Arguments Single {R} output.
Arguments WithBias {R} output bias.

Notation "x <- p ;; q" := (bind p (fun x => q))
  (at level 61, p at next level, right associativity).

(** ** Construction-time effects *)

(** The state of the ambient random generator: the seed it was started
    from and how far its stream has been consumed. *)
Record RngState : Type := mkRng {
  rng_seed : Z;
  rng_pos : Z
}.

(** What a constructor does besides computing: it allocates a parameter,
    slices one across the group, or talks to the other ranks. *)
Inductive Event : Type :=
| Allocate (dims : list nat)
| Shard (dims : list nat)
| Communicate (src : nat).

(** [self.randomizer]: the generator state of the calling rank's own
    stream. *)
Record Randomizer : Type := mkRandomizer {
  rand_state : RngState
}.

(** Modelled from the spec: [create_randomizer_with_offset] is not under
    src/; "a scoped pseudo-random generator offset is derived from a base
    seed plus an identifier of (process group, calling rank)". *)
Definition create_randomizer_with_offset (seed : Z) (pg : ProcessGroup)
  : Randomizer :=
  {| rand_state :=
       {| rng_seed := seed + Z.of_nat (get_global_rank pg (pg_index pg));
          rng_pos := 0 |} |}.

Section Construction.
Context {R : Type} `{Scalar R}.

(** The process as a constructor sees it.  [events] is the log of what
    has been done so far (latest first); [default_group] is the group
    [None] stands for; [cuda_available] and [broadcast_from] are the
    answers of the device and of the network. *)
Record World : Type := mkWorld {
  ambient_rng : RngState;
  events : list Event;
  default_group : ProcessGroup;
  cuda_available : bool;
  broadcast_from : nat -> list R -> Exc (list R)
}.

Definition set_rng (w : World) (s : RngState) : World :=
  {| ambient_rng := s;
     events := events w;
     default_group := default_group w;
     cuda_available := cuda_available w;
     broadcast_from := broadcast_from w |}.

Definition log_event (w : World) (ev : Event) : World :=
  {| ambient_rng := ambient_rng w;
     events := ev :: events w;
     default_group := default_group w;
     cuda_available := cuda_available w;
     broadcast_from := broadcast_from w |}.

(** A constructor step: it changes the world and returns or raises; the
    world a raising step leaves behind is kept. *)
Definition M (A : Type) : Type := World -> World * Exc A.

Definition mret {A : Type} (a : A) : M A := fun w => (w, inr a).

Definition mraise {A : Type} (e : Exn) : M A := fun w => (w, inl e).

Definition mbind {A B : Type} (m : M A) (f : A -> M B) : M B :=
  fun w =>
    match m w with
    | (w', inr a) => f a w'
    | (w', inl e) => (w', inl e)
    end.

Definition emit (ev : Event) : M unit := fun w => (log_event w ev, inr tt).

(** [assert cond, msg]. *)
Definition massert (cond : bool) (msg : string) : M unit :=
  if cond then mret tt else mraise (AssertionError msg).

(** A step that draws from the ambient generator. *)
Definition with_rng {A : Type} (f : RngState -> RngState * Exc A) : M A :=
  fun w => let (s, r) := f (ambient_rng w) in (set_rng w s, r).

(** [torch.random.initial_seed()]. *)
Definition initial_seed : M Z := fun w => (w, inr (rng_seed (ambient_rng w))).

(** [dist.get_world_size(process_group)] and the group a [None] argument
    denotes. *)
Definition resolve_group (pg : option ProcessGroup) : M ProcessGroup :=
  fun w => (w, inr (match pg with Some g => g | None => default_group w end)).

(** Modelled from the spec: [Randomizer.fork_rng] is not under src/;
    the block "runs inside a scoped context that saves the ambient random
    generator state before entry and restores it on every exit path
    (normal return or error)".  Inside the block the ambient generator is
    the randomizer's own stream. *)
Definition fork_rng {A : Type} (r : Randomizer) (body : M A) : M A :=
  fun w =>
    let saved := ambient_rng w in
    let (w', res) := body (set_rng w (rand_state r)) in
    (set_rng w' saved, res).

(** An initializer of [colossalai.nn.init] fills a parameter in place
    from the ambient generator; it is an argument of the constructor. *)
Definition WeightInit : Type :=
  Tensor R -> nat -> nat -> RngState -> RngState * Exc (Tensor R).

Definition BiasInit : Type :=
  list R -> nat -> RngState -> RngState * Exc (list R).

(** A parameter handed to a constructor: its data and whether it is a
    distributed tensor already ([is_distributed_tensor]). *)
Record WeightParam : Type := mkWeightParam {
  w_data : Tensor R;
  w_distributed : bool
}.

Record BiasParam : Type := mkBiasParam {
  b_data : list R;
  b_distributed : bool
}.

(** [torch.empty(rows, cols)]: storage that every constructor path fills
    before it is read. *)
Definition torch_empty (rows cols : nat) : Tensor R :=
  {| t_width := cols; t_rows := repeat (repeat rzero cols) rows |}.

(** The block of [xs] that rank [i] of [p] keeps. *)
Definition block {X : Type} (p i : nat) (xs : list X) : list X :=
  let n := length xs / p in firstn n (skipn (i * n) xs).

(** Modelled from the spec: [shard_rowwise] is not under src/; it "splits
    along dimension 0 into [world_size] contiguous blocks of length
    [dim0/world_size]; rank [r] keeps block [r]". *)
Definition shard_rowwise (t : Tensor R) (pg : ProcessGroup) : Tensor R :=
  {| t_width := t_width t;
     t_rows := block (get_world_size pg) (pg_index pg) (t_rows t) |}.

(** Modelled from the spec: [shard_colwise] is not under src/; "same but
    along dimension 1 (or the only dimension, for a 1-D bias)". *)
Definition shard_colwise (t : Tensor R) (pg : ProcessGroup) : Tensor R :=
  {| t_width := t_width t / get_world_size pg;
     t_rows := map (block (get_world_size pg) (pg_index pg)) (t_rows t) |}.

Definition shard_colwise_1d (b : list R) (pg : ProcessGroup) : list R :=
  block (get_world_size pg) (pg_index pg) b.

(** [nn.Linear]: the dense layer a conversion starts from. *)
Record Linear : Type := mkLinear {
  lin_in_features : nat;
  lin_out_features : nat;
  lin_weight : WeightParam;
  lin_bias : option BiasParam
}.

(** The forward pass of the dense layer. *)
Definition Linear_forward (weight : Tensor R) (bias : option (list R))
  (input : Tensor R) : Tensor R :=
  F_linear input weight bias.

(** The [process_group] argument of [from_native_module]: one group
    ([None] for the default one) or a list of groups. *)
Inductive GroupArg : Type :=
| OneGroup (pg : option ProcessGroup)
| GroupList (pgs : list (option ProcessGroup)).

(** "ensure only one process group is passed". *)
Definition single_group (arg : GroupArg) : M (option ProcessGroup) :=
  match arg with
  | OneGroup pg => mret pg
  | GroupList pgs =>
      match pgs with
      | [pg] => mret pg
      | _ => mraise (AssertionError
                       ("Expected only one process group, got "
                        ++ show_nat (length pgs) ++ "."))
      end
  end.

End Construction.

Arguments World R : clear implicits.
Arguments M R A : clear implicits.
Arguments WeightInit R : clear implicits.
Arguments BiasInit R : clear implicits.
Arguments WeightParam R : clear implicits.
Arguments BiasParam R : clear implicits.
Arguments Linear R : clear implicits.

Notation "x <~ p ;; q" := (mbind p (fun x => q))
  (at level 61, p at next level, right associativity).

(** A keyword argument left out takes its default. *)
Definition default {A : Type} (d : A) (given : option A) : A :=
  match given with
  | Some a => a
  | None => d
  end.

Definition is_some {A : Type} (o : option A) : bool :=
  match o with
  | Some _ => true
  | None => false
  end.

(** What a conversion returns: the dense module itself, or the parallel
    layer built from it. *)
Inductive Converted (Dense Parallel : Type) : Type :=
| Native (module : Dense)
| Parallelized (linear_1d : Parallel).

Arguments Native {Dense Parallel} module.
Arguments Parallelized {Dense Parallel} linear_1d.

(** ** The column-parallel layer *)

Module Linear1D_Col.
Section Layer.
Context {R : Type} `{Scalar R}.

(** The attributes of an instance: [weight] is the local shard
    [[out_features / P, in_features]], [bias] the local shard of the
    bias. *)
Record Layer : Type := mkLayer {
  in_features : nat;
  out_features : nat;
  gather_output : bool;
  skip_bias_add : bool;
  process_group : ProcessGroup;
  randomizer : Randomizer;
  weight : Tensor R;
  bias : option (list R)
}.

(** The arguments of [__init__]; an optional one is [None] when the
    caller leaves it to its default.  ([dtype] and [device] move data
    without changing it and are left out.) *)
Record Args : Type := mkArgs {
  arg_in_features : nat;
  arg_out_features : nat;
  arg_bias : option bool;
  arg_process_group : option ProcessGroup;
  arg_gather_output : option bool;
  arg_skip_bias_add : option bool;
  arg_weight : option (WeightParam R);
  arg_bias_ : option (BiasParam R);
  arg_weight_initializer : WeightInit R;
  arg_bias_initializer : BiasInit R
}.

Definition set_parameters (self : Layer) (w : Tensor R) (b : option (list R))
  : Layer :=
  {| in_features := in_features self;
     out_features := out_features self;
     gather_output := gather_output self;
     skip_bias_add := skip_bias_add self;
     process_group := process_group self;
     randomizer := randomizer self;
     weight := w;
     bias := b |}.

(** [reset_parameters]: both initializers run inside
    [with self.randomizer.fork_rng(enable_cpu=True)]. *)
Definition reset_parameters (self : Layer) (weight_initializer : WeightInit R)
  (bias_initializer : BiasInit R) : M R Layer :=
  fork_rng (randomizer self)
    (let fan_in := in_features self in
     let fan_out := out_features self in
     w <~ with_rng (weight_initializer (weight self) fan_in fan_out) ;;
     match bias self with
     | Some b =>
         b' <~ with_rng (bias_initializer b fan_in) ;;
         mret (set_parameters self w (Some b'))
     | None => mret (set_parameters self w None)
     end).

Definition skip_bias_message : string :=
  "cannot skip bias addition if bias is None".

Definition __init__ (a : Args) : M R Layer :=
  let in_features := arg_in_features a in
  let out_features := arg_out_features a in
  let bias := default true (arg_bias a) in
  let gather_output := default false (arg_gather_output a) in
  let skip_bias_add := default false (arg_skip_bias_add a) in
  process_group <~ resolve_group (arg_process_group a) ;;
  if skip_bias_add && negb bias then mraise (ValueError skip_bias_message)
  else
    seed <~ initial_seed ;;
    let randomizer := create_randomizer_with_offset seed process_group in
    _ <~ match arg_weight a with
         | Some _ =>
             massert (negb bias || is_some (arg_bias_ a))
               "bias_ must be provided if bias is True when weight is not None"
         | None =>
             massert (negb (is_some (arg_bias_ a)))
               "bias_ must be None if weight is None"
         end ;;
    weight <~ match arg_weight a with
              | None =>
                  _ <~ emit (Allocate [out_features; in_features]) ;;
                  mret (mkWeightParam (torch_empty out_features in_features) false)
              | Some weight => mret weight
              end ;;
    weight <~ (if w_distributed weight then mret (w_data weight)
               else
                 _ <~ emit (Shard (shape (w_data weight))) ;;
                 mret (shard_rowwise (w_data weight) process_group)) ;;
    bias <~ (if bias then
               bias <~ match arg_bias_ a with
                       | None =>
                           _ <~ emit (Allocate [out_features]) ;;
                           mret (mkBiasParam (repeat rzero out_features) false)
                       | Some bias_ => mret bias_
                       end ;;
               if b_distributed bias then mret (Some (b_data bias))
               else
                 _ <~ emit (Shard [length (b_data bias)]) ;;
                 mret (Some (shard_colwise_1d (b_data bias) process_group))
             else mret None) ;;
    let self :=
      {| in_features := in_features;
         out_features := out_features;
         gather_output := gather_output;
         skip_bias_add := skip_bias_add;
         process_group := process_group;
         randomizer := randomizer;
         weight := weight;
         bias := bias |} in
    match arg_weight a with
    | None =>
        reset_parameters self (arg_weight_initializer a) (arg_bias_initializer a)
    | Some _ => mret self
    end.

(** The keyword arguments [from_native_module] passes on to [__init__]. *)
Record Kwargs : Type := mkKwargs {
  kw_gather_output : option bool;
  kw_skip_bias_add : option bool;
  kw_weight_initializer : WeightInit R;
  kw_bias_initializer : BiasInit R
}.

Definition divisibility_message (out_features tp_size : nat) : string :=
  ("The size of out_features:" ++ show_nat out_features
   ++ " is not integer multiples of tensor parallel size: "
   ++ show_nat tp_size ++ "!")%string.

(** [from_native_module].  ([LazyInitContext.materialize] realises
    deferred tensors in place; the module denotes the same values before
    and after.) *)
Definition from_native_module (module : Linear R) (process_group : GroupArg)
  (kwargs : Kwargs) : M R (Converted (Linear R) Layer) :=
  let in_features := lin_in_features module in
  let out_features := lin_out_features module in
  let bias := is_some (lin_bias module) in
  process_group <~ single_group process_group ;;
  group <~ resolve_group process_group ;;
  let tp_size := get_world_size group in
  if out_features <? tp_size then mret (Native module)
  else if tp_size =? 0 then mraise (ZeroDivisionError "integer modulo by zero")
  else if negb (out_features mod tp_size =? 0) then
    mraise (ValueError (divisibility_message out_features tp_size))
  else
    linear_1d <~ __init__
      {| arg_in_features := in_features;
         arg_out_features := out_features;
         arg_bias := Some bias;
         arg_process_group := process_group;
         arg_gather_output := kw_gather_output kwargs;
         arg_skip_bias_add := kw_skip_bias_add kwargs;
         arg_weight := Some (lin_weight module);
         arg_bias_ := lin_bias module;
         arg_weight_initializer := kw_weight_initializer kwargs;
         arg_bias_initializer := kw_bias_initializer kwargs |} ;;
    mret (Parallelized linear_1d).

Definition shape_message (input_ w : Tensor R) (expected : nat) : string :=
  ("Invalid shapes in Linear1D_Col forward: input=" ++ show_shape (shape input_)
   ++ ", weight=" ++ show_shape (shape w)
   ++ ". Expected last dim of input " ++ show_nat expected ++ ".")%string.

(** Modelled from the spec: [linear_with_async_comm] is not under src/;
    in the forward direction it "computes [localOut = input . weightShard^T
    (+ biasShard unless skipBiasAdd)]" and talks to no other rank. *)
Definition linear_with_async_comm (input_ w : Tensor R) (b : option (list R))
  : Tensor R :=
  F_linear input_ w b.

Definition forward (self : Layer) (input_ : Tensor R) : Prog R (Output R) :=
  if negb (t_width input_ =? t_width (weight self)) then
    Raise (AssertionError
             (shape_message input_ (weight self) (t_width (weight self))))
  else
    let input_parallel := input_ in
    let bias' := if negb (skip_bias_add self) then bias self else None in
    let output_parallel :=
      linear_with_async_comm input_parallel (weight self) bias' in
    output <- (if gather_output self then AllGather output_parallel Ret
               else Ret output_parallel) ;;
    if skip_bias_add self then Ret (WithBias output (bias self))
    else Ret (Single output).

End Layer.

Arguments Layer R : clear implicits.
Arguments Args R : clear implicits.
Arguments Kwargs R : clear implicits.

End Linear1D_Col.

(** ** The row-parallel layer *)

Module Linear1D_Row.
Section Layer.
Context {R : Type} `{Scalar R}.

(** The attributes of an instance: [weight] is the local shard
    [[out_features, in_features / P]], [weight_list] the views
    [chunk_weight] stored, [bias] the replica of the whole bias,
    [training] the mode flag of [nn.Module]. *)
Record Layer : Type := mkLayer {
  in_features : nat;
  out_features : nat;
  parallel_input : bool;
  skip_bias_add : bool;
  process_group : ProcessGroup;
  num_partitions : nat;
  stream_chunk_num : Z;
  randomizer : Randomizer;
  weight : Tensor R;
  weight_list : list (Tensor R);
  bias : option (list R);
  training : bool
}.

(** The arguments of [__init__]; an optional one is [None] when the
    caller leaves it to its default.  ([dtype] and [device] move data
    without changing it and are left out.) *)
Record Args : Type := mkArgs {
  arg_in_features : nat;
  arg_out_features : nat;
  arg_bias : option bool;
  arg_process_group : option ProcessGroup;
  arg_parallel_input : option bool;
  arg_skip_bias_add : option bool;
  arg_weight : option (WeightParam R);
  arg_bias_ : option (BiasParam R);
  arg_weight_initializer : WeightInit R;
  arg_bias_initializer : BiasInit R;
  arg_stream_chunk_num : option Z
}.

(** The default the signature of [__init__] gives [parallel_input], and
    the default its docstring announces ("defaults to False"). *)
Definition parallel_input_default : bool := true.

Definition parallel_input_documented_default : bool := false.

(** The parameters are written in place: the views in [weight_list] see
    the new weight. *)
Definition set_parameters (self : Layer) (w : Tensor R) (b : option (list R))
  : Layer :=
  {| in_features := in_features self;
     out_features := out_features self;
     parallel_input := parallel_input self;
     skip_bias_add := skip_bias_add self;
     process_group := process_group self;
     num_partitions := num_partitions self;
     stream_chunk_num := stream_chunk_num self;
     randomizer := randomizer self;
     weight := w;
     weight_list :=
       match weight_list self with
       | [] => []
       | _ => torch_chunk w (Z.to_nat (stream_chunk_num self))
       end;
     bias := b;
     training := training self |}.

(** [chunk_weight]: [self.weight_list = torch.chunk(self.weight,
    self.stream_chunk_num, dim=0)]. *)
Definition chunk_weight (self : Layer) : Layer :=
  {| in_features := in_features self;
     out_features := out_features self;
     parallel_input := parallel_input self;
     skip_bias_add := skip_bias_add self;
     process_group := process_group self;
     num_partitions := num_partitions self;
     stream_chunk_num := stream_chunk_num self;
     randomizer := randomizer self;
     weight := weight self;
     weight_list := torch_chunk (weight self) (Z.to_nat (stream_chunk_num self));
     bias := bias self;
     training := training self |}.

(** [self.bias.cuda()] fails on a process without a device. *)
Definition cuda (b : list R) : M R (list R) :=
  fun w =>
    if cuda_available w then (w, inr b)
    else (w, inl (RuntimeError "No CUDA GPUs are available")).

(** [dist.broadcast(bias, src=src_rank, group=...)]: the buffer becomes
    what the source rank holds. *)
Definition broadcast (b : list R) (src : nat) : M R (list R) :=
  fun w => (log_event w (Communicate src), broadcast_from w src b).

(** [reset_parameters]: the initializers run on the ambient generator as
    the caller left it, and the bias of rank 0 is broadcast. *)
Definition reset_parameters (self : Layer) (weight_initializer : WeightInit R)
  (bias_initializer : BiasInit R) : M R Layer :=
  let fan_in := in_features self in
  let fan_out := out_features self in
  w <~ with_rng (weight_initializer (weight self) fan_in fan_out) ;;
  match bias self with
  | Some b =>
      b <~ with_rng (bias_initializer b fan_in) ;;
      let src_rank :=
        if pg_none (process_group self) then 0
        else get_global_rank (process_group self) 0 in
      b <~ cuda b ;;
      b <~ broadcast b src_rank ;;
      mret (set_parameters self w (Some b))
  | None => mret (set_parameters self w None)
  end.

Definition skip_bias_message : string :=
  "cannot skip bias addition if bias is None".

Definition __init__ (a : Args) : M R Layer :=
  let stream_chunk_num := default 1%Z (arg_stream_chunk_num a) in
  let in_features := arg_in_features a in
  let out_features := arg_out_features a in
  let bias := default true (arg_bias a) in
  let parallel_input := default parallel_input_default (arg_parallel_input a) in
  let skip_bias_add := default false (arg_skip_bias_add a) in
  process_group <~ resolve_group (arg_process_group a) ;;
  let num_partitions := get_world_size process_group in
  if skip_bias_add && negb bias then mraise (ValueError skip_bias_message)
  else
    seed <~ initial_seed ;;
    let randomizer := create_randomizer_with_offset seed process_group in
    _ <~ match arg_weight a with
         | Some _ =>
             massert (negb bias || is_some (arg_bias_ a))
               "bias_ must be provided if bias is True when weight is not None"
         | None =>
             massert (negb (is_some (arg_bias_ a)))
               "bias_ must be None if weight is None"
         end ;;
    weight <~ match arg_weight a with
              | None =>
                  _ <~ emit (Allocate [out_features; in_features]) ;;
                  mret (mkWeightParam (torch_empty out_features in_features) false)
              | Some weight => mret weight
              end ;;
    weight <~ (if w_distributed weight then mret (w_data weight)
               else
                 _ <~ emit (Shard (shape (w_data weight))) ;;
                 mret (shard_colwise (w_data weight) process_group)) ;;
    bias <~ (if bias then
               match arg_bias_ a with
               | None =>
                   _ <~ emit (Allocate [out_features]) ;;
                   mret (Some (repeat rzero out_features))
               | Some bias_ => mret (Some (b_data bias_))
               end
             else mret None) ;;
    let self :=
      {| in_features := in_features;
         out_features := out_features;
         parallel_input := parallel_input;
         skip_bias_add := skip_bias_add;
         process_group := process_group;
         num_partitions := num_partitions;
         stream_chunk_num := stream_chunk_num;
         randomizer := randomizer;
         weight := weight;
         weight_list := [];
         bias := bias;
         training := true |} in
    let self := if (1 <? stream_chunk_num)%Z then chunk_weight self else self in
    match arg_weight a with
    | None =>
        fork_rng randomizer
          (reset_parameters self (arg_weight_initializer a)
             (arg_bias_initializer a))
    | Some _ => mret self
    end.

(** The keyword arguments [from_native_module] passes on to [__init__]. *)
Record Kwargs : Type := mkKwargs {
  kw_parallel_input : option bool;
  kw_skip_bias_add : option bool;
  kw_weight_initializer : WeightInit R;
  kw_bias_initializer : BiasInit R;
  kw_stream_chunk_num : option Z
}.

Definition divisibility_message (in_features tp_size : nat) : string :=
  ("The size of in_features:" ++ show_nat in_features
   ++ " is not integer multiples of tensor parallel size: "
   ++ show_nat tp_size ++ "!")%string.

(** [from_native_module].  ([LazyInitContext.materialize] realises
    deferred tensors in place; the module denotes the same values before
    and after.) *)
Definition from_native_module (module : Linear R) (process_group : GroupArg)
  (kwargs : Kwargs) : M R (Converted (Linear R) Layer) :=
  let in_features := lin_in_features module in
  let out_features := lin_out_features module in
  let bias := is_some (lin_bias module) in
  process_group <~ single_group process_group ;;
  group <~ resolve_group process_group ;;
  let tp_size := get_world_size group in
  if in_features <? tp_size then mret (Native module)
  else if tp_size =? 0 then mraise (ZeroDivisionError "integer modulo by zero")
  else if negb (in_features mod tp_size =? 0) then
    mraise (ValueError (divisibility_message in_features tp_size))
  else
    linear_1d <~ __init__
      {| arg_in_features := in_features;
         arg_out_features := out_features;
         arg_bias := Some bias;
         arg_process_group := process_group;
         arg_parallel_input := kw_parallel_input kwargs;
         arg_skip_bias_add := kw_skip_bias_add kwargs;
         arg_weight := Some (lin_weight module);
         arg_bias_ := lin_bias module;
         arg_weight_initializer := kw_weight_initializer kwargs;
         arg_bias_initializer := kw_bias_initializer kwargs;
         arg_stream_chunk_num := kw_stream_chunk_num kwargs |} ;;
    mret (Parallelized linear_1d).

(** The diagnostic of the two shape assertions of [forward]. *)
Definition shape_message (input_ w : Tensor R) (expected : nat) : string :=
  ("Invalid shapes in Linear1D_Row forward: input=" ++ show_shape (shape input_)
   ++ ", weight=" ++ show_shape (shape w)
   ++ ". Expected last dim of input " ++ show_nat expected ++ ".")%string.

Definition training_message : string :=
  "use stream_chunk_num=1 in Linear1D_Row for training!".

(** [divide] of [colossalai.nn.layer.utils] is not under src/: the helper
    is a parameter of the forward pass. *)
Variable divide : nat -> nat -> Exc nat.

(** The first statement of [forward]: the shape assertion of the branch
    [parallel_input] selects, and the local split of a replicated
    input. *)
Definition check_input (self : Layer) (input_ : Tensor R) : Exc (Tensor R) :=
  if parallel_input self then
    if t_width input_ =? t_width (weight self)
    then inr input_
    else inl (AssertionError
                (shape_message input_ (weight self) (t_width (weight self))))
  else
    match divide (t_width input_) (num_partitions self) with
    | inl e => inl e
    | inr q =>
        if q =? t_width (weight self)
        then inr (split_forward input_ (process_group self))
        else inl (AssertionError
                    (shape_message input_ (weight self)
                       (t_width (weight self) * num_partitions self)))
    end.

(** The first loop of the chunked branch: chunk [i] is multiplied and its
    reduction issued without waiting; [n] iterations remain. *)
Fixpoint issue_chunks (input_ : Tensor R) (wl : list (Tensor R))
  (n i : nat) (handle_list : list Handle) : Prog R (list Handle) :=
  match n with
  | 0 => Ret handle_list
  | S n' =>
      match nth_error wl i with
      | None => Raise (IndexError "tuple index out of range")
      | Some w =>
          AllReduceAsync (F_linear input_ w None)
            (fun handle =>
               issue_chunks input_ wl n' (S i) (handle_list ++ [handle]))
      end
  end.

(** The second loop: [handle.wait()] for every handle in issue order;
    after the wait on handle [i] the buffer [output_parallel_list[i]]
    holds the reduced chunk. *)
Fixpoint wait_all (handle_list : list Handle)
  (output_parallel_list : list (Tensor R)) : Prog R (list (Tensor R)) :=
  match handle_list with
  | [] => Ret output_parallel_list
  | handle :: rest =>
      Wait handle (fun t => wait_all rest (output_parallel_list ++ [t]))
  end.

(** The branch [if self.stream_chunk_num > 1] and its [else]. *)
Definition reduced_output (self : Layer) (input_ : Tensor R)
  : Prog R (Tensor R) :=
  if (1 <? stream_chunk_num self)%Z then
    if training self then Raise (RuntimeError training_message)
    else
      handle_list <- issue_chunks input_ (weight_list self)
                       (Z.to_nat (stream_chunk_num self)) 0 [] ;;
      output_parallel_list <- wait_all handle_list [] ;;
      lift (torch_cat output_parallel_list)
  else
    AllReduce (F_linear input_ (weight self) None) Ret.

(** The last statement: the bias is added to the reduced output, or
    handed back beside it. *)
Definition finish (self : Layer) (output : Tensor R) : Output R :=
  if negb (skip_bias_add self) then
    match bias self with
    | Some b => Single (add_bias output b)
    | None => Single output
    end
  else WithBias output (bias self).

Definition forward (self : Layer) (input_ : Tensor R) : Prog R (Output R) :=
  input_ <- lift (check_input self input_) ;;
  output <- reduced_output self input_ ;;
  Ret (finish self output).

End Layer.

Arguments Layer R : clear implicits.
Arguments Args R : clear implicits.
Arguments Kwargs R : clear implicits.

(** Modelled from the spec: [divide] is not under src/.  The spec's
    invariant for the row-parallel layer is "[in_features % world_size ==
    0]" with a shard of width [in_features / P]: the helper is the exact
    quotient, and it rejects a numerator its denominator does not
    divide. *)
Definition divide (numerator denominator : nat) : Exc nat :=
  if (denominator =? 0) || negb (numerator mod denominator =? 0)
  then inl (AssertionError
              (show_nat numerator ++ " is not divisible by " ++ show_nat denominator))
  else inr (numerator / denominator).

End Linear1D_Row.

(** * Helpers of the UniEval evaluation
      ([applications/Chat/evaluate/unieval/utils.py]) *)

Module UniEval.

(** The exceptions these helpers raise, by themselves or through an
    index or a key that is not there. *)
Inductive PyError : Type :=
| NotImplementedError (msg : string)
| IndexError (msg : string)
| TypeError (msg : string)
| KeyError (key : string).

Definition Result (A : Type) : Type := (PyError + A)%type.

Definition rbind {A B : Type} (x : Result A) (f : A -> Result B) : Result B :=
  match x with
  | inl e => inl e
  | inr a => f a
  end.

Notation "x <-- p ;; q" := (rbind p (fun x => q))
  (at level 61, p at next level, right associativity).

(** [xs[i]] on a list. *)
Definition index {A : Type} (xs : list A) (i : nat) : Result A :=
  match nth_error xs i with
  | Some a => inr a
  | None => inl (IndexError "list index out of range")
  end.

(** [xs[i]] on an argument that is [None] when the caller leaves it
    out. *)
Definition subscript {A : Type} (xs : option (list A)) (i : nat) : Result A :=
  match xs with
  | None => inl (TypeError "'NoneType' object is not subscriptable")
  | Some l => index l i
  end.

(** [task == name]; a task left out is [None] and equals no name. *)
Definition is_task (task : option string) (name : string) : bool :=
  match task with
  | Some t => String.eqb t name
  | None => false
  end.

Definition undefined_dimension : string :=
  "The input format for this dimension is still undefined. Please customize it first.".

Definition no_other_dimension : string :=
  "No other dimensions for the factual consistency detection task.".

Definition other_tasks : string :=
  "Other tasks are not implemented, please customize specific tasks here.".

(** The body of the loop of [add_question]: the value of [cur_input] at
    index [i], where [output_i] is [output[i]].  The operands of a
    concatenation are evaluated from left to right. *)
Definition cur_input (dimension output_i : string)
  (src ref context : option (list string)) (task : option string) (i : nat)
  : Result string :=
  if is_task task "summarization" then
    if String.eqb dimension "fluency" then
      inr ("question: Is this a fluent paragraph? </s> paragraph: " ++ output_i)%string
    else if String.eqb dimension "coherence" then
      src_i <-- subscript src i ;;
      inr ("question: Is this a coherent summary to the document? </s> summary: "
           ++ output_i ++ " </s> document: " ++ src_i)%string
    else if String.eqb dimension "consistency" then
      src_i <-- subscript src i ;;
      inr ("question: Is this claim consistent with the document? </s> claim: "
           ++ output_i ++ " </s> document: " ++ src_i)%string
    else if String.eqb dimension "relevance" then
      ref_i <-- subscript ref i ;;
      inr ("question: Is this summary relevant to the reference? </s> summary: "
           ++ output_i ++ " </s> reference: " ++ ref_i)%string
    else inl (NotImplementedError undefined_dimension)
  else if is_task task "dialogue" then
    if String.eqb dimension "naturalness" then
      inr ("question: Is this a natural response in the dialogue? </s> response: "
           ++ output_i)%string
    else if String.eqb dimension "coherence" then
      src_i <-- subscript src i ;;
      inr ("question: Is this a coherent response given the dialogue history? </s> response: "
           ++ output_i ++ " </s> dialogue history: " ++ src_i)%string
    else if String.eqb dimension "engagingness" then
      src_i <-- subscript src i ;;
      context_i <-- subscript context i ;;
      inr ("question: Is this an engaging and informative response according to the dialogue history and fact? </s> response: "
           ++ output_i ++ " </s> dialogue history: " ++ src_i
           ++ " </s> fact: " ++ context_i)%string
    else if String.eqb dimension "groundedness" then
      context_i <-- subscript context i ;;
      inr ("question: Is this response consistent with knowledge in the fact? </s> response: "
           ++ output_i ++ " </s> fact: " ++ context_i)%string
    else if String.eqb dimension "understandability" then
      inr ("question: Is this an understandable response in the dialogue? </s> response: "
           ++ output_i)%string
    else inl (NotImplementedError undefined_dimension)
  else if is_task task "data2text" then
    if String.eqb dimension "naturalness" then
      inr ("question: Is this a fluent utterance? </s> utterance: " ++ output_i)%string
    else if String.eqb dimension "informativeness" then
      ref_i <-- subscript ref i ;;
      inr ("question: Is this sentence informative according to the reference? </s> sentence: "
           ++ output_i ++ " </s> reference: " ++ ref_i)%string
    else inl (NotImplementedError undefined_dimension)
  else if is_task task "fact" then
    if String.eqb dimension "consistency" then
      src_i <-- subscript src i ;;
      inr ("question: Is this claim consistent with the document? </s> claim: "
           ++ output_i ++ " </s> document: " ++ src_i)%string
    else inl (NotImplementedError no_other_dimension)
  else inl (NotImplementedError other_tasks).

(** The loop [for i in range(len(output))] with [n] iterations to go. *)
Fixpoint add_question_from (dimension : string) (output : list string)
  (src ref context : option (list string)) (task : option string)
  (n i : nat) (input_with_question : list string) : Result (list string) :=
  match n with
  | 0 => inr input_with_question
  | S n' =>
      output_i <-- index output i ;;
      cur <-- cur_input dimension output_i src ref context task i ;;
      add_question_from dimension output src ref context task n' (S i)
        (input_with_question ++ [cur])
  end.

Definition add_question (dimension : string) (output : list string)
  (src ref context : option (list string)) (task : option string)
  : Result (list string) :=
  add_question_from dimension output src ref context task (length output) 0 [].

(** A Python [dict] with string keys, in insertion order. *)
Definition Dict (V : Type) : Type := list (string * V).

Fixpoint get {V : Type} (d : Dict V) (k : string) : option V :=
  match d with
  | [] => None
  | (k', v) :: d' => if String.eqb k' k then Some v else get d' k
  end.

(** [d[k]]. *)
Definition get_item {V : Type} (d : Dict V) (k : string) : Result V :=
  match get d k with
  | Some v => inr v
  | None => inl (KeyError k)
  end.

(** [d[k] = v]: a key that is there keeps its place, a new one goes to
    the end. *)
Fixpoint set_item {V : Type} (d : Dict V) (k : string) (v : V) : Dict V :=
  match d with
  | [] => [(k, v)]
  | (k', v') :: d' =>
      if String.eqb k' k then (k', v) :: d' else (k', v') :: set_item d' k v
  end.

Definition keys {V : Type} (d : Dict V) : list string := map fst d.

(** The body of the loop of [convert_data_to_unieval_format]. *)
Definition cur_record (output_list : list string)
  (src_list ref_list : option (list string)) (i : nat) : Result (Dict string) :=
  let cur : Dict string := [] in
  output_i <-- index output_list i ;;
  let cur := set_item cur "system_output" output_i in
  cur <-- match src_list with
          | Some l => src_i <-- index l i ;; inr (set_item cur "source" src_i)
          | None => inr cur
          end ;;
  cur <-- match ref_list with
          | Some l => ref_i <-- index l i ;; inr (set_item cur "reference" ref_i)
          | None => inr cur
          end ;;
  inr (set_item cur "context" "").

Fixpoint convert_from (output_list : list string)
  (src_list ref_list : option (list string)) (n i : nat)
  (json_data : list (Dict string)) : Result (list (Dict string)) :=
  match n with
  | 0 => inr json_data
  | S n' =>
      cur <-- cur_record output_list src_list ref_list i ;;
      convert_from output_list src_list ref_list n' (S i) (json_data ++ [cur])
  end.

Definition convert_data_to_unieval_format (output_list : list string)
  (src_list ref_list : option (list string)) : Result (list (Dict string)) :=
  convert_from output_list src_list ref_list (length output_list) 0 [].

(** The numbers [calculate_average_score] works on: the integer [0] the
    sums start from, [+], and [/] by a length.  Nothing is assumed of
    them. *)
Class Number (N : Type) : Type := {
  nzero : N;
  nadd : N -> N -> N;
  ndiv : N -> nat -> N
}.

Section Average.
Context {N : Type} `{Number N}.

(** [for metric in score: metrics[metric] += score[metric]]. *)
Fixpoint add_score (metrics : Dict N) (score : Dict N) (todo : list string)
  : Result (Dict N) :=
  match todo with
  | [] => inr metrics
  | metric :: todo' =>
      sum <-- get_item metrics metric ;;
      value <-- get_item score metric ;;
      add_score (set_item metrics metric (nadd sum value)) score todo'
  end.

(** [for score in scores: ...]. *)
Fixpoint add_scores (metrics : Dict N) (scores : list (Dict N))
  : Result (Dict N) :=
  match scores with
  | [] => inr metrics
  | score :: scores' =>
      metrics <-- add_score metrics score (keys score) ;;
      add_scores metrics scores'
  end.

(** [for metric in metrics: metrics[metric] /= len(scores)]. *)
Fixpoint divide_all (metrics : Dict N) (n : nat) (todo : list string)
  : Result (Dict N) :=
  match todo with
  | [] => inr metrics
  | metric :: todo' =>
      sum <-- get_item metrics metric ;;
      divide_all (set_item metrics metric (ndiv sum n)) n todo'
  end.

Definition calculate_average_score (scores : list (Dict N)) : Result (Dict N) :=
  first <-- index scores 0 ;;
  let metrics :=
    fold_left (fun metrics metric => set_item metrics metric nzero)
      (keys first) [] in
  metrics <-- add_scores metrics scores ;;
  divide_all metrics (length scores) (keys metrics).

End Average.

End UniEval.

(** * Vocabulary of the properties *)

Section Vocabulary.
Context {R : Type} `{Scalar R}.
Variable divide : nat -> nat -> Exc nat.

(** The group a [process_group] argument denotes in a given process. *)
Definition group_of (w : World R) (pg : option ProcessGroup)
  : ProcessGroup :=
  match pg with
  | Some g => g
  | None => default_group w
  end.

(** The argument passes one group: as it is, or as a list of one. *)
Definition passes_one (arg : GroupArg) (pg : option ProcessGroup) : Prop :=
  arg = OneGroup pg \/ arg = GroupList [pg].

(** A step leaves the ambient generator as it found it, whether it
    returns or raises. *)
Definition keeps_rng {A : Type} (m : M R A) : Prop :=
  forall w, ambient_rng (fst (m w)) = ambient_rng w.

(** Every value the step can return satisfies [P]. *)
Definition returns {A : Type} (P : A -> Prop) (m : M R A) : Prop :=
  forall w w' a, m w = (w', inr a) -> P a.

(** A context a program runs in that lets the collectives of the program
    through, as [fun p => bind p f] does. *)
Record transparent {A B : Type} (E : Prog R A -> Prog R B) : Prop := {
  tr_raise : forall e, E (Raise e) = Raise e;
  tr_async : forall t k, E (AllReduceAsync t k) = AllReduceAsync t (fun h => E (k h));
  tr_wait : forall h k, E (Wait h k) = Wait h (fun s => E (k s))
}.

(** Two tensors with rows of one common width. *)
Definition same_shape (a b : Tensor R) : Prop :=
  tensor_wf a /\ tensor_wf b /\ t_width a = t_width b.

(** One rank of the group: its layer and the input it is called with. *)
Definition Rank : Type := (Linear1D_Row.Layer R * Tensor R)%type.

Definition rank_forward (d : Rank) : Prog R (Output R) :=
  Linear1D_Row.forward divide (fst d) (snd d).

(** The shard [forward] works on once the shape check has passed: the
    input itself, or the caller's slice of a replicated input. *)
Definition shard_of (d : Rank) : Tensor R :=
  if Linear1D_Row.parallel_input (fst d) then snd d
  else split_forward (snd d) (Linear1D_Row.process_group (fst d)).

Definition check_passes (d : Rank) : Prop :=
  Linear1D_Row.check_input divide (fst d) (snd d) = inr (shard_of d).

(** The partial product of one rank: [F.linear(input_, self.weight)]. *)
Definition partial_product (d : Rank) : Tensor R :=
  F_linear (shard_of d) (Linear1D_Row.weight (fst d)) None.

(** The sum over the ranks of the partial products for chunk [i]. *)
Definition chunk_sum (d0 : Rank) (ds : list Rank) (i : nat) : Tensor R :=
  reduce_sum
    (F_linear (shard_of d0)
       (nth i (Linear1D_Row.weight_list (fst d0)) (mkTensor 0 [])) None)
    (map (fun d =>
            F_linear (shard_of d)
              (nth i (Linear1D_Row.weight_list (fst d)) (mkTensor 0 [])) None)
       ds).

(** The blocks of rank [d] have the sizes of the blocks of rank [d0]. *)
Definition aligned (d0 d : Rank) : Prop :=
  Forall2 (fun c c' => length (t_rows c) = length (t_rows c'))
    (Linear1D_Row.weight_list (fst d0)) (Linear1D_Row.weight_list (fst d)).

(** What follows the issue loop, and what follows the wait loop. *)
Definition after_issue (handle_list : list Handle) : Prog R (Tensor R) :=
  output_parallel_list <- Linear1D_Row.wait_all handle_list [] ;;
  lift (torch_cat output_parallel_list).

Definition after_wait (output_parallel_list : list (Tensor R))
  : Prog R (Tensor R) :=
  lift (torch_cat output_parallel_list).

Definition finish_with (d : Rank) (output : Tensor R) : Prog R (Output R) :=
  Ret (Linear1D_Row.finish (fst d) output).

(** An input shard and a weight shard that fit: rows of one common width,
    [B] batch rows and [O] output rows. *)
Definition shard_ok (B O : nat) (x w : Tensor R) : Prop :=
  tensor_wf x /\ tensor_wf w /\ t_width x = t_width w
  /\ length (t_rows x) = B /\ length (t_rows w) = O.

(** The logical input and the logical weight of a row-parallel group: the
    ranks' shards joined along the last dimension, in rank order. *)
Definition dense_input (d0 : Rank) (ds : list Rank)
  : Tensor R :=
  fold_left cat2 (map shard_of ds) (shard_of d0).

Definition dense_weight (d0 : Rank) (ds : list Rank)
  : Tensor R :=
  fold_left cat2 (map (fun d => Linear1D_Row.weight (fst d)) ds)
    (Linear1D_Row.weight (fst d0)).

(** The same layer in standard mode: [stream_chunk_num = 1]. *)
Definition standard_mode (self : Linear1D_Row.Layer R)
  : Linear1D_Row.Layer R :=
  {| Linear1D_Row.in_features := Linear1D_Row.in_features self;
     Linear1D_Row.out_features := Linear1D_Row.out_features self;
     Linear1D_Row.parallel_input := Linear1D_Row.parallel_input self;
     Linear1D_Row.skip_bias_add := Linear1D_Row.skip_bias_add self;
     Linear1D_Row.process_group := Linear1D_Row.process_group self;
     Linear1D_Row.num_partitions := Linear1D_Row.num_partitions self;
     Linear1D_Row.stream_chunk_num := 1;
     Linear1D_Row.randomizer := Linear1D_Row.randomizer self;
     Linear1D_Row.weight := Linear1D_Row.weight self;
     Linear1D_Row.weight_list := Linear1D_Row.weight_list self;
     Linear1D_Row.bias := Linear1D_Row.bias self;
     Linear1D_Row.training := Linear1D_Row.training self |}.

Definition to_standard (d : Rank) : Rank :=
  (standard_mode (fst d), snd d).

(** One rank of the group: its layer and the input it is called with. *)
Definition ColRank : Type := (Linear1D_Col.Layer R * Tensor R)%type.

Definition col_forward (d : ColRank) : Prog R (Output R) :=
  Linear1D_Col.forward (fst d) (snd d).

(** [output_parallel]: the local product, with the bias shard added
    unless [skip_bias_add] is set. *)
Definition output_parallel (d : ColRank) : Tensor R :=
  Linear1D_Col.linear_with_async_comm (snd d) (Linear1D_Col.weight (fst d))
    (if Linear1D_Col.skip_bias_add (fst d) then None
     else Linear1D_Col.bias (fst d)).

(** The [return] statement. *)
Definition col_result (d : ColRank) (output : Tensor R) : Output R :=
  if Linear1D_Col.skip_bias_add (fst d)
  then WithBias output (Linear1D_Col.bias (fst d))
  else Single output.

Definition col_check_passes (d : ColRank) : Prop :=
  t_width (snd d) = t_width (Linear1D_Col.weight (fst d)).

(** The logical weight of a column-parallel group: the ranks' shards
    stacked along the output dimension, in rank order; and its logical
    bias, the ranks' bias shards joined in the same order. *)
Definition col_dense_weight (d0 : ColRank) (ds : list ColRank) : Tensor R :=
  {| t_width := t_width (Linear1D_Col.weight (fst d0));
     t_rows :=
       concat (map (fun d => t_rows (Linear1D_Col.weight (fst d))) (d0 :: ds)) |}.

Definition bias_shard (d : ColRank) : list R :=
  default [] (Linear1D_Col.bias (fst d)).

Definition col_dense_bias (d0 : ColRank) (ds : list ColRank) : list R :=
  concat (map bias_shard (d0 :: ds)).

(** The rank holds a bias shard with one entry per row of its weight
    shard. *)
Definition bias_fits (d : ColRank) : Prop :=
  exists b, Linear1D_Col.bias (fst d) = Some b
            /\ length b = length (t_rows (Linear1D_Col.weight (fst d))).

(** A rank that holds a column-parallel layer followed by a row-parallel
    one: the first is called with the input [x], the second with the
    local output of the first. *)
Definition Block : Type := (Linear1D_Col.Layer R * Linear1D_Row.Layer R)%type.

Definition block_col (x : Tensor R) (p : Block) : ColRank := (fst p, x).

Definition block_row (x : Tensor R) (p : Block) : Rank :=
  (snd p, output_parallel (block_col x p)).

(** The two layers of a rank fit: no gather and the bias added in the
    first, a sharded input and standard mode in the second, whose weight
    shard has [O] rows as wide as the first layer's local output. *)
Definition block_ok (O : nat) (p : Block) : Prop :=
  Linear1D_Col.gather_output (fst p) = false
  /\ Linear1D_Col.skip_bias_add (fst p) = false
  /\ Linear1D_Row.parallel_input (snd p) = true
  /\ Linear1D_Row.stream_chunk_num (snd p) = 1%Z
  /\ tensor_wf (Linear1D_Row.weight (snd p))
  /\ t_width (Linear1D_Row.weight (snd p))
     = length (t_rows (Linear1D_Col.weight (fst p)))
  /\ length (t_rows (Linear1D_Row.weight (snd p))) = O.



(** Between the processes [w] and [w'] no parameter was allocated or
    sharded: the [Allocate] and [Shard] events are those of [w]. *)
Definition is_parameter_event (ev : Event) : bool :=
  match ev with
  | Allocate _ | Shard _ => true
  | Communicate _ => false
  end.

Definition parameters_untouched (w w' : World R) : Prop :=
  filter is_parameter_event (events w') = filter is_parameter_event (events w).

(** The layer [self] is what rank [i] of a group of [P] ranks obtains
    when it converts the dense [module]: the conversion is run in some
    process whose group argument denotes a group of [P] ranks in which the
    caller has index [i]. *)
Definition col_converted_at (module : Linear R) (kwargs : Linear1D_Col.Kwargs R)
  (P i : nat) (self : Linear1D_Col.Layer R) : Prop :=
  exists (arg : GroupArg) (pg : option ProcessGroup) (w w' : World R),
    passes_one arg pg
    /\ get_world_size (group_of w pg) = P
    /\ pg_index (group_of w pg) = i
    /\ Linear1D_Col.from_native_module module arg kwargs w
       = (w', inr (Parallelized self)).

Definition row_converted_at (module : Linear R) (kwargs : Linear1D_Row.Kwargs R)
  (P i : nat) (self : Linear1D_Row.Layer R) : Prop :=
  exists (arg : GroupArg) (pg : option ProcessGroup) (w w' : World R),
    passes_one arg pg
    /\ get_world_size (group_of w pg) = P
    /\ pg_index (group_of w pg) = i
    /\ Linear1D_Row.from_native_module module arg kwargs w
       = (w', inr (Parallelized self)).

(** A dense module as [nn.Linear] builds it: a weight [[out_features,
    in_features]] and, if any, a bias of [out_features] entries, neither
    of them distributed yet. *)
Definition dense_ok (module : Linear R) : Prop :=
  tensor_wf (w_data (lin_weight module))
  /\ t_width (w_data (lin_weight module)) = lin_in_features module
  /\ length (t_rows (w_data (lin_weight module))) = lin_out_features module
  /\ w_distributed (lin_weight module) = false
  /\ (forall b, lin_bias module = Some b ->
                length (b_data b) = lin_out_features module
                /\ b_distributed b = false).

(** The local output of a column-parallel layer written out entry by
    entry, after the words of the specification, "[localOut = input .
    weightShard^T (+ biasShard unless skipBiasAdd)]": entry [j] of the row
    for the input row [xr] is the inner product of [xr] and row [j] of the
    weight shard, with entry [j] of the bias shard added when the layer
    has a bias and [skip_bias_add] is not set. *)
Definition local_row (self : Linear1D_Col.Layer R) (xr : list R) : list R :=
  map (fun j =>
         let product := dot xr (nth j (t_rows (Linear1D_Col.weight self)) []) in
         match Linear1D_Col.bias self with
         | Some b =>
             if Linear1D_Col.skip_bias_add self then product
             else radd product (nth j b rzero)
         | None => product
         end)
    (seq 0 (length (t_rows (Linear1D_Col.weight self)))).

Definition local_output (self : Linear1D_Col.Layer R) (x : Tensor R) : Tensor R :=
  {| t_width := length (t_rows (Linear1D_Col.weight self));
     t_rows := map (local_row self) (t_rows x) |}.

(** The local outputs of the ranks joined along the last dimension, in
    rank order: the row for [xr] is the ranks' rows for [xr], one after
    the other. *)
Definition gathered_output (x : Tensor R) (layers : list (Linear1D_Col.Layer R))
  : Tensor R :=
  {| t_width :=
       list_sum (map (fun l => length (t_rows (Linear1D_Col.weight l))) layers);
     t_rows :=
       map (fun xr => concat (map (fun l => local_row l xr) layers)) (t_rows x) |}.

End Vocabulary.

Arguments Rank R : clear implicits.
Arguments ColRank R : clear implicits.
Arguments Block R : clear implicits.

(** ** Vocabulary of the UniEval properties *)

(** The task names [add_question] knows. *)
Definition known_tasks : list string :=
  ["summarization"; "dialogue"; "data2text"; "fact"].

Definition unknown_task (task : option string) : Prop :=
  forall name, In name known_tasks -> task <> Some name.

(** What [add_question] does on a non-empty list when its first
    iteration raises [e]; an empty list goes through no iteration. *)
Definition raises_unless_empty (output : list string) (e : UniEval.PyError)
  : UniEval.Result (list string) :=
  match output with
  | [] => inr []
  | _ :: _ => inl e
  end.

(** The questions that are asked of the output alone: task, dimension
    and the text put before the output. *)
Definition output_questions : list (string * string * string) :=
  [("summarization", "fluency",
    "question: Is this a fluent paragraph? </s> paragraph: ");
   ("dialogue", "naturalness",
    "question: Is this a natural response in the dialogue? </s> response: ");
   ("dialogue", "understandability",
    "question: Is this an understandable response in the dialogue? </s> response: ");
   ("data2text", "naturalness",
    "question: Is this a fluent utterance? </s> utterance: ")].

(** The questions that are asked of the output and the source: task,
    dimension, the text before the output and the text between the
    two. *)
Definition source_questions : list (string * string * string * string) :=
  [("summarization", "coherence",
    "question: Is this a coherent summary to the document? </s> summary: ",
    " </s> document: ");
   ("summarization", "consistency",
    "question: Is this claim consistent with the document? </s> claim: ",
    " </s> document: ");
   ("dialogue", "coherence",
    "question: Is this a coherent response given the dialogue history? </s> response: ",
    " </s> dialogue history: ");
   ("fact", "consistency",
    "question: Is this claim consistent with the document? </s> claim: ",
    " </s> document: ")].

(** An optional list has an entry for every index below [n]. *)
Definition covers (n : nat) (xs : option (list string)) : bool :=
  match xs with
  | None => true
  | Some l => n <=? length l
  end.

Definition optional_field (key : string) (xs : option (list string)) (i : nat)
  : UniEval.Dict string :=
  match xs with
  | None => []
  | Some l => [(key, nth i l "")]
  end.

(** The record of index [i]: the output, the source and the reference
    when these lists were passed, and an empty context, in this order. *)
Definition record_at (output_list : list string)
  (src_list ref_list : option (list string)) (i : nat) : UniEval.Dict string :=
  [("system_output", nth i output_list "")]
  ++ optional_field "source" src_list i
  ++ optional_field "reference" ref_list i
  ++ [("context", "")].

(** The same for the indices from [i] on, below [n]; and for the index
    [i] alone. *)
Definition covers_from (n i : nat) (xs : option (list string)) : bool :=
  match xs with
  | None => true
  | Some l => n <=? Nat.max i (length l)
  end.

Definition has_index (i : nat) (xs : option (list string)) : bool :=
  match xs with
  | None => true
  | Some l => i <? length l
  end.

(** What a score adds to the sum of [metric]: its value, when it holds
    the metric. *)
Definition add_value {N : Type} `{UniEval.Number N} (score : UniEval.Dict N)
  (metric : string) (sum : N) : N :=
  match UniEval.get score metric with
  | Some value => UniEval.nadd sum value
  | None => sum
  end.

(** The sum [calculate_average_score] accumulates for [metric]: from the
    integer [0], the values of the scores that hold the metric, added in
    the order of the scores. *)
Definition total {N : Type} `{UniEval.Number N} (metric : string)
  (scores : list (UniEval.Dict N)) : N :=
  fold_left (fun sum score => add_value score metric sum) scores UniEval.nzero.

(** The dictionary with the keys [ks], in this order, and the values
    [val]. *)
Definition dict_of {V : Type} (ks : list string) (val : string -> V)
  : UniEval.Dict V :=
  map (fun k => (k, val k)) ks.

(** Every score is a dictionary -- no key twice -- whose metrics are
    metrics of [first]. *)
Definition scores_ok {N : Type} (first : UniEval.Dict N)
  (scores : list (UniEval.Dict N)) : Prop :=
  Forall (fun score =>
            NoDup (UniEval.keys score)
            /\ incl (UniEval.keys score) (UniEval.keys first))
    scores.

Definition mem (k : string) (l : list string) : bool :=
  existsb (String.eqb k) l.

(** * Concrete scenarios *)

(** A process of a three-rank default group, with no device. *)
Definition ex_world : World Z :=
  {| ambient_rng := mkRng 42 0;
     events := [];
     default_group := mkGroup true [0; 1; 2] 0;
     cuda_available := false;
     broadcast_from := fun _ b => inr b |}.

(** Initializers that draw one number each and keep the data. *)
Definition ex_weight_init : WeightInit Z :=
  fun t _ _ s => (mkRng (rng_seed s) (rng_pos s + 1), inr t).

Definition ex_bias_init : BiasInit Z :=
  fun b _ s => (mkRng (rng_seed s) (rng_pos s + 1), inr b).

(** Dense layers: [[out, in] = [2, 2]], and [[out, in] = [10, 10]]
    without a bias. *)
Definition ex_dense_small : Linear Z :=
  {| lin_in_features := 2;
     lin_out_features := 2;
     lin_weight := mkWeightParam (mkTensor 2 [[1; 0]; [0; 1]]%Z) false;
     lin_bias := Some (mkBiasParam [5; 7]%Z false) |}.

Definition ex_dense_ten : Linear Z :=
  {| lin_in_features := 10;
     lin_out_features := 10;
     lin_weight := mkWeightParam (torch_empty 10 10) false;
     lin_bias := None |}.

Definition ex_col_kwargs : Linear1D_Col.Kwargs Z :=
  {| Linear1D_Col.kw_gather_output := None;
     Linear1D_Col.kw_skip_bias_add := None;
     Linear1D_Col.kw_weight_initializer := ex_weight_init;
     Linear1D_Col.kw_bias_initializer := ex_bias_init |}.

Definition ex_row_kwargs : Linear1D_Row.Kwargs Z :=
  {| Linear1D_Row.kw_parallel_input := None;
     Linear1D_Row.kw_skip_bias_add := None;
     Linear1D_Row.kw_weight_initializer := ex_weight_init;
     Linear1D_Row.kw_bias_initializer := ex_bias_init;
     Linear1D_Row.kw_stream_chunk_num := None |}.

(** A row-parallel layer whose weight is still to be initialised. *)
Definition ex_row_fresh : Linear1D_Row.Layer Z :=
  {| Linear1D_Row.in_features := 2;
     Linear1D_Row.out_features := 2;
     Linear1D_Row.parallel_input := true;
     Linear1D_Row.skip_bias_add := false;
     Linear1D_Row.process_group := mkGroup true [0; 1; 2] 0;
     Linear1D_Row.num_partitions := 3;
     Linear1D_Row.stream_chunk_num := 1;
     Linear1D_Row.randomizer := create_randomizer_with_offset 42 (mkGroup true [0; 1; 2] 0);
     Linear1D_Row.weight := torch_empty 2 2;
     Linear1D_Row.weight_list := [];
     Linear1D_Row.bias := None;
     Linear1D_Row.training := true |}.

(** A two-rank group seen from rank [i], and row-parallel layers on it:
    weight shard [[4, 2]], four chunks. *)
Definition ex_pair (i : nat) : ProcessGroup := mkGroup false [0; 1] i.

Definition ex_row_layer (i : nat) (parallel_input training : bool)
  (stream_chunk_num : Z) (w : Tensor Z) : Linear1D_Row.Layer Z :=
  Linear1D_Row.chunk_weight
    {| Linear1D_Row.in_features := 4;
       Linear1D_Row.out_features := length (t_rows w);
       Linear1D_Row.parallel_input := parallel_input;
       Linear1D_Row.skip_bias_add := false;
       Linear1D_Row.process_group := ex_pair i;
       Linear1D_Row.num_partitions := 2;
       Linear1D_Row.stream_chunk_num := stream_chunk_num;
       Linear1D_Row.randomizer := create_randomizer_with_offset 42 (ex_pair i);
       Linear1D_Row.weight := w;
       Linear1D_Row.weight_list := [];
       Linear1D_Row.bias := Some (repeat 100%Z (length (t_rows w)));
       Linear1D_Row.training := training |}.

Definition ex_weight_4x2 : Tensor Z :=
  mkTensor 2 [[1; 2]; [3; 4]; [5; 6]; [7; 8]]%Z.

(** Column-parallel layers on the two-rank group. *)
Definition ex_col_layer (i : nat) (gather_output skip_bias_add : bool)
  (w : Tensor Z) (b : option (list Z)) : Linear1D_Col.Layer Z :=
  {| Linear1D_Col.in_features := t_width w;
     Linear1D_Col.out_features := 2 * length (t_rows w);
     Linear1D_Col.gather_output := gather_output;
     Linear1D_Col.skip_bias_add := skip_bias_add;
     Linear1D_Col.process_group := ex_pair i;
     Linear1D_Col.randomizer := create_randomizer_with_offset 42 (ex_pair i);
     Linear1D_Col.weight := w;
     Linear1D_Col.bias := b |}.

Definition ex_weight_2x2 : Tensor Z := mkTensor 2 [[1; 0]; [0; 1]]%Z.

(** A row-parallel layer built from a dense [[2, 4]] weight on the
    two-rank default group, with [parallel_input] left out. *)
Definition ex_world_pair : World Z :=
  {| ambient_rng := mkRng 42 0;
     events := [];
     default_group := mkGroup true [0; 1] 0;
     cuda_available := false;
     broadcast_from := fun _ b => inr b |}.

Definition ex_row_args : Linear1D_Row.Args Z :=
  {| Linear1D_Row.arg_in_features := 4;
     Linear1D_Row.arg_out_features := 2;
     Linear1D_Row.arg_bias := Some false;
     Linear1D_Row.arg_process_group := None;
     Linear1D_Row.arg_parallel_input := None;
     Linear1D_Row.arg_skip_bias_add := None;
     Linear1D_Row.arg_weight :=
       Some (mkWeightParam (mkTensor 4 [[1; 2; 3; 4]; [5; 6; 7; 8]]%Z) false);
     Linear1D_Row.arg_bias_ := None;
     Linear1D_Row.arg_weight_initializer := ex_weight_init;
     Linear1D_Row.arg_bias_initializer := ex_bias_init;
     Linear1D_Row.arg_stream_chunk_num := None |}.

Definition ex_row_built : Linear1D_Row.Layer Z :=
  {| Linear1D_Row.in_features := 4;
     Linear1D_Row.out_features := 2;
     Linear1D_Row.parallel_input := true;
     Linear1D_Row.skip_bias_add := false;
     Linear1D_Row.process_group := mkGroup true [0; 1] 0;
     Linear1D_Row.num_partitions := 2;
     Linear1D_Row.stream_chunk_num := 1;
     Linear1D_Row.randomizer := mkRandomizer (mkRng 42 0);
     Linear1D_Row.weight := mkTensor 2 [[1; 2]; [5; 6]]%Z;
     Linear1D_Row.weight_list := [];
     Linear1D_Row.bias := None;
     Linear1D_Row.training := true |}.

Definition ex_weight_4x2_b : Tensor Z :=
  mkTensor 2 [[1; 0]; [0; 1]; [1; 1]; [2; 2]]%Z.

(** Two ranks in standard mode, each with its shard [[1, 2]] of the
    input. *)
Definition ex_rank0 : (Rank Z) :=
  (ex_row_layer 0 true false 1 ex_weight_4x2, mkTensor 2 [[1; 1]]%Z).

Definition ex_rank1 : (Rank Z) :=
  (ex_row_layer 1 true false 1 ex_weight_4x2_b, mkTensor 2 [[2; 3]]%Z).

Definition ex_weight_7x2 : Tensor Z :=
  mkTensor 2 [[1; 2]; [3; 4]; [5; 6]; [7; 8]; [9; 10]; [11; 12]; [13; 14]]%Z.

Definition ex_weight_7x2_b : Tensor Z :=
  mkTensor 2 [[1; 0]; [0; 1]; [1; 1]; [2; 2]; [0; 0]; [1; 2]; [2; 1]]%Z.

(** Two ranks in eval mode with four chunks: seven output rows are cut
    into blocks of 2, 2, 2 and 1 rows. *)
Definition ex_chunked0 : (Rank Z) :=
  (ex_row_layer 0 true false 4 ex_weight_7x2, mkTensor 2 [[1; 1]]%Z).

Definition ex_chunked1 : (Rank Z) :=
  (ex_row_layer 1 true false 4 ex_weight_7x2_b, mkTensor 2 [[2; 3]]%Z).

Definition ex_weight_5x2 : Tensor Z :=
  mkTensor 2 [[1; 2]; [3; 4]; [5; 6]; [7; 8]; [9; 10]]%Z.

Definition ex_weight_5x2_b : Tensor Z :=
  mkTensor 2 [[1; 0]; [0; 1]; [1; 1]; [2; 2]; [0; 0]]%Z.

(** The same with five output rows: [torch.chunk] returns three blocks
    (2, 2 and 1 rows) for the four chunks asked. *)
Definition ex_short0 : (Rank Z) :=
  (ex_row_layer 0 true false 4 ex_weight_5x2, mkTensor 2 [[1; 1]]%Z).

Definition ex_short1 : (Rank Z) :=
  (ex_row_layer 1 true false 4 ex_weight_5x2_b, mkTensor 2 [[2; 3]]%Z).

Definition ex_identity_4 : Tensor Z :=
  mkTensor 4 [[1; 0; 0; 0]; [0; 1; 0; 0]; [0; 0; 1; 0]; [0; 0; 0; 1]]%Z.

(** [out_features = 8], [in_features = 4], two ranks, each holding an
    identity block of the weight, on the input [[1, 2, 3, 4]]. *)
Definition ex_col0 : (ColRank Z) :=
  (ex_col_layer 0 true false ex_identity_4 None, mkTensor 4 [[1; 2; 3; 4]]%Z).

Definition ex_col1 : (ColRank Z) :=
  (ex_col_layer 1 true false ex_identity_4 None, mkTensor 4 [[1; 2; 3; 4]]%Z).

(** Two column-parallel ranks with [gather_output], each with a [[2, 2]]
    weight shard and a bias shard of two entries, on one input. *)
Definition ex_weight_2x2_b : Tensor Z := mkTensor 2 [[1; 1]; [2; 0]]%Z.

Definition ex_gather0 : (ColRank Z) :=
  (ex_col_layer 0 true false ex_weight_2x2 (Some [10; 20]%Z), mkTensor 2 [[3; 4]]%Z).

Definition ex_gather1 : (ColRank Z) :=
  (ex_col_layer 1 true false ex_weight_2x2_b (Some [30; 40]%Z), mkTensor 2 [[3; 4]]%Z).

(** Two ranks that each hold a column-parallel layer without gather and a
    row-parallel layer in standard mode on its local output. *)
Definition ex_block0 : Block Z :=
  (ex_col_layer 0 false false ex_weight_2x2 (Some [10; 20]%Z),
   ex_row_layer 0 true false 1 ex_weight_4x2).

Definition ex_block1 : Block Z :=
  (ex_col_layer 1 false false ex_weight_2x2_b (Some [30; 40]%Z),
   ex_row_layer 1 true false 1 ex_weight_4x2_b).

(** The same construction with two chunks, and with the bias left to the
    caller. *)
Definition ex_row_args_chunked : Linear1D_Row.Args Z :=
  {| Linear1D_Row.arg_in_features := 4;
     Linear1D_Row.arg_out_features := 2;
     Linear1D_Row.arg_bias := Some true;
     Linear1D_Row.arg_process_group := None;
     Linear1D_Row.arg_parallel_input := None;
     Linear1D_Row.arg_skip_bias_add := Some true;
     Linear1D_Row.arg_weight :=
       Some (mkWeightParam (mkTensor 4 [[1; 2; 3; 4]; [5; 6; 7; 8]]%Z) false);
     Linear1D_Row.arg_bias_ := Some (mkBiasParam [5; 7]%Z false);
     Linear1D_Row.arg_weight_initializer := ex_weight_init;
     Linear1D_Row.arg_bias_initializer := ex_bias_init;
     Linear1D_Row.arg_stream_chunk_num := Some 2%Z |}.

Definition ex_row_chunked_built : Linear1D_Row.Layer Z :=
  {| Linear1D_Row.in_features := 4;
     Linear1D_Row.out_features := 2;
     Linear1D_Row.parallel_input := true;
     Linear1D_Row.skip_bias_add := true;
     Linear1D_Row.process_group := mkGroup true [0; 1] 0;
     Linear1D_Row.num_partitions := 2;
     Linear1D_Row.stream_chunk_num := 2;
     Linear1D_Row.randomizer := mkRandomizer (mkRng 42 0);
     Linear1D_Row.weight := mkTensor 2 [[1; 2]; [5; 6]]%Z;
     Linear1D_Row.weight_list := [mkTensor 2 [[1; 2]]%Z; mkTensor 2 [[5; 6]]%Z];
     Linear1D_Row.bias := Some [5; 7]%Z;
     Linear1D_Row.training := true |}.

(** A dense layer [[out, in] = [4, 2]] with a bias, and the keyword
    arguments of a conversion that asks for the gathered output. *)
Definition ex_dense_4x2 : Linear Z :=
  {| lin_in_features := 2;
     lin_out_features := 4;
     lin_weight := mkWeightParam (mkTensor 2 [[1; 0]; [0; 1]; [1; 1]; [2; 0]]%Z) false;
     lin_bias := Some (mkBiasParam [10; 20; 30; 40]%Z false) |}.

Definition ex_gather_kwargs : Linear1D_Col.Kwargs Z :=
  {| Linear1D_Col.kw_gather_output := Some true;
     Linear1D_Col.kw_skip_bias_add := None;
     Linear1D_Col.kw_weight_initializer := ex_weight_init;
     Linear1D_Col.kw_bias_initializer := ex_bias_init |}.

(** A dense layer [[out, in] = [2, 4]] with a bias, converted for a
    replicated input, and what the two ranks obtain. *)
Definition ex_dense_2x4 : Linear Z :=
  {| lin_in_features := 4;
     lin_out_features := 2;
     lin_weight := mkWeightParam (mkTensor 4 [[1; 2; 3; 4]; [5; 6; 7; 8]]%Z) false;
     lin_bias := Some (mkBiasParam [5; 7]%Z false) |}.

Definition ex_replicated_kwargs : Linear1D_Row.Kwargs Z :=
  {| Linear1D_Row.kw_parallel_input := Some false;
     Linear1D_Row.kw_skip_bias_add := None;
     Linear1D_Row.kw_weight_initializer := ex_weight_init;
     Linear1D_Row.kw_bias_initializer := ex_bias_init;
     Linear1D_Row.kw_stream_chunk_num := None |}.

Definition ex_row_converted (i : nat) (w : Tensor Z) : Linear1D_Row.Layer Z :=
  {| Linear1D_Row.in_features := 4;
     Linear1D_Row.out_features := 2;
     Linear1D_Row.parallel_input := false;
     Linear1D_Row.skip_bias_add := false;
     Linear1D_Row.process_group := ex_pair i;
     Linear1D_Row.num_partitions := 2;
     Linear1D_Row.stream_chunk_num := 1;
     Linear1D_Row.randomizer := create_randomizer_with_offset 42 (ex_pair i);
     Linear1D_Row.weight := w;
     Linear1D_Row.weight_list := [];
     Linear1D_Row.bias := Some [5; 7]%Z;
     Linear1D_Row.training := true |}.

(** Numbers as the formulas that compute them: what
    [calculate_average_score] returns then shows every operation it
    performed, in order. *)
Inductive Formula : Type :=
| Int0
| Value (z : Z)
| Plus (a b : Formula)
| Over (a : Formula) (n : nat).

#[export] Instance Formula_Number : UniEval.Number Formula :=
  {| UniEval.nzero := Int0; UniEval.nadd := Plus; UniEval.ndiv := Over |}.

(** Two scores; the second lacks the metric ["fluency"]. *)
Definition ex_scores : list (UniEval.Dict Formula) :=
  [[("coherence", Value 1); ("fluency", Value 2)];
   [("coherence", Value 3)]].

(** Column-parallel layers on the two-rank group with weight shards that
    are not the identity and with bias shards. *)
Definition ex_weight_2x2_c : Tensor Z := mkTensor 2 [[1; 2]; [0; 1]]%Z.

Definition ex_col_pair (gather_output skip_bias_add : bool)
  : list (Linear1D_Col.Layer Z) :=
  [ex_col_layer 0 gather_output skip_bias_add ex_weight_2x2_c (Some [10; 20]%Z);
   ex_col_layer 1 gather_output skip_bias_add ex_weight_2x2_b (Some [30; 40]%Z)].

(** Constructions with [skip_bias_add] from a dense weight and bias on
    the two-rank default group, and the layers rank 0 obtains. *)
Definition ex_col_args_skip : Linear1D_Col.Args Z :=
  {| Linear1D_Col.arg_in_features := 2;
     Linear1D_Col.arg_out_features := 4;
     Linear1D_Col.arg_bias := Some true;
     Linear1D_Col.arg_process_group := None;
     Linear1D_Col.arg_gather_output := Some false;
     Linear1D_Col.arg_skip_bias_add := Some true;
     Linear1D_Col.arg_weight :=
       Some (mkWeightParam (mkTensor 2 [[1; 2]; [0; 1]; [1; 1]; [2; 0]]%Z) false);
     Linear1D_Col.arg_bias_ := Some (mkBiasParam [10; 20; 30; 40]%Z false);
     Linear1D_Col.arg_weight_initializer := ex_weight_init;
     Linear1D_Col.arg_bias_initializer := ex_bias_init |}.

Definition ex_col_skip_built : Linear1D_Col.Layer Z :=
  {| Linear1D_Col.in_features := 2;
     Linear1D_Col.out_features := 4;
     Linear1D_Col.gather_output := false;
     Linear1D_Col.skip_bias_add := true;
     Linear1D_Col.process_group := mkGroup true [0; 1] 0;
     Linear1D_Col.randomizer := mkRandomizer (mkRng 42 0);
     Linear1D_Col.weight := mkTensor 2 [[1; 2]; [0; 1]]%Z;
     Linear1D_Col.bias := Some [10; 20]%Z |}.

Definition ex_row_args_skip : Linear1D_Row.Args Z :=
  {| Linear1D_Row.arg_in_features := 4;
     Linear1D_Row.arg_out_features := 2;
     Linear1D_Row.arg_bias := Some true;
     Linear1D_Row.arg_process_group := None;
     Linear1D_Row.arg_parallel_input := None;
     Linear1D_Row.arg_skip_bias_add := Some true;
     Linear1D_Row.arg_weight :=
       Some (mkWeightParam (mkTensor 4 [[1; 2; 3; 4]; [5; 6; 7; 8]]%Z) false);
     Linear1D_Row.arg_bias_ := Some (mkBiasParam [5; 7]%Z false);
     Linear1D_Row.arg_weight_initializer := ex_weight_init;
     Linear1D_Row.arg_bias_initializer := ex_bias_init;
     Linear1D_Row.arg_stream_chunk_num := None |}.

Definition ex_row_skip_built : Linear1D_Row.Layer Z :=
  {| Linear1D_Row.in_features := 4;
     Linear1D_Row.out_features := 2;
     Linear1D_Row.parallel_input := true;
     Linear1D_Row.skip_bias_add := true;
     Linear1D_Row.process_group := mkGroup true [0; 1] 0;
     Linear1D_Row.num_partitions := 2;
     Linear1D_Row.stream_chunk_num := 1;
     Linear1D_Row.randomizer := mkRandomizer (mkRng 42 0);
     Linear1D_Row.weight := mkTensor 2 [[1; 2]; [5; 6]]%Z;
     Linear1D_Row.weight_list := [];
     Linear1D_Row.bias := Some [5; 7]%Z;
     Linear1D_Row.training := true |}.

(** * Properties *)

(** ** Diagnostics *)

Lemma string_app_assoc (a b c : string) :
  ((a ++ b) ++ c = a ++ b ++ c)%string.
Proof.
  induction a as [|ch a IH]; cbn; [reflexivity | now rewrite IH].
Qed.

Lemma names_here (pre s post : string) : names (pre ++ s ++ post)%string s.
Proof.
  now exists pre, post.
Qed.

Lemma names_after (pre msg s : string) : names msg s -> names (pre ++ msg)%string s.
Proof.
  intros (a & b & ->). exists (pre ++ a)%string, b.
  now rewrite string_app_assoc.
Qed.

Ltac names_tac := repeat (first [ apply names_here | apply names_after ]).

(** ** Conversion of a dense layer *)

Lemma single_group_one {R : Type} (arg : GroupArg) (pg : option ProcessGroup)
  (w : World R) :
  passes_one arg pg -> single_group arg w = (w, inr pg).
Proof.
  intros [-> | ->]; reflexivity.
Qed.

(** C3: when the feature count the layout shards ([out_features] for the
    column layout, [in_features] for the row layout) is strictly smaller
    than the world size of the group, [from_native_module] returns the
    dense module it was given, raises nothing and builds no parallel
    layer; the process is left as it was. *)
Theorem from_native_module_small_returns_dense
  {R : Type} `{Scalar R} (module : Linear R) (arg : GroupArg)
  (pg : option ProcessGroup) (w : World R)
  (Hone : passes_one arg pg) :
  (forall kwargs,
      lin_out_features module < get_world_size (group_of w pg) ->
      Linear1D_Col.from_native_module module arg kwargs w
      = (w, inr (Native module)))
  /\
  (forall kwargs,
      lin_in_features module < get_world_size (group_of w pg) ->
      Linear1D_Row.from_native_module module arg kwargs w
      = (w, inr (Native module))).
Proof.
  split; intros kwargs Hlt.
  - unfold Linear1D_Col.from_native_module, mbind.
    rewrite (single_group_one arg pg w Hone).
    cbv beta iota delta [resolve_group].
    apply Nat.ltb_lt in Hlt. unfold group_of in Hlt. now rewrite Hlt.
  - unfold Linear1D_Row.from_native_module, mbind.
    rewrite (single_group_one arg pg w Hone).
    cbv beta iota delta [resolve_group].
    apply Nat.ltb_lt in Hlt. unfold group_of in Hlt. now rewrite Hlt.
Qed.

Lemma from_native_module_small_returns_dense_witness :
  Linear1D_Col.from_native_module ex_dense_small (OneGroup None) ex_col_kwargs ex_world
  = (ex_world, inr (Native ex_dense_small))
  /\ Linear1D_Row.from_native_module ex_dense_small (GroupList [None]) ex_row_kwargs ex_world
     = (ex_world, inr (Native ex_dense_small)).
Proof.
  split.
  - apply (from_native_module_small_returns_dense ex_dense_small (OneGroup None) None
             ex_world (or_introl eq_refl)).
    cbn. lia.
  - apply (from_native_module_small_returns_dense ex_dense_small (GroupList [None]) None
             ex_world (or_intror eq_refl)).
    cbn. lia.
Defined.

(** C4: when the sharded feature count is at least the world size and
    not a multiple of it, [from_native_module] raises a [ValueError] whose
    message carries both numbers; no layer is built and the process is
    left as it was. *)
Theorem from_native_module_indivisible_raises
  {R : Type} `{Scalar R} (module : Linear R) (arg : GroupArg)
  (pg : option ProcessGroup) (w : World R)
  (Hone : passes_one arg pg)
  (Hpos : 0 < get_world_size (group_of w pg)) :
  (forall kwargs,
      get_world_size (group_of w pg) <= lin_out_features module ->
      lin_out_features module mod get_world_size (group_of w pg) <> 0 ->
      exists msg,
        Linear1D_Col.from_native_module module arg kwargs w
        = (w, inl (ValueError msg))
        /\ names msg (show_nat (lin_out_features module))
        /\ names msg (show_nat (get_world_size (group_of w pg))))
  /\
  (forall kwargs,
      get_world_size (group_of w pg) <= lin_in_features module ->
      lin_in_features module mod get_world_size (group_of w pg) <> 0 ->
      exists msg,
        Linear1D_Row.from_native_module module arg kwargs w
        = (w, inl (ValueError msg))
        /\ names msg (show_nat (lin_in_features module))
        /\ names msg (show_nat (get_world_size (group_of w pg)))).
Proof.
  unfold group_of in *.
  split; intros kwargs Hle Hmod.
  - exists (Linear1D_Col.divisibility_message (lin_out_features module)
              (get_world_size (group_of w pg))).
    unfold group_of. split; [|split].
    + unfold Linear1D_Col.from_native_module, mbind.
      rewrite (single_group_one arg pg w Hone).
      cbv beta iota delta [resolve_group].
      apply Nat.ltb_ge in Hle. rewrite Hle.
      apply Nat.eqb_neq in Hmod. rewrite Hmod.
      destruct (Nat.eqb_spec (get_world_size match pg with Some g => g | None => default_group w end) 0);
        [lia | reflexivity].
    + unfold Linear1D_Col.divisibility_message. names_tac.
    + unfold Linear1D_Col.divisibility_message. names_tac.
  - exists (Linear1D_Row.divisibility_message (lin_in_features module)
              (get_world_size (group_of w pg))).
    unfold group_of. split; [|split].
    + unfold Linear1D_Row.from_native_module, mbind.
      rewrite (single_group_one arg pg w Hone).
      cbv beta iota delta [resolve_group].
      apply Nat.ltb_ge in Hle. rewrite Hle.
      apply Nat.eqb_neq in Hmod. rewrite Hmod.
      destruct (Nat.eqb_spec (get_world_size match pg with Some g => g | None => default_group w end) 0);
        [lia | reflexivity].
    + unfold Linear1D_Row.divisibility_message. names_tac.
    + unfold Linear1D_Row.divisibility_message. names_tac.
Qed.

Lemma from_native_module_indivisible_raises_witness :
  (exists msg,
      Linear1D_Col.from_native_module ex_dense_ten (OneGroup None) ex_col_kwargs ex_world
      = (ex_world, inl (ValueError msg))
      /\ names msg "10" /\ names msg "3")
  /\
  (exists msg,
      Linear1D_Row.from_native_module ex_dense_ten (OneGroup None) ex_row_kwargs ex_world
      = (ex_world, inl (ValueError msg))
      /\ names msg "10" /\ names msg "3").
Proof.
  assert (Hpos : 0 < get_world_size (group_of ex_world None)) by (cbn; lia).
  destruct (from_native_module_indivisible_raises ex_dense_ten (OneGroup None) None
              ex_world (or_introl eq_refl) Hpos) as [Hcol Hrow].
  split.
  - apply Hcol; cbn; [lia | discriminate].
  - apply Hrow; cbn; [lia | discriminate].
Defined.

(** ** Construction *)

(** C6: a constructor called with [skip_bias_add=True] and [bias=False]
    raises the [ValueError] at once: the process it leaves is the one it
    found, so nothing was allocated, sharded or sent. *)
Theorem init_rejects_skip_bias_without_bias {R : Type} `{Scalar R} (w : World R) :
  (forall a : Linear1D_Col.Args R,
      Linear1D_Col.arg_skip_bias_add a = Some true ->
      Linear1D_Col.arg_bias a = Some false ->
      Linear1D_Col.__init__ a w
      = (w, inl (ValueError "cannot skip bias addition if bias is None")))
  /\
  (forall a : Linear1D_Row.Args R,
      Linear1D_Row.arg_skip_bias_add a = Some true ->
      Linear1D_Row.arg_bias a = Some false ->
      Linear1D_Row.__init__ a w
      = (w, inl (ValueError "cannot skip bias addition if bias is None"))).
Proof.
  split; intros a Hskip Hbias.
  - unfold Linear1D_Col.__init__, mbind, resolve_group.
    rewrite Hskip, Hbias. reflexivity.
  - unfold Linear1D_Row.__init__, mbind, resolve_group.
    rewrite Hskip, Hbias. reflexivity.
Qed.

Lemma init_rejects_skip_bias_without_bias_witness :
  Linear1D_Col.__init__
    (Linear1D_Col.mkArgs 4 8 (Some false) None None (Some true) None None
       ex_weight_init ex_bias_init) ex_world
  = (ex_world, inl (ValueError "cannot skip bias addition if bias is None"))
  /\
  Linear1D_Row.__init__
    (Linear1D_Row.mkArgs 4 8 (Some false) None None (Some true) None None
       ex_weight_init ex_bias_init None) ex_world
  = (ex_world, inl (ValueError "cannot skip bias addition if bias is None")).
Proof.
  split.
  - apply (proj1 (init_rejects_skip_bias_without_bias ex_world)); reflexivity.
  - apply (proj2 (init_rejects_skip_bias_without_bias ex_world)); reflexivity.
Defined.

(** *** The ambient generator *)

Section KeepsRng.
Context {R : Type} `{Scalar R}.

Lemma keeps_rng_mret {A : Type} (a : A) : keeps_rng (R := R) (mret a).
Proof. now intros w. Qed.

Lemma keeps_rng_mraise {A : Type} (e : Exn) : keeps_rng (R := R) (A := A) (mraise e).
Proof. now intros w. Qed.

Lemma keeps_rng_emit (ev : Event) : keeps_rng (R := R) (emit ev).
Proof. now intros w. Qed.

Lemma keeps_rng_massert (c : bool) (msg : string) : keeps_rng (R := R) (massert c msg).
Proof. now destruct c; intros w. Qed.

Lemma keeps_rng_initial_seed : keeps_rng (R := R) initial_seed.
Proof. now intros w. Qed.

Lemma keeps_rng_resolve_group (pg : option ProcessGroup) :
  keeps_rng (R := R) (resolve_group pg).
Proof. now intros w. Qed.

Lemma keeps_rng_mbind {A B : Type} (m : M R A) (f : A -> M R B) :
  keeps_rng m -> (forall a, keeps_rng (f a)) -> keeps_rng (mbind m f).
Proof.
  intros Hm Hf w. unfold mbind. specialize (Hm w).
  destruct (m w) as [w' [e | a]]; cbn in *; [assumption|].
  now rewrite Hf.
Qed.

(** Whatever the block does to the generator, and however it ends, the
    state saved on entry is back on exit. *)
Lemma keeps_rng_fork_rng {A : Type} (r : Randomizer) (body : M R A) :
  keeps_rng (fork_rng r body).
Proof.
  intros w. unfold fork_rng.
  now destruct (body (set_rng w (rand_state r))) as [w' res].
Qed.

End KeepsRng.

Ltac keeps_rng_tac :=
  repeat first
    [ apply keeps_rng_mret
    | apply keeps_rng_mraise
    | apply keeps_rng_emit
    | apply keeps_rng_massert
    | apply keeps_rng_initial_seed
    | apply keeps_rng_resolve_group
    | apply keeps_rng_fork_rng
    | apply keeps_rng_mbind; [| intros ? ]
    | match goal with
      | |- keeps_rng (match ?x with _ => _ end) => destruct x
      end
    | progress cbv zeta ].

Lemma col_init_keeps_rng {R : Type} `{Scalar R} (a : Linear1D_Col.Args R) :
  keeps_rng (Linear1D_Col.__init__ a).
Proof.
  unfold Linear1D_Col.__init__, Linear1D_Col.reset_parameters. keeps_rng_tac.
Qed.

Lemma row_init_keeps_rng {R : Type} `{Scalar R} (a : Linear1D_Row.Args R) :
  keeps_rng (Linear1D_Row.__init__ a).
Proof.
  unfold Linear1D_Row.__init__. keeps_rng_tac.
Qed.

(** [Linear1D_Row.reset_parameters] holds no [fork_rng] block of its
    own: called outside one, the initializer it runs advances the ambient
    generator.  Its only call in the source is the one inside the block
    that [Linear1D_Row.__init__] opens. *)
Lemma row_reset_parameters_advances_ambient_rng :
  ambient_rng ex_world = mkRng 42 0
  /\ ambient_rng
       (fst (Linear1D_Row.reset_parameters ex_row_fresh ex_weight_init ex_bias_init
               ex_world))
     = mkRng 42 1.
Proof.
  split; reflexivity.
Qed.

(** C9: every invocation of the parameter initialisation runs inside a
    [fork_rng] block -- the one [Linear1D_Col.reset_parameters] opens
    around its own body, and the one [Linear1D_Row.__init__] opens around
    its call of [Linear1D_Row.reset_parameters], the only call there is
    -- so the ambient generator state after the initialisation is the
    state before it, on a normal return and on an exception alike: after
    [Linear1D_Col.reset_parameters], after the scoped call of
    [Linear1D_Row.reset_parameters], and after either constructor. *)
Theorem initialisation_restores_ambient_rng {R : Type} `{Scalar R} (w : World R) :
  (forall self weight_initializer bias_initializer,
      ambient_rng
        (fst (Linear1D_Col.reset_parameters self weight_initializer
                bias_initializer w))
      = ambient_rng w)
  /\ (forall self weight_initializer bias_initializer,
         ambient_rng
           (fst (fork_rng (Linear1D_Row.randomizer self)
                   (Linear1D_Row.reset_parameters self weight_initializer
                      bias_initializer) w))
         = ambient_rng w)
  /\ (forall a, ambient_rng (fst (Linear1D_Col.__init__ a w)) = ambient_rng w)
  /\ (forall a, ambient_rng (fst (Linear1D_Row.__init__ a w)) = ambient_rng w).
Proof.
  split; [|split; [|split]].
  - intros self wi bi. apply keeps_rng_fork_rng.
  - intros self wi bi. apply keeps_rng_fork_rng.
  - intros a. apply col_init_keeps_rng.
  - intros a. apply row_init_keeps_rng.
Qed.

(** Two constructions that do initialise: a row-parallel layer without
    bias, which returns, and one with a bias on a process without a
    device, which raises after both initializers have drawn. *)
Lemma initialisation_restores_ambient_rng_witness :
  (events
     (fst (Linear1D_Row.__init__
             (Linear1D_Row.mkArgs 2 2 (Some false) None None None None None
                ex_weight_init ex_bias_init None) ex_world))
   = [Shard [2; 2]; Allocate [2; 2]]
   /\ ambient_rng
        (fst (Linear1D_Row.__init__
                (Linear1D_Row.mkArgs 2 2 (Some false) None None None None None
                   ex_weight_init ex_bias_init None) ex_world))
      = mkRng 42 0)
  /\
  (snd (Linear1D_Row.__init__
          (Linear1D_Row.mkArgs 2 2 (Some true) None None None None None
             ex_weight_init ex_bias_init None) ex_world)
   = inl (RuntimeError "No CUDA GPUs are available")
   /\ ambient_rng
        (fst (Linear1D_Row.__init__
                (Linear1D_Row.mkArgs 2 2 (Some true) None None None None None
                   ex_weight_init ex_bias_init None) ex_world))
      = mkRng 42 0).
Proof.
  pose proof (proj2 (proj2 (proj2 (initialisation_restores_ambient_rng ex_world))))
    as Hrow.
  split; (split; [reflexivity | apply Hrow]).
Defined.

(** *** What a constructor returns *)

Section Returns.
Context {R : Type} `{Scalar R}.

Lemma returns_mret {A : Type} (P : A -> Prop) (a : A) :
  P a -> returns (R := R) P (mret a).
Proof.
  intros HP w w' a' Heq. now inversion Heq; subst.
Qed.

Lemma returns_mraise {A : Type} (P : A -> Prop) (e : Exn) :
  returns (R := R) P (mraise e).
Proof.
  intros w w' a Heq. discriminate Heq.
Qed.

Lemma returns_mbind {A B : Type} (P : B -> Prop) (m : M R A) (f : A -> M R B) :
  (forall a, returns P (f a)) -> returns P (mbind m f).
Proof.
  intros Hf w w' b. unfold mbind.
  destruct (m w) as [w1 [e | a]]; [discriminate|].
  apply Hf.
Qed.

Lemma returns_fork_rng {A : Type} (P : A -> Prop) (r : Randomizer) (body : M R A) :
  returns P body -> returns P (fork_rng r body).
Proof.
  intros Hb w w' a. unfold fork_rng.
  destruct (body (set_rng w (rand_state r))) as [w1 res] eqn:Hbody.
  intros Heq. inversion Heq; subst. now apply (Hb _ _ _ Hbody).
Qed.

End Returns.

Ltac returns_tac :=
  repeat first
    [ apply returns_mraise
    | apply returns_fork_rng
    | apply returns_mbind; intros ?
    | match goal with
      | |- returns _ (match ?x with _ => _ end) => destruct x
      end
    | progress cbv zeta ].

Lemma row_init_parallel_input {R : Type} `{Scalar R} (a : Linear1D_Row.Args R) :
  returns
    (fun self =>
       Linear1D_Row.parallel_input self
       = default Linear1D_Row.parallel_input_default
           (Linear1D_Row.arg_parallel_input a))
    (Linear1D_Row.__init__ a).
Proof.
  unfold Linear1D_Row.__init__, Linear1D_Row.reset_parameters.
  returns_tac; apply returns_mret;
    repeat match goal with
      | |- context [if ?c then _ else _] => destruct c
      end; reflexivity.
Qed.

(** ** The shape checks of [forward] *)

Section RowChecks.
Context {R : Type} `{Scalar R}.
Variable divide : nat -> nat -> Exc nat.

Lemma row_forward_check_fails (self : Linear1D_Row.Layer R) (input_ : Tensor R)
  (e : Exn) :
  Linear1D_Row.check_input divide self input_ = inl e ->
  Linear1D_Row.forward divide self input_ = Raise e.
Proof.
  intros Hc. unfold Linear1D_Row.forward. now rewrite Hc.
Qed.

Lemma row_forward_check_passes (self : Linear1D_Row.Layer R)
  (input_ x : Tensor R) :
  Linear1D_Row.check_input divide self input_ = inr x ->
  Linear1D_Row.forward divide self input_
  = (output <- Linear1D_Row.reduced_output self x ;;
     Ret (Linear1D_Row.finish self output)).
Proof.
  intros Hc. unfold Linear1D_Row.forward. now rewrite Hc.
Qed.

Lemma row_check_parallel (self : Linear1D_Row.Layer R) (input_ : Tensor R) :
  Linear1D_Row.parallel_input self = true ->
  Linear1D_Row.check_input divide self input_
  = if t_width input_ =? t_width (Linear1D_Row.weight self)
    then inr input_
    else inl (AssertionError
                (Linear1D_Row.shape_message input_ (Linear1D_Row.weight self)
                   (t_width (Linear1D_Row.weight self)))).
Proof.
  intros Hp. unfold Linear1D_Row.check_input. now rewrite Hp.
Qed.

Lemma row_shape_message_names (input_ w : Tensor R) (expected : nat) :
  names (Linear1D_Row.shape_message input_ w expected) (show_shape (shape input_))
  /\ names (Linear1D_Row.shape_message input_ w expected) (show_shape (shape w))
  /\ names (Linear1D_Row.shape_message input_ w expected) (show_nat expected).
Proof.
  unfold Linear1D_Row.shape_message. repeat split; names_tac.
Qed.

Lemma col_shape_message_names (input_ w : Tensor R) (expected : nat) :
  names (Linear1D_Col.shape_message input_ w expected) (show_shape (shape input_))
  /\ names (Linear1D_Col.shape_message input_ w expected) (show_shape (shape w))
  /\ names (Linear1D_Col.shape_message input_ w expected) (show_nat expected).
Proof.
  unfold Linear1D_Col.shape_message. repeat split; names_tac.
Qed.

End RowChecks.

(** C5, as stated, fails on an input whose last dimension is not the
    shard's: the shape assertion, which comes first in [forward], is what
    raises, in training mode and with four chunks. *)
Lemma forward_chunked_training_shape_assertion_first :
  Linear1D_Row.forward Linear1D_Row.divide
    (ex_row_layer 0 true true 4 ex_weight_4x2) (mkTensor 3 [[1; 1; 1]]%Z)
  = Raise
      (AssertionError
         "Invalid shapes in Linear1D_Row forward: input=torch.Size([1, 3]), weight=torch.Size([4, 2]). Expected last dim of input 2.").
Proof.
  reflexivity.
Qed.

(** C5, amended: with [stream_chunk_num > 1] and the layer in training
    mode, [forward] raises the training error -- as a leaf of the
    program, before any chunk is multiplied or any collective issued --
    for every input that passes the shape check; an input that fails the
    check raises the check's own error. *)
Theorem forward_chunked_training_raises {R : Type} `{Scalar R}
  (divide : nat -> nat -> Exc nat) (self : Linear1D_Row.Layer R)
  (input_ : Tensor R)
  (Hchunk : (1 < Linear1D_Row.stream_chunk_num self)%Z)
  (Htraining : Linear1D_Row.training self = true) :
  (forall x,
      Linear1D_Row.check_input divide self input_ = inr x ->
      Linear1D_Row.forward divide self input_
      = Raise (RuntimeError "use stream_chunk_num=1 in Linear1D_Row for training!"))
  /\ (forall e,
         Linear1D_Row.check_input divide self input_ = inl e ->
         Linear1D_Row.forward divide self input_ = Raise e)
  /\ no_collective (Linear1D_Row.forward divide self input_) = true.
Proof.
  assert (Hpass : forall x,
             Linear1D_Row.check_input divide self input_ = inr x ->
             Linear1D_Row.forward divide self input_
             = Raise (RuntimeError Linear1D_Row.training_message)).
  { intros x Hc. rewrite (row_forward_check_passes divide self input_ x Hc).
    unfold Linear1D_Row.reduced_output.
    apply Z.ltb_lt in Hchunk. now rewrite Hchunk, Htraining. }
  split; [exact Hpass | split].
  - apply row_forward_check_fails.
  - destruct (Linear1D_Row.check_input divide self input_) as [e | x] eqn:Hc.
    + now rewrite (row_forward_check_fails divide self input_ e Hc).
    + now rewrite (Hpass x eq_refl).
Qed.

Lemma forward_chunked_training_raises_witness :
  Linear1D_Row.forward Linear1D_Row.divide
    (ex_row_layer 0 true true 4 ex_weight_4x2) (mkTensor 2 [[1; 1]]%Z)
  = Raise (RuntimeError "use stream_chunk_num=1 in Linear1D_Row for training!").
Proof.
  apply (proj1 (forward_chunked_training_raises Linear1D_Row.divide
                  (ex_row_layer 0 true true 4 ex_weight_4x2)
                  (mkTensor 2 [[1; 1]]%Z) eq_refl eq_refl)
           (mkTensor 2 [[1; 1]]%Z)).
  reflexivity.
Defined.

(** C8, as stated, fails for a replicated input whose width the world
    size does not divide: width 5 against the expected [2 * 2], and the
    error is the one of [divide], which names neither shape. *)
Lemma forward_replicated_indivisible_width :
  Linear1D_Row.forward Linear1D_Row.divide
    (ex_row_layer 0 false false 1 ex_weight_4x2) (mkTensor 5 [[1; 1; 1; 1; 1]]%Z)
  = Raise (AssertionError "5 is not divisible by 2").
Proof.
  reflexivity.
Qed.

(** C8, amended: a last dimension that differs from the weight shard's
    (column-parallel, and row-parallel with [parallel_input]) makes
    [forward] raise, as a leaf of the program and so without any
    collective, an [AssertionError] that names the input shape, the
    weight shape and the expected width; so does, for a row-parallel
    layer with a replicated input, a quotient of [divide] that differs
    from the shard's width, the expected width being the shard's times
    the world size.  When [divide] itself raises, [forward] raises that
    error. *)
Theorem forward_shape_mismatch_diagnostic {R : Type} `{Scalar R}
  (divide : nat -> nat -> Exc nat) (input_ : Tensor R) :
  (forall self : Linear1D_Col.Layer R,
      t_width input_ <> t_width (Linear1D_Col.weight self) ->
      exists msg,
        Linear1D_Col.forward self input_ = Raise (AssertionError msg)
        /\ names msg (show_shape (shape input_))
        /\ names msg (show_shape (shape (Linear1D_Col.weight self)))
        /\ names msg (show_nat (t_width (Linear1D_Col.weight self))))
  /\
  (forall self : Linear1D_Row.Layer R,
      Linear1D_Row.parallel_input self = true ->
      t_width input_ <> t_width (Linear1D_Row.weight self) ->
      exists msg,
        Linear1D_Row.forward divide self input_ = Raise (AssertionError msg)
        /\ names msg (show_shape (shape input_))
        /\ names msg (show_shape (shape (Linear1D_Row.weight self)))
        /\ names msg (show_nat (t_width (Linear1D_Row.weight self))))
  /\
  (forall (self : Linear1D_Row.Layer R) (q : nat),
      Linear1D_Row.parallel_input self = false ->
      divide (t_width input_) (Linear1D_Row.num_partitions self) = inr q ->
      q <> t_width (Linear1D_Row.weight self) ->
      exists msg,
        Linear1D_Row.forward divide self input_ = Raise (AssertionError msg)
        /\ names msg (show_shape (shape input_))
        /\ names msg (show_shape (shape (Linear1D_Row.weight self)))
        /\ names msg (show_nat (t_width (Linear1D_Row.weight self)
                                * Linear1D_Row.num_partitions self)))
  /\
  (forall (self : Linear1D_Row.Layer R) (e : Exn),
      Linear1D_Row.parallel_input self = false ->
      divide (t_width input_) (Linear1D_Row.num_partitions self) = inl e ->
      Linear1D_Row.forward divide self input_ = Raise e).
Proof.
  split; [|split; [|split]].
  - intros self Hne.
    eexists. split.
    + unfold Linear1D_Col.forward.
      apply Nat.eqb_neq in Hne. now rewrite Hne.
    + apply col_shape_message_names.
  - intros self Hp Hne.
    eexists. split.
    + apply row_forward_check_fails. rewrite (row_check_parallel divide self input_ Hp).
      apply Nat.eqb_neq in Hne. now rewrite Hne.
    + apply row_shape_message_names.
  - intros self q Hp Hdiv Hne.
    eexists. split.
    + apply row_forward_check_fails. unfold Linear1D_Row.check_input.
      rewrite Hp, Hdiv. apply Nat.eqb_neq in Hne. now rewrite Hne.
    + apply row_shape_message_names.
  - intros self e Hp Hdiv.
    apply row_forward_check_fails. unfold Linear1D_Row.check_input.
    now rewrite Hp, Hdiv.
Qed.

Lemma forward_shape_mismatch_diagnostic_witness :
  (exists msg,
      Linear1D_Col.forward (ex_col_layer 0 false false ex_weight_2x2 None)
        (mkTensor 3 [[1; 1; 1]]%Z)
      = Raise (AssertionError msg)
      /\ names msg "torch.Size([1, 3])" /\ names msg "torch.Size([2, 2])"
      /\ names msg "2")
  /\
  (exists msg,
      Linear1D_Row.forward Linear1D_Row.divide
        (ex_row_layer 0 true false 1 ex_weight_4x2) (mkTensor 3 [[1; 1; 1]]%Z)
      = Raise (AssertionError msg)
      /\ names msg "torch.Size([1, 3])" /\ names msg "torch.Size([4, 2])"
      /\ names msg "2")
  /\
  (exists msg,
      Linear1D_Row.forward Linear1D_Row.divide
        (ex_row_layer 0 false false 1 ex_weight_4x2)
        (mkTensor 6 [[1; 1; 1; 1; 1; 1]]%Z)
      = Raise (AssertionError msg)
      /\ names msg "torch.Size([1, 6])" /\ names msg "torch.Size([4, 2])"
      /\ names msg "4").
Proof.
  split; [|split].
  - apply (proj1 (forward_shape_mismatch_diagnostic Linear1D_Row.divide
                    (mkTensor 3 [[1; 1; 1]]%Z))
             (ex_col_layer 0 false false ex_weight_2x2 None)).
    cbn. lia.
  - apply (proj1 (proj2 (forward_shape_mismatch_diagnostic Linear1D_Row.divide
                           (mkTensor 3 [[1; 1; 1]]%Z)))
             (ex_row_layer 0 true false 1 ex_weight_4x2) eq_refl).
    cbn. lia.
  - apply (proj1 (proj2 (proj2 (forward_shape_mismatch_diagnostic
                                  Linear1D_Row.divide
                                  (mkTensor 6 [[1; 1; 1; 1; 1; 1]]%Z))))
             (ex_row_layer 0 false false 1 ex_weight_4x2) 3 eq_refl eq_refl).
    cbn. lia.
Defined.

(** C10: a row-parallel layer constructed without [parallel_input] has
    [parallel_input = True] -- the default of the signature, not the
    [False] its docstring announces -- so [forward] compares the input's
    last dimension with the shard's width and never splits: an input of
    any other width, a replicated full-width one included, fails the
    sharded-input assertion. *)
Theorem row_parallel_input_defaults_to_true {R : Type} `{Scalar R}
  (divide : nat -> nat -> Exc nat) (a : Linear1D_Row.Args R)
  (w w' : World R) (self : Linear1D_Row.Layer R)
  (Hleft_out : Linear1D_Row.arg_parallel_input a = None)
  (Hbuilt : Linear1D_Row.__init__ a w = (w', inr self)) :
  Linear1D_Row.parallel_input self = true
  /\ Linear1D_Row.parallel_input_documented_default = false
  /\ forall input_ : Tensor R,
      Linear1D_Row.check_input divide self input_
      = (if t_width input_ =? t_width (Linear1D_Row.weight self)
         then inr input_
         else inl (AssertionError
                     (Linear1D_Row.shape_message input_ (Linear1D_Row.weight self)
                        (t_width (Linear1D_Row.weight self)))))
      /\ (t_width input_ <> t_width (Linear1D_Row.weight self) ->
          Linear1D_Row.forward divide self input_
          = Raise (AssertionError
                     (Linear1D_Row.shape_message input_ (Linear1D_Row.weight self)
                        (t_width (Linear1D_Row.weight self))))).
Proof.
  assert (Hp : Linear1D_Row.parallel_input self = true).
  { pose proof (row_init_parallel_input a w w' self Hbuilt) as Hp.
    cbn beta in Hp. now rewrite Hleft_out in Hp. }
  split; [exact Hp | split; [reflexivity |]].
  intros input_.
  pose proof (row_check_parallel divide self input_ Hp) as Hc.
  split; [exact Hc |].
  intros Hne. apply row_forward_check_fails. rewrite Hc.
  apply Nat.eqb_neq in Hne. now rewrite Hne.
Qed.

Lemma row_parallel_input_defaults_to_true_witness :
  Linear1D_Row.__init__ ex_row_args ex_world_pair
  = (log_event ex_world_pair (Shard [2; 4]), inr ex_row_built)
  /\ Linear1D_Row.parallel_input ex_row_built = true
  /\ Linear1D_Row.forward Linear1D_Row.divide ex_row_built
       (mkTensor 4 [[1; 1; 1; 1]]%Z)
     = Raise
         (AssertionError
            "Invalid shapes in Linear1D_Row forward: input=torch.Size([1, 4]), weight=torch.Size([2, 2]). Expected last dim of input 2.").
Proof.
  assert (Hbuilt : Linear1D_Row.__init__ ex_row_args ex_world_pair
                   = (log_event ex_world_pair (Shard [2; 4]), inr ex_row_built))
    by reflexivity.
  destruct (row_parallel_input_defaults_to_true Linear1D_Row.divide ex_row_args
              ex_world_pair _ ex_row_built eq_refl Hbuilt) as (Hp & _ & Hfw).
  split; [exact Hbuilt | split; [exact Hp |]].
  apply (proj2 (Hfw (mkTensor 4 [[1; 1; 1; 1]]%Z))).
  cbn. lia.
Defined.

(** ** The group interpreter *)

Section RunFacts.
Context {R : Type} `{Scalar R}.

Lemma traverse_map {X Y Z : Type} (f : Y -> option Z) (g : X -> Y) (h : X -> Z)
  (xs : list X) :
  (forall x, In x xs -> f (g x) = Some (h x)) ->
  traverse f (map g xs) = Some (map h xs).
Proof.
  induction xs as [|x xs IH]; intros Hf; cbn; [reflexivity|].
  rewrite (Hf x (or_introl eq_refl)), IH; [reflexivity|].
  intros y Hy. apply Hf. now right.
Qed.

(** Every rank returns: the group finishes with the ranks' values. *)
Lemma run_all_ret {A D : Type} (pending : list (Tensor R)) (v : D -> A)
  (d0 : D) (ds : list D) :
  run pending (Ret (v d0)) (map (fun d => Ret (v d)) ds)
  = Finished (map (fun d => inr (v d)) (d0 :: ds)).
Proof.
  cbn. now rewrite (traverse_map at_exit _ (fun d => inr (v d))).
Qed.

(** Every rank raises: the group finishes with the ranks' exceptions. *)
Lemma run_all_raise {A D : Type} (pending : list (Tensor R)) (e : D -> Exn)
  (d0 : D) (ds : list D) :
  run (A := A) pending (Raise (e d0)) (map (fun d => Raise (e d)) ds)
  = Finished (map (fun d => inl (e d)) (d0 :: ds)).
Proof.
  cbn. now rewrite (traverse_map at_exit _ (fun d => inl (e d))).
Qed.

(** Every rank is at a blocking sum: each resumes with the sum of all
    contributions, taken in rank order. *)
Lemma run_all_reduce {A D : Type} (pending : list (Tensor R))
  (t : D -> Tensor R) (k : D -> Tensor R -> Prog R A) (d0 : D) (ds : list D) :
  run pending (AllReduce (t d0) (k d0)) (map (fun d => AllReduce (t d) (k d)) ds)
  = run pending (k d0 (reduce_sum (t d0) (map t ds)))
      (map (fun d => k d (reduce_sum (t d0) (map t ds))) ds).
Proof.
  cbn. rewrite (traverse_map at_all_reduce _ (fun d => (t d, k d))) by reflexivity.
  now rewrite !map_map.
Qed.

(** Every rank is at a gather: each resumes with the concatenation of
    all contributions, in rank order. *)
Lemma run_all_gather {A D : Type} (pending : list (Tensor R))
  (t : D -> Tensor R) (k : D -> Tensor R -> Prog R A) (d0 : D) (ds : list D) :
  run pending (AllGather (t d0) (k d0)) (map (fun d => AllGather (t d) (k d)) ds)
  = run pending (k d0 (all_gather (t d0) (map t ds)))
      (map (fun d => k d (all_gather (t d0) (map t ds))) ds).
Proof.
  cbn. rewrite (traverse_map at_all_gather _ (fun d => (t d, k d))) by reflexivity.
  now rewrite !map_map.
Qed.

(** Every rank issues an asynchronous sum: the sum is in flight under the
    next handle, and each rank resumes with that handle. *)
Lemma run_all_reduce_async {A D : Type} (pending : list (Tensor R))
  (t : D -> Tensor R) (k : D -> Handle -> Prog R A) (d0 : D) (ds : list D) :
  run pending (AllReduceAsync (t d0) (k d0))
    (map (fun d => AllReduceAsync (t d) (k d)) ds)
  = run (pending ++ [reduce_sum (t d0) (map t ds)]) (k d0 (length pending))
      (map (fun d => k d (length pending)) ds).
Proof.
  cbn. rewrite (traverse_map at_all_reduce_async _ (fun d => (t d, k d)))
    by reflexivity.
  now rewrite !map_map.
Qed.

(** Every rank waits on handle [h]: each resumes with the sum it
    stands for. *)
Lemma run_all_wait {A D : Type} (pending : list (Tensor R)) (h : Handle)
  (s : Tensor R) (k : D -> Tensor R -> Prog R A) (d0 : D) (ds : list D) :
  nth_error pending h = Some s ->
  run pending (Wait h (k d0)) (map (fun d => Wait h (k d)) ds)
  = run pending (k d0 s) (map (fun d => k d s) ds).
Proof.
  intros Hh. cbn. rewrite Hh.
  rewrite (traverse_map (at_wait pending) _ (fun d => k d s)); [reflexivity|].
  intros d _. cbn. now rewrite Hh.
Qed.

Lemma transparent_bind {A B : Type} (f : A -> Prog R B) :
  transparent (fun p => bind p f).
Proof.
  split; reflexivity.
Qed.

Lemma transparent_bind2 {A B C : Type} (f : A -> Prog R B) (g : B -> Prog R C) :
  transparent (fun p => bind (bind p f) g).
Proof.
  split; reflexivity.
Qed.

End RunFacts.

(** ** Tensors *)

Section TensorFacts.
Context {R : Type} `{Scalar R}.

Lemma map2_nil_r {A B C : Type} (f : A -> B -> C) (xs : list A) :
  map2 f xs [] = [].
Proof.
  now destruct xs.
Qed.

Lemma map2_map_same {X A B C : Type} (f : A -> B -> C) (g : X -> A) (h : X -> B)
  (l : list X) :
  map2 f (map g l) (map h l) = map (fun x => f (g x) (h x)) l.
Proof.
  induction l as [|x l IH]; cbn; [reflexivity | now rewrite IH].
Qed.

Lemma map2_app {A B C : Type} (f : A -> B -> C) (a b : list A) (a' b' : list B) :
  length a = length a' ->
  map2 f (a ++ b) (a' ++ b') = map2 f a a' ++ map2 f b b'.
Proof.
  revert a'. induction a as [|x a IH]; intros [|y a'] Hlen; cbn in *;
    try discriminate; [reflexivity|].
  injection Hlen as Hlen. now rewrite IH.
Qed.

Lemma length_map2 {A B C : Type} (f : A -> B -> C) (a : list A) (b : list B) :
  length (map2 f a b) = Nat.min (length a) (length b).
Proof.
  revert b. induction a as [|x a IH]; intros [|y b]; cbn; [reflexivity.. |].
  now rewrite IH.
Qed.

Lemma map_nth_seq {A : Type} (l : list A) (d : A) :
  map (fun i => nth i l d) (seq 0 (length l)) = l.
Proof.
  induction l as [|a l IH]; cbn; [reflexivity|].
  f_equal. rewrite <- seq_shift, map_map. exact IH.
Qed.

(** *** The linear map, chunk by chunk *)

Lemma F_linear_weight_ext (x w w' : Tensor R) (b : option (list R)) :
  t_rows w = t_rows w' -> F_linear x w b = F_linear x w' b.
Proof.
  intros Hrows. unfold F_linear. now rewrite Hrows.
Qed.

Lemma F_linear_rows_app (x : Tensor R) (n1 n2 n3 : nat) (A B : list (list R)) :
  F_linear x (mkTensor n1 (A ++ B)) None
  = cat2 (F_linear x (mkTensor n2 A) None) (F_linear x (mkTensor n3 B) None).
Proof.
  unfold F_linear, cat2. cbn. f_equal.
  - apply length_app.
  - rewrite map2_map_same. apply map_ext. intros r. apply map_app.
Qed.

(** Multiplying by the blocks of a weight and joining the products along
    the last dimension is multiplying by the weight. *)
Lemma linear_cat_chunks (x c : Tensor R) (cs : list (Tensor R)) (n : nat) :
  fold_left cat2 (map (fun c' => F_linear x c' None) cs) (F_linear x c None)
  = F_linear x (mkTensor n (t_rows c ++ concat (map t_rows cs))) None.
Proof.
  revert c. induction cs as [|c1 cs IH]; intros c; cbn [map fold_left concat].
  - apply F_linear_weight_ext. cbn. now rewrite app_nil_r.
  - rewrite (F_linear_weight_ext x c (mkTensor n (t_rows c)) None eq_refl).
    rewrite (F_linear_weight_ext x c1 (mkTensor n (t_rows c1)) None eq_refl).
    rewrite <- (F_linear_rows_app x n n n).
    rewrite IH. apply F_linear_weight_ext. cbn. now rewrite app_assoc.
Qed.

Lemma F_linear_wf (x w : Tensor R) : tensor_wf (F_linear x w None).
Proof.
  unfold tensor_wf, F_linear. cbn. apply Forall_forall. intros r Hr.
  apply in_map_iff in Hr as (xr & <- & _). apply length_map.
Qed.

(** *** Blocks of [torch.chunk] *)

Lemma split_rows_concat (fuel size : nat) (rows : list (list R)) :
  0 < size -> length rows <= fuel ->
  concat (split_rows fuel size rows) = rows.
Proof.
  intros Hsize. revert rows.
  induction fuel as [|fuel IH]; intros rows Hlen; cbn.
  - destruct rows; [reflexivity | cbn in Hlen; lia].
  - destruct rows as [|r rows]; [reflexivity|].
    cbn [concat]. rewrite IH.
    + apply firstn_skipn.
    + rewrite length_skipn. cbn [length] in *. lia.
Qed.

Lemma concat_repeat_nil {A : Type} (f : Tensor R -> list A) (t : Tensor R) (k : nat) :
  f t = [] -> concat (map f (repeat t k)) = [].
Proof.
  intros Hf. induction k as [|k IH]; cbn; [reflexivity | now rewrite Hf, IH].
Qed.

(** The blocks of [torch.chunk], joined, are the rows of the tensor. *)
Lemma torch_chunk_concat (w : Tensor R) (k : nat) :
  0 < k -> concat (map t_rows (torch_chunk w k)) = t_rows w.
Proof.
  intros Hk. unfold torch_chunk.
  destruct (Nat.eqb_spec (length (t_rows w)) 0) as [Hz | Hnz].
  - rewrite concat_repeat_nil by reflexivity.
    symmetry. now apply length_zero_iff_nil.
  - rewrite map_map. cbn. rewrite map_id.
    apply split_rows_concat; [|lia].
    apply Nat.div_str_pos. lia.
Qed.

Lemma split_rows_same_lengths (fuel size : nat) (r r' : list (list R)) :
  length r = length r' ->
  Forall2 (fun b b' => length b = length b')
    (split_rows fuel size r) (split_rows fuel size r').
Proof.
  revert r r'. induction fuel as [|fuel IH]; intros r r' Hlen; cbn.
  - constructor.
  - destruct r as [|a r], r' as [|a' r']; try discriminate; constructor.
    + rewrite !length_firstn. now rewrite Hlen.
    + apply IH. rewrite !length_skipn. now rewrite Hlen.
Qed.

(** Weights with the same number of rows are cut into blocks of the same
    sizes. *)
Lemma torch_chunk_same_rows (w w' : Tensor R) (k : nat) :
  length (t_rows w) = length (t_rows w') ->
  Forall2 (fun c c' => length (t_rows c) = length (t_rows c'))
    (torch_chunk w k) (torch_chunk w' k).
Proof.
  intros Hlen. unfold torch_chunk. rewrite <- Hlen.
  destruct (length (t_rows w) =? 0).
  - induction k as [|k IH]; cbn; constructor; [reflexivity | exact IH].
  - pose proof (split_rows_same_lengths (length (t_rows w))
                  ((length (t_rows w) + k - 1) / k) _ _ Hlen) as HF.
    induction HF; cbn; constructor; assumption.
Qed.

(** *** Sums and concatenations *)

Lemma tensor_add_wf (a b : Tensor R) :
  same_shape a b -> tensor_wf (tensor_add a b).
Proof.
  intros (Ha & Hb & Hw). unfold tensor_wf, tensor_add in *. cbn.
  revert Ha Hb. generalize (t_rows b). rewrite <- Hw.
  induction (t_rows a) as [|r rows IH]; intros [|r' rows'] Ha Hb; cbn;
    try constructor.
  - rewrite length_map2. inversion Ha; inversion Hb; subst. lia.
  - inversion Ha; inversion Hb; subst. now apply IH.
Qed.

Lemma cat2_wf (a b : Tensor R) :
  tensor_wf a -> tensor_wf b -> tensor_wf (cat2 a b).
Proof.
  unfold tensor_wf, cat2. cbn. generalize (t_rows b).
  induction (t_rows a) as [|r rows IH]; intros [|r' rows'] Ha Hb; cbn;
    try constructor.
  - rewrite length_app. inversion Ha; inversion Hb; subst. lia.
  - inversion Ha; inversion Hb; subst. now apply IH.
Qed.

Lemma rows_add_cat (n : nat) (A A' B B' : list (list R)) :
  Forall (fun r => length r = n) A ->
  Forall (fun r => length r = n) A' ->
  map2 (map2 radd) (map2 (@app R) A B) (map2 (@app R) A' B')
  = map2 (@app R) (map2 (map2 radd) A A') (map2 (map2 radd) B B').
Proof.
  revert A' B B'.
  induction A as [|a A IH]; intros A' B B' HA HA'; [reflexivity|].
  destruct A' as [|a' A'], B as [|b B], B' as [|b' B']; try reflexivity.
  inversion HA; inversion HA'; subst. cbn.
  rewrite map2_app by congruence. f_equal. now apply IH.
Qed.

(** Summing two concatenations is concatenating the sums, when the left
    parts have rows of one width. *)
Lemma tensor_add_cat2 (a a' b b' : Tensor R) :
  same_shape a a' ->
  tensor_add (cat2 a b) (cat2 a' b')
  = cat2 (tensor_add a a') (tensor_add b b').
Proof.
  intros (Ha & Ha' & Hw). unfold tensor_add, cat2. cbn. f_equal.
  apply (rows_add_cat (t_width a)); [exact Ha | now rewrite Hw].
Qed.

Lemma cat_fold_add {X : Type} (F G : X -> Tensor R) (l : list X) (a b : Tensor R) :
  same_shape a b ->
  (forall i, In i l -> same_shape (F i) (G i)) ->
  fold_left cat2 (map (fun i => tensor_add (F i) (G i)) l) (tensor_add a b)
  = tensor_add (fold_left cat2 (map F l) a) (fold_left cat2 (map G l) b).
Proof.
  revert a b. induction l as [|i l IH]; intros a b Hab HFG; [reflexivity|].
  cbn [map fold_left].
  rewrite <- (tensor_add_cat2 a b (F i) (G i) Hab).
  apply IH.
  - destruct Hab as (Ha & Hb & Hw).
    destruct (HFG i (or_introl eq_refl)) as (HF & HG & HwFG).
    repeat split; [now apply cat2_wf | now apply cat2_wf |].
    cbn. now rewrite Hw, HwFG.
  - intros j Hj. apply HFG. now right.
Qed.

End TensorFacts.

(** ** The row-parallel forward pass over a group *)

Section RowGroup.
Context {R : Type} `{Scalar R}.
Variable divide : nat -> nat -> Exc nat.

Lemma check_input_shard (d : (Rank R)) (x : Tensor R) :
  Linear1D_Row.check_input divide (fst d) (snd d) = inr x -> (check_passes divide) d.
Proof.
  unfold check_passes, shard_of, Linear1D_Row.check_input.
  destruct (Linear1D_Row.parallel_input (fst d)).
  - now destruct (_ =? _).
  - destruct (divide _ _) as [e | q]; [discriminate|].
    now destruct (_ =? _).
Qed.

Lemma forward_standard (d : (Rank R)) :
  (check_passes divide) d ->
  (Linear1D_Row.stream_chunk_num (fst d) <= 1)%Z ->
  (rank_forward divide) d
  = AllReduce (partial_product d)
      (fun s => Ret (Linear1D_Row.finish (fst d) s)).
Proof.
  intros Hc Hk. unfold rank_forward.
  rewrite (row_forward_check_passes divide _ _ _ Hc).
  unfold Linear1D_Row.reduced_output.
  apply Z.ltb_ge in Hk. now rewrite Hk.
Qed.

(** In standard mode every rank multiplies its shard by its weight, the
    products are summed over the group, and every rank finishes on that
    one sum. *)
Lemma run_standard (d0 : (Rank R)) (ds : list (Rank R)) :
  Forall (check_passes divide) (d0 :: ds) ->
  Forall (fun d => (Linear1D_Row.stream_chunk_num (fst d) <= 1)%Z) (d0 :: ds) ->
  run_group (map (rank_forward divide) (d0 :: ds))
  = Finished
      (map (fun d =>
              inr (Linear1D_Row.finish (fst d)
                     (reduce_sum (partial_product d0) (map partial_product ds))))
         (d0 :: ds)).
Proof.
  intros Hc Hk. cbn [run_group map].
  inversion Hc as [|? ? Hc0 Hcs]; inversion Hk as [|? ? Hk0 Hks]; subst.
  rewrite (forward_standard d0 Hc0 Hk0).
  rewrite (map_ext_in (rank_forward divide)
             (fun d => AllReduce (partial_product d)
                         (fun s => Ret (Linear1D_Row.finish (fst d) s)))).
  - rewrite (run_all_reduce [] partial_product
               (fun d s => Ret (Linear1D_Row.finish (fst d) s))).
    apply (run_all_ret []
             (fun d => Linear1D_Row.finish (fst d)
                         (reduce_sum (partial_product d0) (map partial_product ds)))).
  - intros d Hd. rewrite Forall_forall in Hcs, Hks.
    apply forward_standard; auto.
Qed.

(** The issue loop over the group: [n] more chunks from chunk [i] on. *)
Lemma run_issue_chunks {A : Type}
  (E : (Rank R) -> Prog R (list Handle) -> Prog R A) (d0 : (Rank R)) (ds : list (Rank R)) :
  (forall d, transparent (E d)) ->
  forall (n i : nat) (hs : list Handle) (pending : list (Tensor R)),
    (forall d, In d (d0 :: ds) ->
               i + n <= length (Linear1D_Row.weight_list (fst d))) ->
    run pending
      (E d0 (Linear1D_Row.issue_chunks (shard_of d0)
               (Linear1D_Row.weight_list (fst d0)) n i hs))
      (map (fun d =>
              E d (Linear1D_Row.issue_chunks (shard_of d)
                     (Linear1D_Row.weight_list (fst d)) n i hs)) ds)
    = run (pending ++ map (chunk_sum d0 ds) (seq i n))
        (E d0 (Ret (hs ++ seq (length pending) n)))
        (map (fun d => E d (Ret (hs ++ seq (length pending) n))) ds).
Proof.
  intros HE. induction n as [|n IH]; intros i hs pending Hlen.
  - cbn. now rewrite !app_nil_r.
  - assert (Hstep : forall d, In d (d0 :: ds) ->
              E d (Linear1D_Row.issue_chunks (shard_of d)
                     (Linear1D_Row.weight_list (fst d)) (S n) i hs)
              = AllReduceAsync
                  (F_linear (shard_of d)
                     (nth i (Linear1D_Row.weight_list (fst d)) (mkTensor 0 []))
                     None)
                  (fun h =>
                     E d (Linear1D_Row.issue_chunks (shard_of d)
                            (Linear1D_Row.weight_list (fst d)) n (S i)
                            (hs ++ [h])))).
    { intros d Hd. cbn [Linear1D_Row.issue_chunks].
      rewrite (nth_error_nth' _ (mkTensor 0 [])) by (specialize (Hlen d Hd); lia).
      apply (tr_async _ (HE d)). }
    rewrite (Hstep d0 (or_introl eq_refl)).
    rewrite (map_ext_in _ _ ds (fun d Hd => Hstep d (or_intror Hd))).
    rewrite (run_all_reduce_async pending
               (fun d => F_linear (shard_of d)
                           (nth i (Linear1D_Row.weight_list (fst d)) (mkTensor 0 []))
                           None)
               (fun d h =>
                  E d (Linear1D_Row.issue_chunks (shard_of d)
                         (Linear1D_Row.weight_list (fst d)) n (S i) (hs ++ [h])))).
    rewrite IH by (intros d Hd; specialize (Hlen d Hd); lia).
    rewrite length_app. cbn [length seq map].
    rewrite Nat.add_1_r, <- !app_assoc. reflexivity.
Qed.

(** The wait loop over the group: every rank collects the sums its
    handles stand for, in the order of the handles. *)
Lemma run_wait_all {A : Type}
  (E : (Rank R) -> Prog R (list (Tensor R)) -> Prog R A) (d0 : (Rank R)) (ds : list (Rank R))
  (pending : list (Tensor R)) :
  (forall d, transparent (E d)) ->
  forall (hs : list Handle) (acc : list (Tensor R)),
    (forall h, In h hs -> h < length pending) ->
    run pending (E d0 (Linear1D_Row.wait_all hs acc))
      (map (fun d => E d (Linear1D_Row.wait_all hs acc)) ds)
    = run pending
        (E d0 (Ret (acc ++ map (fun h => nth h pending (mkTensor 0 [])) hs)))
        (map (fun d =>
                E d (Ret (acc ++ map (fun h => nth h pending (mkTensor 0 [])) hs)))
           ds).
Proof.
  intros HE. induction hs as [|h hs IH]; intros acc Hin.
  - cbn. now rewrite app_nil_r.
  - cbn [Linear1D_Row.wait_all map].
    rewrite (tr_wait _ (HE d0)).
    rewrite (map_ext _ _ (fun d => tr_wait _ (HE d) h _)).
    rewrite (run_all_wait pending h (nth h pending (mkTensor 0 []))
               (fun d s => E d (Linear1D_Row.wait_all hs (acc ++ [s])))).
    + rewrite IH by (intros h' Hh'; apply Hin; now right).
      now rewrite <- !app_assoc.
    + apply nth_error_nth'. apply Hin. now left.
Qed.

End RowGroup.

(** ** The chunked forward pass over a group *)

Section RowChunked.
Context {R : Type} `{Scalar R}.
Variable divide : nat -> nat -> Exc nat.

Abbreviation wl d := (Linear1D_Row.weight_list (fst d)).
Abbreviation chunk_product d i :=
  (F_linear (shard_of d) (nth i (wl d) (mkTensor 0 [])) None).

Lemma chunk_sum_snoc (d0 : (Rank R)) (ds : list (Rank R)) (d : (Rank R)) (i : nat) :
  chunk_sum d0 (ds ++ [d]) i
  = tensor_add (chunk_sum d0 ds i) (chunk_product d i).
Proof.
  unfold chunk_sum, reduce_sum. now rewrite map_app, fold_left_app.
Qed.

Lemma aligned_nth (d0 d : (Rank R)) (i : nat) :
  aligned d0 d ->
  length (t_rows (nth i (wl d) (mkTensor 0 [])))
  = length (t_rows (nth i (wl d0) (mkTensor 0 []))).
Proof.
  unfold aligned. intros HF. revert i.
  induction HF as [|c c' l l' Hc HF IH]; intros [|i]; cbn; auto.
Qed.

Lemma chunk_sum_shape (d0 : (Rank R)) (ds : list (Rank R)) (i : nat) :
  Forall (aligned d0) ds ->
  tensor_wf (chunk_sum d0 ds i)
  /\ t_width (chunk_sum d0 ds i)
     = length (t_rows (nth i (wl d0) (mkTensor 0 []))).
Proof.
  induction ds as [|d ds IH] using rev_ind; intros Hal.
  - split; [apply F_linear_wf | reflexivity].
  - apply Forall_app in Hal as [Hds Hd]. inversion Hd as [|? ? Hd' _]; subst.
    destruct (IH Hds) as [Hwf Hw]. rewrite chunk_sum_snoc. split.
    + apply tensor_add_wf. repeat split; [exact Hwf | apply F_linear_wf |].
      rewrite Hw. cbn. symmetry. now apply aligned_nth.
    + exact Hw.
Qed.

(** One rank: its chunk products, joined, are its whole product. *)
Lemma cat_chunks_one (d : (Rank R)) (k' n : nat) :
  length (wl d) = S k' ->
  fold_left cat2 (map (fun i => chunk_product d i) (seq 1 k')) (chunk_product d 0)
  = F_linear (shard_of d) (mkTensor n (concat (map t_rows (wl d)))) None.
Proof.
  intros Hlen. destruct (wl d) as [|c cs]; [discriminate|].
  injection Hlen as Hlen. subst k'.
  rewrite <- seq_shift, map_map. cbn [nth].
  rewrite <- (map_map (fun i => nth i cs (mkTensor 0 []))
                (fun c' => F_linear (shard_of d) c' None)).
  rewrite map_nth_seq.
  apply linear_cat_chunks.
Qed.

(** The group: the chunk sums, joined, are the sum of the whole
    products. *)
Lemma cat_chunk_sums (d0 : (Rank R)) (ds : list (Rank R)) (k' n : nat) :
  length (wl d0) = S k' ->
  Forall (aligned d0) ds ->
  fold_left cat2 (map (chunk_sum d0 ds) (seq 1 k')) (chunk_sum d0 ds 0)
  = reduce_sum
      (F_linear (shard_of d0) (mkTensor n (concat (map t_rows (wl d0)))) None)
      (map (fun d =>
              F_linear (shard_of d) (mkTensor n (concat (map t_rows (wl d)))) None)
         ds).
Proof.
  intros Hlen.
  induction ds as [|d ds IH] using rev_ind; intros Hal.
  - cbn [map reduce_sum fold_left]. now apply cat_chunks_one.
  - apply Forall_app in Hal as [Hds Hd]. inversion Hd as [|? ? Hd' _]; subst.
    rewrite (map_ext _ _ (chunk_sum_snoc d0 ds d)), chunk_sum_snoc.
    rewrite (cat_fold_add (chunk_sum d0 ds) (fun i => chunk_product d i)).
    + rewrite (IH Hds), (cat_chunks_one d k' n).
      * unfold reduce_sum. now rewrite map_app, fold_left_app.
      * apply Forall2_length in Hd'. congruence.
    + destruct (chunk_sum_shape d0 ds 0 Hds) as [Hwf Hw].
      repeat split; [exact Hwf | apply F_linear_wf |].
      rewrite Hw. cbn. symmetry. now apply aligned_nth.
    + intros i _. destruct (chunk_sum_shape d0 ds i Hds) as [Hwf Hw].
      repeat split; [exact Hwf | apply F_linear_wf |].
      rewrite Hw. cbn. symmetry. now apply aligned_nth.
Qed.

Lemma forward_chunked (d : (Rank R)) :
  check_passes divide d ->
  (1 < Linear1D_Row.stream_chunk_num (fst d))%Z ->
  Linear1D_Row.training (fst d) = false ->
  rank_forward divide d
  = bind (bind (Linear1D_Row.issue_chunks (shard_of d) (wl d)
                  (Z.to_nat (Linear1D_Row.stream_chunk_num (fst d))) 0 [])
            after_issue)
      (finish_with d).
Proof.
  intros Hc Hk Ht. unfold rank_forward.
  rewrite (row_forward_check_passes divide _ _ _ Hc).
  unfold Linear1D_Row.reduced_output.
  apply Z.ltb_lt in Hk. now rewrite Hk, Ht.
Qed.

(** In chunked mode, with as many blocks as chunks and blocks of the same
    sizes on every rank, every rank finishes on the sum over the group of
    the products with the joined blocks. *)
Lemma run_chunked (d0 : (Rank R)) (ds : list (Rank R)) (k : Z) (n : nat) :
  (1 < k)%Z ->
  Forall (check_passes divide) (d0 :: ds) ->
  Forall (fun d => Linear1D_Row.stream_chunk_num (fst d) = k) (d0 :: ds) ->
  Forall (fun d => Linear1D_Row.training (fst d) = false) (d0 :: ds) ->
  length (wl d0) = Z.to_nat k ->
  Forall (aligned d0) ds ->
  run_group (map (rank_forward divide) (d0 :: ds))
  = Finished
      (map (fun d =>
              inr (Linear1D_Row.finish (fst d)
                     (reduce_sum
                        (F_linear (shard_of d0)
                           (mkTensor n (concat (map t_rows (wl d0)))) None)
                        (map (fun d' =>
                                F_linear (shard_of d')
                                  (mkTensor n (concat (map t_rows (wl d')))) None)
                           ds))))
         (d0 :: ds)).
Proof.
  intros Hk Hc Hnum Htr Hlen Hal.
  assert (Hfw : forall d, In d (d0 :: ds) ->
            rank_forward divide d
            = bind (bind (Linear1D_Row.issue_chunks (shard_of d) (wl d)
                            (Z.to_nat k) 0 []) after_issue) (finish_with d)).
  { rewrite Forall_forall in Hc, Hnum, Htr. intros d Hd.
    rewrite <- (Hnum d Hd). apply forward_chunked; auto.
    rewrite (Hnum d Hd). exact Hk. }
  assert (Hlens : forall d, In d (d0 :: ds) -> 0 + Z.to_nat k <= length (wl d)).
  { intros d [<- | Hd]; [lia|].
    rewrite Forall_forall in Hal. apply Hal, Forall2_length in Hd. lia. }
  cbn [run_group map].
  rewrite (Hfw d0 (or_introl eq_refl)).
  rewrite (map_ext_in _ _ ds (fun d Hd => Hfw d (or_intror Hd))).
  rewrite (run_issue_chunks
             (fun d p => bind (bind p after_issue) (finish_with d)) d0 ds
             (fun d => transparent_bind2 _ _) (Z.to_nat k) 0 [] [] Hlens).
  cbn [app length].
  change (run (map (chunk_sum d0 ds) (seq 0 (Z.to_nat k)))
            (bind (bind (Linear1D_Row.wait_all (seq 0 (Z.to_nat k)) []) after_wait)
               (finish_with d0))
            (map (fun d =>
                    bind (bind (Linear1D_Row.wait_all (seq 0 (Z.to_nat k)) [])
                            after_wait) (finish_with d)) ds)
          = Finished
              (map (fun d =>
                      inr (Linear1D_Row.finish (fst d)
                             (reduce_sum
                                (F_linear (shard_of d0)
                                   (mkTensor n (concat (map t_rows (wl d0)))) None)
                                (map (fun d' =>
                                        F_linear (shard_of d')
                                          (mkTensor n (concat (map t_rows (wl d'))))
                                          None) ds))))
                 (d0 :: ds))).
  rewrite (run_wait_all
             (fun d p => bind (bind p after_wait) (finish_with d)) d0 ds _
             (fun d => transparent_bind2 _ _)).
  2:{ intros h Hh. apply in_seq in Hh. rewrite length_map, length_seq. lia. }
  cbn [app].
  pose proof (map_nth_seq (map (chunk_sum d0 ds) (seq 0 (Z.to_nat k)))
                (mkTensor 0 [])) as Hnth.
  rewrite length_map, length_seq in Hnth. rewrite Hnth. clear Hnth.
  destruct (Z.to_nat k) as [|k'] eqn:Hk'; [lia|].
  cbn [seq map bind lift torch_cat after_wait]. unfold finish_with.
  rewrite (run_all_ret _
             (fun d : (Rank R) =>
                Linear1D_Row.finish (fst d)
                  (fold_left cat2 (map (chunk_sum d0 ds) (seq 1 k'))
                     (chunk_sum d0 ds 0))) d0 ds).
  now rewrite (cat_chunk_sums d0 ds k' n Hlen Hal).
Qed.

End RowChunked.

(** ** Shards against the dense layer *)

Section Dense.
Context {R : Type} `{ScalarLaws R}.

Lemma dot_app (xa xb wa wb : list R) :
  length xa = length wa ->
  dot (xa ++ xb) (wa ++ wb) = radd (dot xa wa) (dot xb wb).
Proof.
  revert wa. induction xa as [|a xa IH]; intros [|b wa] Hlen; cbn in *;
    try discriminate.
  - now rewrite radd_zero_l.
  - injection Hlen as Hlen. now rewrite IH, radd_assoc.
Qed.

Lemma dot_row_cat (n : nat) (a a' : list R) (W W' : list (list R)) :
  length a = n ->
  Forall (fun r => length r = n) W ->
  length W = length W' ->
  map (dot (a ++ a')) (map2 (@app R) W W')
  = map2 radd (map (dot a) W) (map (dot a') W').
Proof.
  intros Ha. revert W'.
  induction W as [|w W IH]; intros [|w' W'] HW Hlen; cbn in *;
    try discriminate; [reflexivity|].
  inversion HW; subst. injection Hlen as Hlen.
  rewrite dot_app by congruence. now rewrite IH.
Qed.

(** The product of two inputs joined along the last dimension with two
    weights joined along theirs is the sum of the two products. *)
Lemma linear_cat2 (x x' w w' : Tensor R) :
  tensor_wf x -> tensor_wf w -> t_width x = t_width w ->
  length (t_rows x) = length (t_rows x') ->
  length (t_rows w) = length (t_rows w') ->
  F_linear (cat2 x x') (cat2 w w') None
  = tensor_add (F_linear x w None) (F_linear x' w' None).
Proof.
  intros Hx Hw Hxw Hbatch Hout. unfold F_linear, cat2, tensor_add. cbn.
  f_equal.
  - rewrite length_map2. lia.
  - unfold tensor_wf in *. rewrite <- Hxw in Hw. clear Hxw.
    revert Hx Hw Hbatch. generalize (t_rows x'). generalize (t_width x).
    induction (t_rows x) as [|a X IH]; intros n [|a' X'] Hx Hw Hbatch; cbn in *;
      try discriminate; [reflexivity|].
    inversion Hx; subst. injection Hbatch as Hbatch.
    rewrite (dot_row_cat (length a) a a' (t_rows w) (t_rows w') eq_refl Hw Hout).
    f_equal. now apply (IH (length a)).
Qed.

End Dense.

Section DenseGroup.
Context {R : Type} `{ScalarLaws R}.

Lemma shard_ok_cat2 (B O : nat) (x x' w w' : Tensor R) :
  shard_ok B O x w -> shard_ok B O x' w' -> shard_ok B O (cat2 x x') (cat2 w w').
Proof.
  intros (Hx & Hw & Hxw & HB & HO) (Hx' & Hw' & Hxw' & HB' & HO').
  repeat split; try (now apply cat2_wf); cbn.
  - now rewrite Hxw, Hxw'.
  - rewrite length_map2. lia.
  - rewrite length_map2. lia.
Qed.

(** The dense product is the sum over the ranks of the products of the
    shards. *)
Lemma dense_equals_sum (B O : nat) (d0 : (Rank R)) (ds : list (Rank R)) :
  Forall (fun d => shard_ok B O (shard_of d) (Linear1D_Row.weight (fst d)))
    (d0 :: ds) ->
  F_linear (dense_input d0 ds) (dense_weight d0 ds) None
  = reduce_sum (partial_product d0) (map partial_product ds).
Proof.
  unfold dense_input, dense_weight, reduce_sum, partial_product.
  intros Hall. inversion Hall as [|? ? Hd0 Hds]; subst. clear Hall.
  revert Hd0. generalize (shard_of d0) (Linear1D_Row.weight (fst d0)).
  induction Hds as [|d ds Hd Hds IH]; intros x0 w0 Hd0; cbn [map fold_left];
    [reflexivity|].
  destruct Hd0 as (Hx & Hw & Hxw & HB & HO).
  destruct Hd as (Hx' & Hw' & Hxw' & HB' & HO').
  rewrite <- linear_cat2 by congruence.
  apply IH. now apply shard_ok_cat2.
Qed.

End DenseGroup.

(** C2: in standard mode every rank multiplies its shard by its weight
    shard, the partial products are summed over the ranks, and then --
    [skip_bias_add] false and a bias present -- the bias is added, once,
    to the sum: the result is the output of the dense layer on the joined
    shards.  With [skip_bias_add] the rank returns the pair of the sum,
    without bias, and the bias. *)
Theorem row_standard_forward_reduces_then_adds_bias
  {R : Type} `{ScalarLaws R} (divide : nat -> nat -> Exc nat)
  (d0 : (Rank R)) (ds : list (Rank R)) (b : list R) (B O : nat)
  (Hcheck : Forall (check_passes divide) (d0 :: ds))
  (Hstandard : Forall (fun d => Linear1D_Row.stream_chunk_num (fst d) = 1%Z)
                 (d0 :: ds))
  (Hshape : Forall (fun d =>
                      shard_ok B O (shard_of d) (Linear1D_Row.weight (fst d)))
              (d0 :: ds)) :
  run_group (map (rank_forward divide) (d0 :: ds))
  = Finished
      (map (fun d =>
              inr (Linear1D_Row.finish (fst d)
                     (reduce_sum (partial_product d0) (map partial_product ds))))
         (d0 :: ds))
  /\ (forall d : (Rank R),
         Linear1D_Row.skip_bias_add (fst d) = false ->
         Linear1D_Row.bias (fst d) = Some b ->
         Linear1D_Row.finish (fst d)
           (reduce_sum (partial_product d0) (map partial_product ds))
         = Single
             (add_bias (reduce_sum (partial_product d0) (map partial_product ds)) b)
         /\ add_bias (reduce_sum (partial_product d0) (map partial_product ds)) b
            = Linear_forward (dense_weight d0 ds) (Some b) (dense_input d0 ds))
  /\ (forall d : (Rank R),
         Linear1D_Row.skip_bias_add (fst d) = true ->
         Linear1D_Row.finish (fst d)
           (reduce_sum (partial_product d0) (map partial_product ds))
         = WithBias (reduce_sum (partial_product d0) (map partial_product ds))
             (Linear1D_Row.bias (fst d))).
Proof.
  split; [|split].
  - apply run_standard; [exact Hcheck |].
    eapply Forall_impl; [|exact Hstandard]. cbn. intros d ->. lia.
  - intros d Hskip Hbias. split.
    + unfold Linear1D_Row.finish. now rewrite Hskip, Hbias.
    + unfold Linear_forward.
      rewrite <- (dense_equals_sum B O d0 ds Hshape). reflexivity.
  - intros d Hskip. unfold Linear1D_Row.finish. now rewrite Hskip.
Qed.

Lemma row_standard_forward_reduces_then_adds_bias_witness :
  run_group (map (rank_forward Linear1D_Row.divide) [ex_rank0; ex_rank1])
  = Finished
      [inr (Single (mkTensor 4 [[105; 110; 116; 125]]%Z));
       inr (Single (mkTensor 4 [[105; 110; 116; 125]]%Z))]
  /\ mkTensor 4 [[105; 110; 116; 125]]%Z
     = Linear_forward (dense_weight ex_rank0 [ex_rank1])
         (Some [100; 100; 100; 100]%Z) (dense_input ex_rank0 [ex_rank1]).
Proof.
  assert (Hcheck : Forall (check_passes Linear1D_Row.divide) [ex_rank0; ex_rank1])
    by (repeat constructor).
  assert (Hstandard : Forall (fun d => Linear1D_Row.stream_chunk_num (fst d) = 1%Z)
                        [ex_rank0; ex_rank1])
    by (repeat constructor).
  assert (Hshape : Forall (fun d =>
                             shard_ok 1 4 (shard_of d) (Linear1D_Row.weight (fst d)))
                     [ex_rank0; ex_rank1])
    by (repeat constructor).
  destruct (row_standard_forward_reduces_then_adds_bias Linear1D_Row.divide
              ex_rank0 [ex_rank1] [100; 100; 100; 100]%Z 1 4
              Hcheck Hstandard Hshape) as (Hrun & Hbias & _).
  split.
  - rewrite Hrun. reflexivity.
  - destruct (Hbias ex_rank0 eq_refl eq_refl) as [_ <-]. reflexivity.
Defined.

(** ** Chunked against standard *)

(** When [torch.chunk] cuts the weight shard into exactly
    [stream_chunk_num] blocks (as it does whenever that number divides
    the number of output rows), the chunked forward pass of a group in
    eval mode -- blocks multiplied one by one, each product reduced
    asynchronously, the waits in issue order, the reduced blocks joined
    along the output dimension -- gives every rank what the standard
    forward pass gives it, bias included. *)
Theorem chunked_forward_equals_standard {R : Type} `{Scalar R}
  (divide : nat -> nat -> Exc nat) (k : Z) (d0 : (Rank R)) (ds : list (Rank R))
  (Hk : (1 < k)%Z)
  (Hcheck : Forall (check_passes divide) (d0 :: ds))
  (Hnum : Forall (fun d => Linear1D_Row.stream_chunk_num (fst d) = k) (d0 :: ds))
  (Heval : Forall (fun d => Linear1D_Row.training (fst d) = false) (d0 :: ds))
  (Hsplit : Forall (fun d =>
                      Linear1D_Row.weight_list (fst d)
                      = torch_chunk (Linear1D_Row.weight (fst d)) (Z.to_nat k))
              (d0 :: ds))
  (Hrows : Forall (fun d =>
                     length (t_rows (Linear1D_Row.weight (fst d)))
                     = length (t_rows (Linear1D_Row.weight (fst d0)))) ds)
  (Hexact : length (torch_chunk (Linear1D_Row.weight (fst d0)) (Z.to_nat k))
            = Z.to_nat k) :
  run_group (map (rank_forward divide) (d0 :: ds))
  = run_group (map (rank_forward divide) (map to_standard (d0 :: ds))).
Proof.
  assert (Hjoin : forall d, In d (d0 :: ds) ->
            F_linear (shard_of d)
              (mkTensor 0 (concat (map t_rows (Linear1D_Row.weight_list (fst d)))))
              None
            = partial_product d).
  { intros d Hd. rewrite Forall_forall in Hsplit.
    apply F_linear_weight_ext. cbn. rewrite (Hsplit d Hd).
    apply torch_chunk_concat. lia. }
  assert (Hal : Forall (aligned d0) ds).
  { rewrite Forall_forall in *. intros d Hd. unfold aligned.
    rewrite (Hsplit d0 (or_introl eq_refl)), (Hsplit d (or_intror Hd)).
    apply torch_chunk_same_rows. symmetry. now apply Hrows. }
  rewrite (run_chunked divide d0 ds k 0 Hk Hcheck Hnum Heval).
  2:{ inversion Hsplit as [|? ? Hs0 _]; subst. now rewrite Hs0. }
  2:{ exact Hal. }
  rewrite (Hjoin d0 (or_introl eq_refl)).
  rewrite (map_ext_in _ _ ds (fun d Hd => Hjoin d (or_intror Hd))).
  change (map to_standard (d0 :: ds))
    with (to_standard d0 :: map to_standard ds).
  rewrite (run_standard divide (to_standard d0) (map to_standard ds)).
  - cbn [map]. rewrite !map_map. reflexivity.
  - change (to_standard d0 :: map to_standard ds)
      with (map to_standard (d0 :: ds)).
    apply Forall_map. eapply Forall_impl; [|exact Hcheck].
    intros d Hd. exact Hd.
  - change (to_standard d0 :: map to_standard ds)
      with (map to_standard (d0 :: ds)).
    apply Forall_map. apply Forall_forall. intros d _. cbn. lia.
Qed.

Section ChunkCount.
Context {R : Type} `{Scalar R}.

Lemma split_rows_length (q k fuel : nat) (rows : list (list R)) :
  0 < q -> length rows = q * k -> k <= fuel ->
  length (split_rows fuel q rows) = k.
Proof.
  intros Hq. revert fuel rows.
  induction k as [|k IH]; intros fuel rows Hlen Hfuel.
  - rewrite Nat.mul_0_r in Hlen. apply length_zero_iff_nil in Hlen. subst.
    now destruct fuel.
  - destruct fuel as [|fuel]; [lia|].
    destruct rows as [|r rows]; [cbn in Hlen; lia|].
    cbn [split_rows length]. f_equal. apply IH; [|lia].
    rewrite length_skipn, Hlen. lia.
Qed.

(** A number of chunks that divides the number of rows is the number of
    blocks [torch.chunk] returns. *)
Lemma torch_chunk_length_divisible (w : Tensor R) (k : nat) :
  0 < k -> length (t_rows w) mod k = 0 ->
  length (torch_chunk w k) = k.
Proof.
  intros Hk Hmod. unfold torch_chunk.
  destruct (Nat.eqb_spec (length (t_rows w)) 0) as [Hz | Hnz].
  - apply repeat_length.
  - rewrite length_map.
    apply Nat.Div0.div_exact in Hmod.
    set (q := length (t_rows w) / k) in *.
    assert (Hq : 0 < q) by (destruct q; lia).
    assert (Hsize : (length (t_rows w) + k - 1) / k = q).
    { symmetry. apply (Nat.div_unique _ _ _ (k - 1)); lia. }
    rewrite Hsize. apply split_rows_length; [exact Hq | lia | nia].
Qed.

End ChunkCount.

Lemma chunked_forward_equals_standard_witness :
  run_group (map (rank_forward Linear1D_Row.divide) [ex_chunked0; ex_chunked1])
  = run_group (map (rank_forward Linear1D_Row.divide)
                 (map to_standard [ex_chunked0; ex_chunked1])).
Proof.
  apply (chunked_forward_equals_standard Linear1D_Row.divide 4
           ex_chunked0 [ex_chunked1]);
    try reflexivity; repeat constructor.
Defined.

(** C1, at a layer with five output rows and [stream_chunk_num = 4] in
    eval mode: [chunk_weight] stores three blocks, the fourth iteration
    of the issue loop reads [self.weight_list[3]], and every rank raises
    [IndexError] where the standard forward pass returns the output. *)
Theorem chunked_forward_index_error :
  length (Linear1D_Row.weight_list (fst ex_short0)) = 3
  /\ run_group (map (rank_forward Linear1D_Row.divide) [ex_short0; ex_short1])
     = Finished
         [inl (IndexError "tuple index out of range");
          inl (IndexError "tuple index out of range")]
  /\ run_group (map (rank_forward Linear1D_Row.divide)
                  (map to_standard [ex_short0; ex_short1]))
     = Finished
         [inr (Single (mkTensor 5 [[105; 110; 116; 125; 119]]%Z));
          inr (Single (mkTensor 5 [[105; 110; 116; 125; 119]]%Z))].
Proof.
  repeat split; reflexivity.
Qed.

(** ** The column-parallel forward pass over a group *)

Section ColGroup.
Context {R : Type} `{Scalar R}.

Lemma col_forward_gather (d : (ColRank R)) :
  col_check_passes d ->
  Linear1D_Col.gather_output (fst d) = true ->
  col_forward d = AllGather (output_parallel d) (fun s => Ret (col_result d s)).
Proof.
  unfold col_check_passes, col_forward, Linear1D_Col.forward, output_parallel,
    col_result.
  intros Hc Hg. apply Nat.eqb_eq in Hc. rewrite Hc, Hg.
  now destruct (Linear1D_Col.skip_bias_add (fst d)).
Qed.

Lemma col_forward_local (d : (ColRank R)) :
  col_check_passes d ->
  Linear1D_Col.gather_output (fst d) = false ->
  col_forward d = Ret (col_result d (output_parallel d)).
Proof.
  unfold col_check_passes, col_forward, Linear1D_Col.forward, output_parallel,
    col_result.
  intros Hc Hg. apply Nat.eqb_eq in Hc. rewrite Hc, Hg.
  now destruct (Linear1D_Col.skip_bias_add (fst d)).
Qed.

Lemma output_parallel_width (d : (ColRank R)) :
  t_width (output_parallel d) = length (t_rows (Linear1D_Col.weight (fst d))).
Proof.
  unfold output_parallel, Linear1D_Col.linear_with_async_comm, F_linear.
  now destruct (if Linear1D_Col.skip_bias_add (fst d) then None
                else Linear1D_Col.bias (fst d)).
Qed.

Lemma all_gather_width (m a : nat) (t : Tensor R) (ts : list (Tensor R)) :
  t_width t = a ->
  Forall (fun t' => t_width t' = m) ts ->
  t_width (all_gather t ts) = a + m * length ts.
Proof.
  unfold all_gather. intros Ht Hts. revert t a Ht.
  induction Hts as [|t' ts Ht' Hts IH]; intros t a Ht; cbn [fold_left length].
  - lia.
  - rewrite (IH (cat2 t t') (a + m)); [lia|]. cbn. now rewrite Ht, Ht'.
Qed.

End ColGroup.

(** ** The column-parallel group against the dense layer *)

Section ColDense.
Context {R : Type} `{Scalar R}.

Lemma add_bias_rows_cat (A B : list (list R)) (ba bb : list R) :
  Forall (fun r => length r = length ba) A ->
  map2 (@app R) (map (fun r => map2 radd r ba) A) (map (fun r => map2 radd r bb) B)
  = map (fun r => map2 radd r (ba ++ bb)) (map2 (@app R) A B).
Proof.
  revert B. induction A as [|a A IH]; intros [|b B] HA; try reflexivity.
  inversion HA; subst. cbn [map map2]. f_equal.
  - symmetry. apply map2_app. assumption.
  - apply IH. assumption.
Qed.

(** Adding two biases to two tensors and joining the results is adding
    the joined biases to the joined tensors. *)
Lemma add_bias_cat2 (a b : Tensor R) (ba bb : list R) :
  tensor_wf a -> t_width a = length ba ->
  cat2 (add_bias a ba) (add_bias b bb) = add_bias (cat2 a b) (ba ++ bb).
Proof.
  intros Ha Hw. unfold cat2, add_bias; cbn. f_equal.
  apply add_bias_rows_cat. unfold tensor_wf in Ha. rewrite <- Hw. exact Ha.
Qed.

Lemma add_bias_wf (a : Tensor R) (b : list R) :
  tensor_wf a -> t_width a = length b -> tensor_wf (add_bias a b).
Proof.
  intros Ha Hw. unfold tensor_wf, add_bias in *; cbn.
  rewrite Forall_map. eapply Forall_impl; [| exact Ha].
  intros r Hr. cbn in Hr. rewrite length_map2, Hr, Hw. apply Nat.min_id.
Qed.

Lemma F_linear_width (x w : Tensor R) (b : option (list R)) :
  t_width (F_linear x w b) = length (t_rows w).
Proof.
  unfold F_linear. destruct b; reflexivity.
Qed.

Lemma cat_fold_add_bias {X : Type} (F : X -> Tensor R) (b : X -> list R)
  (l : list X) (a : Tensor R) (ba : list R) :
  tensor_wf a -> t_width a = length ba ->
  (forall i, In i l -> tensor_wf (F i) /\ t_width (F i) = length (b i)) ->
  fold_left cat2 (map (fun i => add_bias (F i) (b i)) l) (add_bias a ba)
  = add_bias (fold_left cat2 (map F l) a) (ba ++ concat (map b l)).
Proof.
  revert a ba. induction l as [|i l IH]; intros a ba Ha Hw Hl.
  - cbn. rewrite app_nil_r. reflexivity.
  - cbn [map fold_left concat].
    destruct (Hl i (or_introl eq_refl)) as [Hi Hwi].
    rewrite add_bias_cat2 by assumption.
    rewrite IH.
    + rewrite app_assoc. reflexivity.
    + apply cat2_wf; assumption.
    + cbn. rewrite length_app. congruence.
    + intros j Hj. apply Hl. right. exact Hj.
Qed.

(** The local products of the ranks on one input, joined in rank order,
    are the product with the stacked weight. *)
Lemma gather_products (x : Tensor R) (d0 : ColRank R) (ds : list (ColRank R)) :
  all_gather (F_linear x (Linear1D_Col.weight (fst d0)) None)
    (map (fun d => F_linear x (Linear1D_Col.weight (fst d)) None) ds)
  = F_linear x (col_dense_weight d0 ds) None.
Proof.
  unfold all_gather.
  rewrite <- (map_map (fun d => Linear1D_Col.weight (fst d))
                (fun c => F_linear x c None)).
  rewrite (linear_cat_chunks x _ _ (t_width (Linear1D_Col.weight (fst d0)))).
  unfold col_dense_weight. cbn [map concat]. rewrite map_map. reflexivity.
Qed.

(** The same with the bias shards added before the join. *)
Lemma gather_products_bias (x : Tensor R) (d0 : ColRank R) (ds : list (ColRank R)) :
  Forall bias_fits (d0 :: ds) ->
  all_gather
    (F_linear x (Linear1D_Col.weight (fst d0)) (Linear1D_Col.bias (fst d0)))
    (map (fun d => F_linear x (Linear1D_Col.weight (fst d))
                     (Linear1D_Col.bias (fst d))) ds)
  = F_linear x (col_dense_weight d0 ds) (Some (col_dense_bias d0 ds)).
Proof.
  intros Hfit. inversion Hfit as [|? ? [b0 [Hb0 Hl0]] Hfits]; subst.
  unfold all_gather.
  rewrite (map_ext_in _
             (fun d => add_bias (F_linear x (Linear1D_Col.weight (fst d)) None)
                         (bias_shard d))).
  2:{ intros d Hd. rewrite Forall_forall in Hfits.
      destruct (Hfits d Hd) as [b [Hb _]].
      unfold bias_shard. rewrite Hb. reflexivity. }
  rewrite Hb0.
  change (F_linear x (Linear1D_Col.weight (fst d0)) (Some b0))
    with (add_bias (F_linear x (Linear1D_Col.weight (fst d0)) None) b0).
  rewrite (cat_fold_add_bias
             (fun d => F_linear x (Linear1D_Col.weight (fst d)) None) bias_shard).
  - pose proof (gather_products x d0 ds) as Hg. unfold all_gather in Hg.
    rewrite Hg. unfold col_dense_bias, bias_shard at 2. cbn [map concat].
    rewrite Hb0. reflexivity.
  - apply F_linear_wf.
  - rewrite F_linear_width. symmetry. exact Hl0.
  - intros d Hd. split; [apply F_linear_wf |].
    rewrite F_linear_width. rewrite Forall_forall in Hfits.
    destruct (Hfits d Hd) as [b [Hb Hl]]. unfold bias_shard. rewrite Hb.
    symmetry. exact Hl.
Qed.

End ColDense.

Lemma run_col_gather {R : Type} `{Scalar R} (d0 : ColRank R) (ds : list (ColRank R)) :
  Forall col_check_passes (d0 :: ds) ->
  Forall (fun d => Linear1D_Col.gather_output (fst d) = true) (d0 :: ds) ->
  run_group (map col_forward (d0 :: ds))
  = Finished
      (map (fun d =>
              inr (col_result d
                     (all_gather (output_parallel d0) (map output_parallel ds))))
         (d0 :: ds)).
Proof.
  intros Hcheck Hg. cbn [run_group map].
  inversion Hcheck as [|? ? Hc0 Hcs]; inversion Hg as [|? ? Hg0 Hgs]; subst.
  rewrite (col_forward_gather d0 Hc0 Hg0).
  rewrite (map_ext_in col_forward
             (fun d => AllGather (output_parallel d)
                         (fun s => Ret (col_result d s)))).
  - rewrite (run_all_gather [] output_parallel (fun d s => Ret (col_result d s))).
    apply (run_all_ret []
             (fun d => col_result d
                         (all_gather (output_parallel d0) (map output_parallel ds)))).
  - intros d Hd. rewrite Forall_forall in Hcs, Hgs.
    apply col_forward_gather; auto.
Qed.

Lemma output_parallel_same_input {R : Type} `{Scalar R} (x : Tensor R)
  (ds : list (ColRank R)) (b : ColRank R -> option (list R)) :
  Forall (fun d => snd d = x) ds ->
  Forall (fun d => (if Linear1D_Col.skip_bias_add (fst d) then None
                    else Linear1D_Col.bias (fst d)) = b d) ds ->
  map output_parallel ds
  = map (fun d => F_linear x (Linear1D_Col.weight (fst d)) (b d)) ds.
Proof.
  intros Hx Hb. apply map_ext_in. intros d Hd.
  rewrite Forall_forall in Hx, Hb.
  unfold output_parallel, Linear1D_Col.linear_with_async_comm.
  rewrite (Hx d Hd), (Hb d Hd). reflexivity.
Qed.

(** A column-parallel group with [gather_output], every rank called with
    the same input: each rank returns the output of the dense layer whose
    weight is the ranks' weight shards stacked in rank order and whose
    bias is their bias shards joined in that order.  With [skip_bias_add]
    the gathered output is the dense product without bias, of the full
    width, and the bias handed back beside it is the rank's own shard. *)
Theorem col_gather_equals_dense {R : Type} `{Scalar R} (x : Tensor R)
  (d0 : ColRank R) (ds : list (ColRank R))
  (Hcheck : Forall col_check_passes (d0 :: ds))
  (Hgather : Forall (fun d => Linear1D_Col.gather_output (fst d) = true) (d0 :: ds))
  (Hinput : Forall (fun d => snd d = x) (d0 :: ds)) :
  (Forall (fun d => Linear1D_Col.skip_bias_add (fst d) = false) (d0 :: ds) ->
   Forall bias_fits (d0 :: ds) ->
   run_group (map col_forward (d0 :: ds))
   = Finished
       (map (fun _ =>
               inr (Single (Linear_forward (col_dense_weight d0 ds)
                              (Some (col_dense_bias d0 ds)) x)))
          (d0 :: ds)))
  /\
  (Forall (fun d => Linear1D_Col.skip_bias_add (fst d) = false) (d0 :: ds) ->
   Forall (fun d => Linear1D_Col.bias (fst d) = None) (d0 :: ds) ->
   run_group (map col_forward (d0 :: ds))
   = Finished
       (map (fun _ => inr (Single (Linear_forward (col_dense_weight d0 ds) None x)))
          (d0 :: ds)))
  /\
  (Forall (fun d => Linear1D_Col.skip_bias_add (fst d) = true) (d0 :: ds) ->
   run_group (map col_forward (d0 :: ds))
   = Finished
       (map (fun d =>
               inr (WithBias (Linear_forward (col_dense_weight d0 ds) None x)
                      (Linear1D_Col.bias (fst d))))
          (d0 :: ds))).
Proof.
  pose proof (run_col_gather d0 ds Hcheck Hgather) as Hrun.
  inversion Hinput as [|? ? Hx0 Hxs]; subst.
  unfold Linear_forward.
  split; [|split].
  - intros Hskip Hfit. rewrite Hrun.
    inversion Hskip as [|? ? Hs0 Hss]; subst.
    rewrite (output_parallel_same_input (snd d0) ds
               (fun d => Linear1D_Col.bias (fst d)) Hxs).
    2:{ eapply Forall_impl; [| exact Hss]. intros d ->. reflexivity. }
    replace (output_parallel d0)
      with (F_linear (snd d0) (Linear1D_Col.weight (fst d0))
              (Linear1D_Col.bias (fst d0)))
      by (unfold output_parallel, Linear1D_Col.linear_with_async_comm;
          rewrite Hs0; reflexivity).
    rewrite (gather_products_bias (snd d0) d0 ds Hfit).
    f_equal. apply map_ext_in. intros d Hd. rewrite Forall_forall in Hskip.
    unfold col_result. rewrite (Hskip d Hd). reflexivity.
  - intros Hskip Hnone. rewrite Hrun.
    inversion Hskip as [|? ? Hs0 Hss]; subst.
    inversion Hnone as [|? ? Hn0 Hns]; subst.
    rewrite (output_parallel_same_input (snd d0) ds (fun _ => None) Hxs).
    2:{ apply Forall_forall. intros d Hd. rewrite Forall_forall in Hss, Hns.
        rewrite (Hss d Hd). apply Hns. exact Hd. }
    replace (output_parallel d0)
      with (F_linear (snd d0) (Linear1D_Col.weight (fst d0)) None)
      by (unfold output_parallel, Linear1D_Col.linear_with_async_comm;
          rewrite Hs0, Hn0; reflexivity).
    rewrite (gather_products (snd d0) d0 ds).
    f_equal. apply map_ext_in. intros d Hd. rewrite Forall_forall in Hskip.
    unfold col_result. rewrite (Hskip d Hd). reflexivity.
  - intros Hskip. rewrite Hrun.
    inversion Hskip as [|? ? Hs0 Hss]; subst.
    rewrite (output_parallel_same_input (snd d0) ds (fun _ => None) Hxs).
    2:{ eapply Forall_impl; [| exact Hss]. intros d ->. reflexivity. }
    replace (output_parallel d0)
      with (F_linear (snd d0) (Linear1D_Col.weight (fst d0)) None)
      by (unfold output_parallel, Linear1D_Col.linear_with_async_comm;
          rewrite Hs0; reflexivity).
    rewrite (gather_products (snd d0) d0 ds).
    f_equal. apply map_ext_in. intros d Hd. rewrite Forall_forall in Hskip.
    unfold col_result. rewrite (Hskip d Hd). reflexivity.
Qed.

Lemma col_gather_equals_dense_witness :
  run_group (map col_forward [ex_gather0; ex_gather1])
  = Finished
      [inr (Single (Linear_forward (mkTensor 2 [[1; 0]; [0; 1]; [1; 1]; [2; 0]]%Z)
                      (Some [10; 20; 30; 40]%Z) (mkTensor 2 [[3; 4]]%Z)));
       inr (Single (Linear_forward (mkTensor 2 [[1; 0]; [0; 1]; [1; 1]; [2; 0]]%Z)
                      (Some [10; 20; 30; 40]%Z) (mkTensor 2 [[3; 4]]%Z)))].
Proof.
  assert (Hcheck : Forall col_check_passes [ex_gather0; ex_gather1])
    by (repeat constructor).
  assert (Hgather : Forall (fun d => Linear1D_Col.gather_output (fst d) = true)
                      [ex_gather0; ex_gather1])
    by (repeat constructor).
  assert (Hinput : Forall (fun d => snd d = mkTensor 2 [[3; 4]]%Z)
                     [ex_gather0; ex_gather1])
    by (repeat constructor).
  assert (Hskip : Forall (fun d => Linear1D_Col.skip_bias_add (fst d) = false)
                    [ex_gather0; ex_gather1])
    by (repeat constructor).
  assert (Hfit : Forall bias_fits [ex_gather0; ex_gather1]).
  { constructor; [eexists; split; reflexivity |].
    constructor; [eexists; split; reflexivity | constructor]. }
  exact (proj1 (col_gather_equals_dense (mkTensor 2 [[3; 4]]%Z)
                  ex_gather0 [ex_gather1] Hcheck Hgather Hinput) Hskip Hfit).
Defined.

(** ** A column-parallel layer followed by a row-parallel one *)

Section TwoLayers.
Context {R : Type} `{ScalarLaws R}.
Variable divide : nat -> nat -> Exc nat.

Lemma output_parallel_wf (d : ColRank R) :
  Linear1D_Col.skip_bias_add (fst d) = false -> bias_fits d ->
  tensor_wf (output_parallel d).
Proof.
  intros Hskip [b [Hb Hl]].
  unfold output_parallel, Linear1D_Col.linear_with_async_comm.
  rewrite Hskip, Hb.
  change (tensor_wf (add_bias (F_linear (snd d) (Linear1D_Col.weight (fst d)) None) b)).
  apply add_bias_wf; [apply F_linear_wf |].
  rewrite F_linear_width. symmetry. exact Hl.
Qed.

Lemma output_parallel_rows (d : ColRank R) :
  length (t_rows (output_parallel d)) = length (t_rows (snd d)).
Proof.
  unfold output_parallel, Linear1D_Col.linear_with_async_comm, F_linear, add_bias.
  destruct (if Linear1D_Col.skip_bias_add (fst d) then None
            else Linear1D_Col.bias (fst d)); cbn; now rewrite ?length_map.
Qed.

Lemma block_row_check (x : Tensor R) (O : nat) (p : Block R) :
  block_ok O p -> check_passes divide (block_row x p).
Proof.
  intros (_ & _ & Hpar & _ & _ & Hw & _).
  unfold check_passes, shard_of. rewrite row_check_parallel by exact Hpar.
  cbn [fst snd block_row]. rewrite Hpar.
  rewrite output_parallel_width. cbn [fst block_col]. rewrite <- Hw.
  now rewrite Nat.eqb_refl.
Qed.

Lemma block_row_shard_ok (x : Tensor R) (O : nat) (p : Block R) :
  block_ok O p -> bias_fits (block_col x p) ->
  shard_ok (length (t_rows x)) O (shard_of (block_row x p))
    (Linear1D_Row.weight (fst (block_row x p))).
Proof.
  intros (_ & Hskip & Hpar & _ & Hwf & Hw & HO) Hfit.
  unfold shard_of. cbn [fst snd block_row]. rewrite Hpar.
  repeat split.
  - apply output_parallel_wf; assumption.
  - exact Hwf.
  - rewrite output_parallel_width. symmetry. exact Hw.
  - apply output_parallel_rows.
  - exact HO.
Qed.

(** The sharded inputs of the second layers, joined in rank order, are
    the output of the dense first layer. *)
Lemma block_dense_input (x : Tensor R) (O : nat) (p0 : Block R) (ps : list (Block R)) :
  Forall (block_ok O) (p0 :: ps) ->
  Forall bias_fits (map (block_col x) (p0 :: ps)) ->
  dense_input (block_row x p0) (map (block_row x) ps)
  = Linear_forward (col_dense_weight (block_col x p0) (map (block_col x) ps))
      (Some (col_dense_bias (block_col x p0) (map (block_col x) ps))) x.
Proof.
  intros Hok Hfit. unfold dense_input, Linear_forward.
  rewrite <- (gather_products_bias x (block_col x p0) (map (block_col x) ps) Hfit).
  unfold all_gather.
  inversion Hok as [|? ? Hok0 Hoks]; subst.
  f_equal.
  - rewrite !map_map. apply map_ext_in. intros p Hp.
    rewrite Forall_forall in Hoks.
    destruct (Hoks p Hp) as (_ & Hskip & Hpar & _).
    unfold shard_of. cbn [fst snd block_row]. rewrite Hpar.
    unfold output_parallel, Linear1D_Col.linear_with_async_comm.
    cbn [fst snd block_col]. rewrite Hskip. reflexivity.
  - destruct Hok0 as (_ & Hskip & Hpar & _).
    unfold shard_of. cbn [fst snd block_row]. rewrite Hpar.
    unfold output_parallel, Linear1D_Col.linear_with_async_comm.
    cbn [fst snd block_col]. rewrite Hskip. reflexivity.
Qed.

End TwoLayers.

(** Ranks that each hold a column-parallel layer without gather followed
    by a row-parallel layer with a sharded input, all called with the
    same input: the first layers return their local outputs without any
    collective, and on these the second layers return, on every rank, the
    output of the two dense layers applied one after the other -- the
    first with the stacked weight and bias shards of the column-parallel
    layers, the second with the row-parallel weight shards joined along
    the input dimension and the bias added once. *)
Theorem column_then_row_equals_two_dense_layers {R : Type} `{ScalarLaws R}
  (divide : nat -> nat -> Exc nat) (x : Tensor R) (O : nat) (b2 : list R)
  (p0 : Block R) (ps : list (Block R))
  (Hcheck : Forall col_check_passes (map (block_col x) (p0 :: ps)))
  (Hok : Forall (block_ok O) (p0 :: ps))
  (Hfit : Forall bias_fits (map (block_col x) (p0 :: ps)))
  (Hbias : Forall (fun p => Linear1D_Row.skip_bias_add (snd p) = false
                            /\ Linear1D_Row.bias (snd p) = Some b2) (p0 :: ps)) :
  Forall (fun p => no_collective (col_forward (block_col x p)) = true) (p0 :: ps)
  /\
  run_group (map col_forward (map (block_col x) (p0 :: ps)))
  = Finished
      (map (fun p => inr (Single (output_parallel (block_col x p)))) (p0 :: ps))
  /\
  run_group (map (rank_forward divide) (map (block_row x) (p0 :: ps)))
  = Finished
      (map (fun _ =>
              inr (Single
                     (Linear_forward
                        (dense_weight (block_row x p0) (map (block_row x) ps))
                        (Some b2)
                        (Linear_forward
                           (col_dense_weight (block_col x p0)
                              (map (block_col x) ps))
                           (Some (col_dense_bias (block_col x p0)
                                    (map (block_col x) ps)))
                           x))))
         (p0 :: ps)).
Proof.
  split; [|split].
  - apply Forall_forall. intros p Hp. rewrite col_forward_local.
    + reflexivity.
    + rewrite Forall_forall in Hcheck. apply Hcheck. apply in_map. exact Hp.
    + rewrite Forall_forall in Hok. destruct (Hok p Hp) as (Hg & _). exact Hg.
  - cbn [run_group map].
    rewrite (map_map (block_col x) col_forward).
    rewrite (map_ext_in (fun p => col_forward (block_col x p))
               (fun p => Ret (col_result (block_col x p)
                                (output_parallel (block_col x p))))).
    2:{ intros p Hp. apply col_forward_local.
        - rewrite Forall_forall in Hcheck. apply Hcheck.
          right. apply in_map. exact Hp.
        - rewrite Forall_forall in Hok.
          destruct (Hok p (or_intror Hp)) as (Hg & _). exact Hg. }
    rewrite col_forward_local.
    2:{ inversion Hcheck; assumption. }
    2:{ inversion Hok as [|? ? (Hg & _) _]; exact Hg. }
    rewrite (run_all_ret []
               (fun p => col_result (block_col x p)
                           (output_parallel (block_col x p)))).
    apply (f_equal Finished).
    apply (map_ext_in _
             (fun p => inr (Single (output_parallel (block_col x p)))) (p0 :: ps)).
    intros p Hp. rewrite Forall_forall in Hok.
    destruct (Hok p Hp) as (_ & Hskip & _).
    unfold col_result. cbn [fst block_col]. rewrite Hskip. reflexivity.
  - change (map (block_row x) (p0 :: ps))
      with (block_row x p0 :: map (block_row x) ps).
    rewrite (run_standard divide).
    + rewrite <- (block_dense_input x O p0 ps Hok Hfit).
      unfold Linear_forward at 1.
      change (F_linear ?i ?w (Some b2)) with (add_bias (F_linear i w None) b2).
      rewrite (dense_equals_sum (length (t_rows x)) O).
      * change (block_row x p0 :: map (block_row x) ps)
          with (map (block_row x) (p0 :: ps)).
        rewrite map_map. f_equal. apply map_ext_in. intros p Hp.
        rewrite Forall_forall in Hbias. destruct (Hbias p Hp) as [Hs Hb].
        unfold Linear1D_Row.finish. cbn [fst block_row]. rewrite Hs, Hb.
        reflexivity.
      * change (block_row x p0 :: map (block_row x) ps)
          with (map (block_row x) (p0 :: ps)).
        apply Forall_map. rewrite Forall_forall in *. intros p Hp.
        apply block_row_shard_ok; [apply Hok; exact Hp |].
        apply Hfit. apply in_map. exact Hp.
    + change (block_row x p0 :: map (block_row x) ps)
        with (map (block_row x) (p0 :: ps)).
      apply Forall_map. eapply Forall_impl; [| exact Hok].
      intros p Hp. apply (block_row_check divide x O). exact Hp.
    + change (block_row x p0 :: map (block_row x) ps)
        with (map (block_row x) (p0 :: ps)).
      apply Forall_map. eapply Forall_impl; [| exact Hok].
      intros p (_ & _ & _ & Hstd & _). cbn [fst block_row]. rewrite Hstd. lia.
Qed.

Lemma column_then_row_equals_two_dense_layers_witness :
  run_group
    (map (rank_forward Linear1D_Row.divide)
       (map (block_row (mkTensor 2 [[3; 4]]%Z)) [ex_block0; ex_block1]))
  = Finished
      (map (fun _ =>
              inr (Single
                     (Linear_forward
                        (mkTensor 4 [[1; 2; 1; 0]; [3; 4; 0; 1];
                                     [5; 6; 1; 1]; [7; 8; 2; 2]]%Z)
                        (Some [100; 100; 100; 100]%Z)
                        (Linear_forward
                           (mkTensor 2 [[1; 0]; [0; 1]; [1; 1]; [2; 0]]%Z)
                           (Some [10; 20; 30; 40]%Z)
                           (mkTensor 2 [[3; 4]]%Z)))))
         [ex_block0; ex_block1]).
Proof.
  assert (Hcheck : Forall col_check_passes
                     (map (block_col (mkTensor 2 [[3; 4]]%Z)) [ex_block0; ex_block1]))
    by (repeat constructor).
  assert (Hok : Forall (block_ok 4) [ex_block0; ex_block1]).
  { repeat constructor. }
  assert (Hfit : Forall bias_fits
                   (map (block_col (mkTensor 2 [[3; 4]]%Z)) [ex_block0; ex_block1])).
  { constructor; [eexists; split; reflexivity |].
    constructor; [eexists; split; reflexivity | constructor]. }
  assert (Hbias : Forall (fun p => Linear1D_Row.skip_bias_add (snd p) = false
                                   /\ Linear1D_Row.bias (snd p)
                                      = Some [100; 100; 100; 100]%Z)
                    [ex_block0; ex_block1])
    by (repeat constructor).
  exact (proj2 (proj2 (column_then_row_equals_two_dense_layers Linear1D_Row.divide
                  (mkTensor 2 [[3; 4]]%Z) 4 [100; 100; 100; 100]%Z
                  ex_block0 [ex_block1] Hcheck Hok Hfit Hbias))).
Defined.

(** ** More on the conversion of a dense layer *)

(** [from_native_module] hands the module's own parameters to the
    constructor, which then runs no initializer: the result of a
    conversion, and the process it leaves, are the same whatever weight
    and bias initializers are passed. *)
Theorem from_native_module_ignores_initializers {R : Type} `{Scalar R}
  (module : Linear R) (arg : GroupArg) (w : World R) :
  (forall gather_output skip_bias_add wi bi wi' bi',
      Linear1D_Col.from_native_module module arg
        (Linear1D_Col.mkKwargs gather_output skip_bias_add wi bi) w
      = Linear1D_Col.from_native_module module arg
          (Linear1D_Col.mkKwargs gather_output skip_bias_add wi' bi') w)
  /\
  (forall parallel_input skip_bias_add stream_chunk_num wi bi wi' bi',
      Linear1D_Row.from_native_module module arg
        (Linear1D_Row.mkKwargs parallel_input skip_bias_add wi bi stream_chunk_num) w
      = Linear1D_Row.from_native_module module arg
          (Linear1D_Row.mkKwargs parallel_input skip_bias_add wi' bi'
             stream_chunk_num) w).
Proof.
  split; intros.
  - unfold Linear1D_Col.from_native_module, Linear1D_Col.__init__. reflexivity.
  - unfold Linear1D_Row.from_native_module, Linear1D_Row.__init__. reflexivity.
Qed.

Ltac conv_step :=
  cbv beta iota zeta
    delta [single_group mbind mret mraise emit massert resolve_group
           initial_seed default is_some negb orb andb];
  cbn [lin_in_features lin_out_features lin_weight lin_bias
       w_data w_distributed b_data b_distributed
       ambient_rng events default_group cuda_available broadcast_from
       Linear1D_Col.arg_in_features Linear1D_Col.arg_out_features
       Linear1D_Col.arg_bias Linear1D_Col.arg_process_group
       Linear1D_Col.arg_gather_output Linear1D_Col.arg_skip_bias_add
       Linear1D_Col.arg_weight Linear1D_Col.arg_bias_
       Linear1D_Col.kw_gather_output Linear1D_Col.kw_skip_bias_add
       Linear1D_Row.arg_in_features Linear1D_Row.arg_out_features
       Linear1D_Row.arg_bias Linear1D_Row.arg_process_group
       Linear1D_Row.arg_parallel_input Linear1D_Row.arg_skip_bias_add
       Linear1D_Row.arg_weight Linear1D_Row.arg_bias_
       Linear1D_Row.arg_stream_chunk_num
       Linear1D_Row.kw_parallel_input Linear1D_Row.kw_skip_bias_add
       Linear1D_Row.kw_stream_chunk_num];
  try match goal with
      | |- context [if ?c then _ else _] => destruct c eqn:?
      end.



(** A list of process groups that does not hold exactly one group is
    rejected by the first assertion of [from_native_module], with the
    number of groups in the message: this comes before the comparison of
    the feature count with the world size, so no module is returned as it
    is, and the process is left as it was. *)
Theorem from_native_module_rejects_group_list {R : Type} `{Scalar R}
  (module : Linear R) (pgs : list (option ProcessGroup)) (w : World R)
  (Hlen : length pgs <> 1) :
  (forall kwargs,
      Linear1D_Col.from_native_module module (GroupList pgs) kwargs w
      = (w, inl (AssertionError
                   ("Expected only one process group, got "
                    ++ show_nat (length pgs) ++ "."))))
  /\
  (forall kwargs,
      Linear1D_Row.from_native_module module (GroupList pgs) kwargs w
      = (w, inl (AssertionError
                   ("Expected only one process group, got "
                    ++ show_nat (length pgs) ++ ".")))).
Proof.
  assert (Hsingle : single_group (GroupList pgs) w
                    = (w, inl (AssertionError
                                 ("Expected only one process group, got "
                                  ++ show_nat (length pgs) ++ ".")))).
  { destruct pgs as [|pg [|pg' pgs]]; try reflexivity.
    exfalso. apply Hlen. reflexivity. }
  split; intros kwargs.
  - unfold Linear1D_Col.from_native_module, mbind at 1. rewrite Hsingle.
    reflexivity.
  - unfold Linear1D_Row.from_native_module, mbind at 1. rewrite Hsingle.
    reflexivity.
Qed.

Lemma from_native_module_rejects_group_list_witness :
  Linear1D_Col.from_native_module ex_dense_small (GroupList [None; None])
    ex_col_kwargs ex_world
  = (ex_world, inl (AssertionError "Expected only one process group, got 2."))
  /\
  Linear1D_Row.from_native_module ex_dense_small (GroupList []) ex_row_kwargs
    ex_world
  = (ex_world, inl (AssertionError "Expected only one process group, got 0.")).
Proof.
  split.
  - apply (proj1 (from_native_module_rejects_group_list ex_dense_small
                    [None; None] ex_world ltac:(discriminate))).
  - apply (proj2 (from_native_module_rejects_group_list ex_dense_small
                    [] ex_world ltac:(discriminate))).
Defined.

(** ** More on construction *)

(** The sanity checks of the constructors: a weight passed without the
    bias that [bias=True] asks for, and a bias passed without a weight,
    are rejected by an assertion.  The assertions follow the resolution
    of the group and the creation of the randomizer, and come before the
    parameters: when they fire, no parameter has been allocated or
    sharded. *)
Theorem init_rejects_inconsistent_parameters {R : Type} `{Scalar R} (w : World R) :
  (forall a : Linear1D_Col.Args R,
      Linear1D_Col.arg_weight a <> None ->
      default true (Linear1D_Col.arg_bias a) = true ->
      Linear1D_Col.arg_bias_ a = None ->
      snd (Linear1D_Col.__init__ a w)
      = inl (AssertionError
               "bias_ must be provided if bias is True when weight is not None")
      /\ parameters_untouched w (fst (Linear1D_Col.__init__ a w)))
  /\
  (forall a : Linear1D_Col.Args R,
      Linear1D_Col.arg_weight a = None ->
      Linear1D_Col.arg_bias_ a <> None ->
      default false (Linear1D_Col.arg_skip_bias_add a)
      && negb (default true (Linear1D_Col.arg_bias a)) = false ->
      snd (Linear1D_Col.__init__ a w)
      = inl (AssertionError "bias_ must be None if weight is None")
      /\ parameters_untouched w (fst (Linear1D_Col.__init__ a w)))
  /\
  (forall a : Linear1D_Row.Args R,
      Linear1D_Row.arg_weight a <> None ->
      default true (Linear1D_Row.arg_bias a) = true ->
      Linear1D_Row.arg_bias_ a = None ->
      snd (Linear1D_Row.__init__ a w)
      = inl (AssertionError
               "bias_ must be provided if bias is True when weight is not None")
      /\ parameters_untouched w (fst (Linear1D_Row.__init__ a w)))
  /\
  (forall a : Linear1D_Row.Args R,
      Linear1D_Row.arg_weight a = None ->
      Linear1D_Row.arg_bias_ a <> None ->
      default false (Linear1D_Row.arg_skip_bias_add a)
      && negb (default true (Linear1D_Row.arg_bias a)) = false ->
      snd (Linear1D_Row.__init__ a w)
      = inl (AssertionError "bias_ must be None if weight is None")
      /\ parameters_untouched w (fst (Linear1D_Row.__init__ a w))).
Proof.
  repeat split; revert H0; try revert H1; try revert H2.
  all: unfold Linear1D_Col.__init__, Linear1D_Row.__init__.
  all: intros.
  all: repeat match goal with
         | Hb : default true _ = true |- _ => rewrite Hb; clear Hb
         | Hb : _ = None |- _ => rewrite Hb; clear Hb
         | Hb : _ && _ = false |- _ => rewrite Hb; clear Hb
         end.
  all: rewrite ?andb_false_r.
  all: try (destruct (Linear1D_Col.arg_weight a); [reflexivity | contradiction]).
  all: try (destruct (Linear1D_Col.arg_bias_ a); [reflexivity | contradiction]).
  all: try (destruct (Linear1D_Row.arg_weight a); [reflexivity | contradiction]).
  all: try (destruct (Linear1D_Row.arg_bias_ a); [reflexivity | contradiction]).
Qed.

Lemma init_rejects_inconsistent_parameters_witness :
  snd (Linear1D_Col.__init__
         (Linear1D_Col.mkArgs 2 2 None None None None
            (Some (mkWeightParam ex_weight_2x2 false)) None
            ex_weight_init ex_bias_init)
         ex_world)
  = inl (AssertionError
           "bias_ must be provided if bias is True when weight is not None")
  /\
  snd (Linear1D_Row.__init__
         (Linear1D_Row.mkArgs 2 2 None None None None None
            (Some (mkBiasParam [5; 7]%Z false)) ex_weight_init ex_bias_init None)
         ex_world)
  = inl (AssertionError "bias_ must be None if weight is None").
Proof.
  split.
  - apply (proj1 (init_rejects_inconsistent_parameters ex_world));
      [discriminate | reflexivity | reflexivity].
  - apply (proj2 (proj2 (proj2 (init_rejects_inconsistent_parameters ex_world))));
      [reflexivity | discriminate | reflexivity].
Defined.

(** ** The chunked forward pass with fewer blocks than chunks *)

Section RowShort.
Context {R : Type} `{Scalar R}.
Variable divide : nat -> nat -> Exc nat.

(** The issue loop over a group whose ranks all hold [m] blocks, with
    more iterations to go than blocks left: the ranks issue the
    reductions of the blocks there are, and then all fail on the index. *)
Lemma run_issue_chunks_short {A : Type}
  (E : Rank R -> Prog R (list Handle) -> Prog R A) (d0 : Rank R) (ds : list (Rank R))
  (m : nat) :
  (forall d, transparent (E d)) ->
  (forall d, In d (d0 :: ds) -> length (Linear1D_Row.weight_list (fst d)) = m) ->
  forall (n i : nat) (hs : list Handle) (pending : list (Tensor R)),
    i <= m -> m < i + n ->
    run pending
      (E d0 (Linear1D_Row.issue_chunks (shard_of d0)
               (Linear1D_Row.weight_list (fst d0)) n i hs))
      (map (fun d =>
              E d (Linear1D_Row.issue_chunks (shard_of d)
                     (Linear1D_Row.weight_list (fst d)) n i hs)) ds)
    = Finished
        (map (fun _ => inl (IndexError "tuple index out of range")) (d0 :: ds)).
Proof.
  intros HE Hlen. induction n as [|n IH]; intros i hs pending Him Hmn; [lia|].
  destruct (Nat.eq_dec i m) as [-> | Hne].
  - assert (Hstep : forall d, In d (d0 :: ds) ->
              E d (Linear1D_Row.issue_chunks (shard_of d)
                     (Linear1D_Row.weight_list (fst d)) (S n) m hs)
              = Raise (IndexError "tuple index out of range")).
    { intros d Hd. cbn [Linear1D_Row.issue_chunks].
      replace (nth_error (Linear1D_Row.weight_list (fst d)) m) with (@None (Tensor R))
        by (symmetry; apply nth_error_None; rewrite (Hlen d Hd); lia).
      apply (tr_raise _ (HE d)). }
    rewrite (Hstep d0 (or_introl eq_refl)).
    rewrite (map_ext_in _ _ ds (fun d Hd => Hstep d (or_intror Hd))).
    apply (run_all_raise pending
             (fun _ : Rank R => IndexError "tuple index out of range") d0 ds).
  - assert (Hstep : forall d, In d (d0 :: ds) ->
              E d (Linear1D_Row.issue_chunks (shard_of d)
                     (Linear1D_Row.weight_list (fst d)) (S n) i hs)
              = AllReduceAsync
                  (F_linear (shard_of d)
                     (nth i (Linear1D_Row.weight_list (fst d)) (mkTensor 0 []))
                     None)
                  (fun h =>
                     E d (Linear1D_Row.issue_chunks (shard_of d)
                            (Linear1D_Row.weight_list (fst d)) n (S i)
                            (hs ++ [h])))).
    { intros d Hd. cbn [Linear1D_Row.issue_chunks].
      rewrite (nth_error_nth' _ (mkTensor 0 [])) by (rewrite (Hlen d Hd); lia).
      apply (tr_async _ (HE d)). }
    rewrite (Hstep d0 (or_introl eq_refl)).
    rewrite (map_ext_in _ _ ds (fun d Hd => Hstep d (or_intror Hd))).
    rewrite (run_all_reduce_async pending
               (fun d => F_linear (shard_of d)
                           (nth i (Linear1D_Row.weight_list (fst d)) (mkTensor 0 []))
                           None)
               (fun d h =>
                  E d (Linear1D_Row.issue_chunks (shard_of d)
                         (Linear1D_Row.weight_list (fst d)) n (S i) (hs ++ [h])))).
    apply IH; lia.
Qed.

Lemma run_chunked_short (d0 : Rank R) (ds : list (Rank R)) (k : Z) (m : nat) :
  (1 < k)%Z ->
  Forall (check_passes divide) (d0 :: ds) ->
  Forall (fun d => Linear1D_Row.stream_chunk_num (fst d) = k) (d0 :: ds) ->
  Forall (fun d => Linear1D_Row.training (fst d) = false) (d0 :: ds) ->
  Forall (fun d => length (Linear1D_Row.weight_list (fst d)) = m) (d0 :: ds) ->
  m < Z.to_nat k ->
  run_group (map (rank_forward divide) (d0 :: ds))
  = Finished
      (map (fun _ => inl (IndexError "tuple index out of range")) (d0 :: ds)).
Proof.
  intros Hk Hc Hnum Htr Hlen Hm.
  assert (Hfw : forall d, In d (d0 :: ds) ->
            rank_forward divide d
            = bind (bind (Linear1D_Row.issue_chunks (shard_of d)
                            (Linear1D_Row.weight_list (fst d))
                            (Z.to_nat k) 0 []) after_issue) (finish_with d)).
  { rewrite Forall_forall in Hc, Hnum, Htr. intros d Hd.
    rewrite <- (Hnum d Hd). apply forward_chunked; auto.
    rewrite (Hnum d Hd). exact Hk. }
  cbn [run_group map].
  rewrite (Hfw d0 (or_introl eq_refl)).
  rewrite (map_ext_in _ _ ds (fun d Hd => Hfw d (or_intror Hd))).
  apply (run_issue_chunks_short
           (fun d p => bind (bind p after_issue) (finish_with d)) d0 ds m
           (fun d => transparent_bind2 _ _)).
  - rewrite Forall_forall in Hlen. exact Hlen.
  - lia.
  - lia.
Qed.

End RowShort.

Section BlockCount.
Context {R : Type} `{Scalar R}.

Lemma split_rows_count (fuel size : nat) (rows : list (list R)) :
  0 < size -> length rows <= fuel ->
  length (split_rows fuel size rows) = (length rows + size - 1) / size.
Proof.
  intros Hsize. revert rows. induction fuel as [|fuel IH]; intros rows Hfuel.
  - destruct rows; [|cbn in Hfuel; lia]. cbn.
    symmetry. apply Nat.div_small. lia.
  - destruct rows as [|r rows].
    + cbn. symmetry. apply Nat.div_small. lia.
    + cbn [split_rows length]. rewrite IH.
      2:{ rewrite length_skipn. cbn [length] in *. lia. }
      rewrite length_skipn. cbn [length].
      destruct (Nat.le_gt_cases (S (length rows)) size) as [Hle | Hgt].
      * replace (S (length rows) - size) with 0 by lia.
        rewrite (Nat.div_small (0 + size - 1)) by lia.
        apply (Nat.div_unique _ _ 1 (S (length rows) - 1)); lia.
      * replace (S (length rows) + size - 1)
          with ((S (length rows) - size + size - 1) + 1 * size) by lia.
        rewrite Nat.div_add by lia. lia.
Qed.

(** The number of blocks [torch.chunk] returns for [k] chunks of a tensor
    with [n] rows: [k] empty blocks when there is no row, and otherwise as
    many blocks of [ceil(n / k)] rows as it takes, which is at most [k]. *)
Lemma torch_chunk_count (w : Tensor R) (k : nat) :
  0 < k ->
  length (torch_chunk w k)
  = (if length (t_rows w) =? 0 then k
     else (length (t_rows w) + (length (t_rows w) + k - 1) / k - 1)
          / ((length (t_rows w) + k - 1) / k)).
Proof.
  intros Hk. unfold torch_chunk.
  destruct (length (t_rows w) =? 0) eqn:Hn.
  - apply repeat_length.
  - apply Nat.eqb_neq in Hn. rewrite length_map. apply split_rows_count; [|lia].
    apply Nat.div_str_pos. lia.
Qed.

Lemma torch_chunk_at_most (w : Tensor R) (k : nat) :
  0 < k -> length (torch_chunk w k) <= k.
Proof.
  intros Hk. rewrite torch_chunk_count by exact Hk.
  destruct (length (t_rows w) =? 0) eqn:Hn; [lia|].
  apply Nat.eqb_neq in Hn.
  set (n := length (t_rows w)) in *. set (s := (n + k - 1) / k).
  assert (Hs : n <= s * k).
  { pose proof (Nat.div_mod_eq (n + k - 1) k) as Hdm.
    pose proof (Nat.mod_upper_bound (n + k - 1) k ltac:(lia)) as Hub.
    fold s in Hdm. nia. }
  assert (Hpos : 0 < s) by (subst s; apply Nat.div_str_pos; lia).
  apply Nat.lt_succ_r. apply Nat.Div0.div_lt_upper_bound. nia.
Qed.

Lemma torch_chunk_few_rows (w : Tensor R) (k : nat) :
  0 < length (t_rows w) -> length (t_rows w) <= k ->
  length (torch_chunk w k) = length (t_rows w).
Proof.
  intros Hn Hk. rewrite torch_chunk_count by lia.
  replace (length (t_rows w) =? 0) with false by (symmetry; apply Nat.eqb_neq; lia).
  replace ((length (t_rows w) + k - 1) / k) with 1.
  - rewrite Nat.div_1_r. lia.
  - apply (Nat.div_unique _ _ 1 (length (t_rows w) - 1)); lia.
Qed.

Lemma torch_chunk_widths (w : Tensor R) (k : nat) :
  Forall (fun c => t_width c = t_width w) (torch_chunk w k).
Proof.
  unfold torch_chunk. destruct (length (t_rows w) =? 0).
  - apply Forall_forall. intros c Hc. apply repeat_spec in Hc. now subst.
  - apply Forall_map. apply Forall_forall. reflexivity.
Qed.

End BlockCount.

(** [chunk_weight] cuts the weight shard along the output dimension: the
    blocks it stores, taken in order, hold the rows of the weight, each
    block as wide as the weight; there are at most [stream_chunk_num] of
    them, exactly that many when [stream_chunk_num] divides the number of
    rows, and only as many as there are rows when the rows are fewer. *)
Theorem chunk_weight_blocks {R : Type} `{Scalar R} (self : Linear1D_Row.Layer R)
  (Hk : (1 <= Linear1D_Row.stream_chunk_num self)%Z) :
  concat (map t_rows (Linear1D_Row.weight_list (Linear1D_Row.chunk_weight self)))
  = t_rows (Linear1D_Row.weight self)
  /\ Forall (fun c => t_width c = t_width (Linear1D_Row.weight self))
       (Linear1D_Row.weight_list (Linear1D_Row.chunk_weight self))
  /\ length (Linear1D_Row.weight_list (Linear1D_Row.chunk_weight self))
     <= Z.to_nat (Linear1D_Row.stream_chunk_num self)
  /\ (length (t_rows (Linear1D_Row.weight self))
      mod Z.to_nat (Linear1D_Row.stream_chunk_num self) = 0 ->
      length (Linear1D_Row.weight_list (Linear1D_Row.chunk_weight self))
      = Z.to_nat (Linear1D_Row.stream_chunk_num self))
  /\ (0 < length (t_rows (Linear1D_Row.weight self))
      <= Z.to_nat (Linear1D_Row.stream_chunk_num self) ->
      length (Linear1D_Row.weight_list (Linear1D_Row.chunk_weight self))
      = length (t_rows (Linear1D_Row.weight self))).
Proof.
  assert (Hpos : 0 < Z.to_nat (Linear1D_Row.stream_chunk_num self)) by lia.
  cbn [Linear1D_Row.chunk_weight Linear1D_Row.weight_list].
  split; [|split; [|split; [|split]]].
  - apply torch_chunk_concat. exact Hpos.
  - apply torch_chunk_widths.
  - apply torch_chunk_at_most. exact Hpos.
  - intros Hdiv. apply torch_chunk_length_divisible; assumption.
  - intros [Hn Hle]. apply torch_chunk_few_rows; assumption.
Qed.

Lemma chunk_weight_blocks_witness :
  concat (map t_rows (Linear1D_Row.weight_list
                        (Linear1D_Row.chunk_weight (fst ex_short0))))
  = t_rows ex_weight_5x2
  /\ length (Linear1D_Row.weight_list (Linear1D_Row.chunk_weight (fst ex_short0)))
     <= 4.
Proof.
  destruct (chunk_weight_blocks (fst ex_short0) ltac:(vm_compute; discriminate))
    as (Hrows & _ & Hcount & _).
  split; [exact Hrows | exact Hcount].
Defined.

(** A group of row-parallel layers in eval mode with [stream_chunk_num =
    k > 1], whose weight shards have the same number of rows: when
    [torch.chunk] cuts the weight shard into fewer than [k] blocks, the
    issue loop runs past the last block and every rank raises
    [IndexError], after the reductions of the blocks there are. *)
Theorem chunked_forward_short_weight_list_raises {R : Type} `{Scalar R}
  (divide : nat -> nat -> Exc nat) (k : Z) (d0 : Rank R) (ds : list (Rank R))
  (Hk : (1 < k)%Z)
  (Hcheck : Forall (check_passes divide) (d0 :: ds))
  (Hnum : Forall (fun d => Linear1D_Row.stream_chunk_num (fst d) = k) (d0 :: ds))
  (Heval : Forall (fun d => Linear1D_Row.training (fst d) = false) (d0 :: ds))
  (Hsplit : Forall (fun d =>
                      Linear1D_Row.weight_list (fst d)
                      = torch_chunk (Linear1D_Row.weight (fst d)) (Z.to_nat k))
              (d0 :: ds))
  (Hrows : Forall (fun d =>
                     length (t_rows (Linear1D_Row.weight (fst d)))
                     = length (t_rows (Linear1D_Row.weight (fst d0)))) ds)
  (Hshort : length (torch_chunk (Linear1D_Row.weight (fst d0)) (Z.to_nat k))
            < Z.to_nat k) :
  run_group (map (rank_forward divide) (d0 :: ds))
  = Finished
      (map (fun _ => inl (IndexError "tuple index out of range")) (d0 :: ds)).
Proof.
  apply (run_chunked_short divide d0 ds k
           (length (torch_chunk (Linear1D_Row.weight (fst d0)) (Z.to_nat k))));
    try assumption.
  inversion Hsplit as [|? ? Hs0 Hss]; subst.
  constructor; [now rewrite Hs0 |].
  rewrite Forall_forall in *. intros d Hd. rewrite (Hss d Hd).
  symmetry. eapply Forall2_length. apply torch_chunk_same_rows.
  symmetry. apply Hrows. exact Hd.
Qed.

Lemma chunked_forward_short_weight_list_raises_witness :
  run_group (map (rank_forward Linear1D_Row.divide) [ex_short0; ex_short1])
  = Finished
      [inl (IndexError "tuple index out of range");
       inl (IndexError "tuple index out of range")].
Proof.
  apply (chunked_forward_short_weight_list_raises Linear1D_Row.divide 4
           ex_short0 [ex_short1]).
  - lia.
  - repeat constructor.
  - repeat constructor.
  - repeat constructor.
  - repeat constructor.
  - repeat constructor.
  - vm_compute. lia.
Defined.

(** ** What the constructors establish *)

Lemma torch_chunk_not_nil {R : Type} `{Scalar R} (w : Tensor R) (k : nat) :
  0 < k -> torch_chunk w k <> [].
Proof.
  intros Hk Hnil. apply (f_equal (@length _)) in Hnil.
  rewrite torch_chunk_count in Hnil by exact Hk. cbn [length] in Hnil.
  destruct (length (t_rows w) =? 0) eqn:Hn; [lia|].
  apply Nat.eqb_neq in Hn.
  assert (Hs : 0 < (length (t_rows w) + k - 1) / k)
    by (apply Nat.div_str_pos; lia).
  assert (0 < (length (t_rows w) + (length (t_rows w) + k - 1) / k - 1)
              / ((length (t_rows w) + k - 1) / k))
    by (apply Nat.div_str_pos; lia).
  lia.
Qed.

Lemma returns_mbind_strong {R : Type} {A B : Type} (Q : A -> Prop) (P : B -> Prop)
  (m : M R A) (f : A -> M R B) :
  returns Q m -> (forall a, Q a -> returns P (f a)) -> returns P (mbind m f).
Proof.
  intros Hm Hf w w' b. unfold mbind.
  destruct (m w) as [w1 [e | a]] eqn:Hmw; [discriminate|].
  intros Hfa. apply (Hf a (Hm w w1 a Hmw) w1 w' b Hfa).
Qed.

Lemma row_init_invariants {R : Type} `{Scalar R} (a : Linear1D_Row.Args R) :
  returns
    (fun self =>
       Linear1D_Row.training self = true
       /\ Linear1D_Row.stream_chunk_num self
          = default 1%Z (Linear1D_Row.arg_stream_chunk_num a)
       /\ Linear1D_Row.skip_bias_add self
          = default false (Linear1D_Row.arg_skip_bias_add a)
       /\ Linear1D_Row.num_partitions self
          = get_world_size (Linear1D_Row.process_group self)
       /\ is_some (Linear1D_Row.bias self)
          = default true (Linear1D_Row.arg_bias a)
       /\ default false (Linear1D_Row.arg_skip_bias_add a)
          && negb (default true (Linear1D_Row.arg_bias a)) = false
       /\ Linear1D_Row.weight_list self
          = (if (1 <? Linear1D_Row.stream_chunk_num self)%Z
             then torch_chunk (Linear1D_Row.weight self)
                    (Z.to_nat (Linear1D_Row.stream_chunk_num self))
             else []))
    (Linear1D_Row.__init__ a).
Proof.
  unfold Linear1D_Row.__init__.
  apply returns_mbind; intros pg. cbv zeta.
  destruct (default false (Linear1D_Row.arg_skip_bias_add a)
            && negb (default true (Linear1D_Row.arg_bias a))) eqn:Hguard;
    [apply returns_mraise|].
  do 4 (apply returns_mbind; intros ?).
  apply (returns_mbind_strong
           (fun b => is_some b = default true (Linear1D_Row.arg_bias a))).
  { destruct (default true (Linear1D_Row.arg_bias a));
      [destruct (Linear1D_Row.arg_bias_ a)|];
      returns_tac; apply returns_mret; reflexivity. }
  intros b Hb.
  assert (Hchunk : forall (w0 w1 : Tensor R) (k : Z),
             (1 <? k)%Z = true ->
             match torch_chunk w0 (Z.to_nat k) with
             | [] => []
             | _ :: _ => torch_chunk w1 (Z.to_nat k)
             end = torch_chunk w1 (Z.to_nat k)).
  { intros w0 w1 k Hk. destruct (torch_chunk w0 (Z.to_nat k)) eqn:Hc; [|reflexivity].
    exfalso. apply (torch_chunk_not_nil w0 (Z.to_nat k)); [|exact Hc].
    apply Z.ltb_lt in Hk. lia. }
  destruct (1 <? default 1 (Linear1D_Row.arg_stream_chunk_num a))%Z eqn:Hk;
    destruct (Linear1D_Row.arg_weight a).
  all: try apply returns_fork_rng.
  all: unfold Linear1D_Row.reset_parameters.
  all: cbn [Linear1D_Row.chunk_weight Linear1D_Row.bias Linear1D_Row.weight
            Linear1D_Row.in_features Linear1D_Row.out_features
            Linear1D_Row.process_group].
  all: try (destruct b as [b|]).
  all: returns_tac; try apply returns_mret.
  all: cbn [Linear1D_Row.set_parameters Linear1D_Row.chunk_weight
            Linear1D_Row.training Linear1D_Row.stream_chunk_num
            Linear1D_Row.skip_bias_add Linear1D_Row.num_partitions
            Linear1D_Row.process_group Linear1D_Row.bias
            Linear1D_Row.weight_list Linear1D_Row.weight is_some].
  all: rewrite ?Hk.
  all: repeat split; try reflexivity; try exact Hb.
  all: try (apply Hchunk; exact Hk).
Qed.

Lemma col_init_invariants {R : Type} `{Scalar R} (a : Linear1D_Col.Args R) :
  returns
    (fun self =>
       Linear1D_Col.skip_bias_add self
       = default false (Linear1D_Col.arg_skip_bias_add a)
       /\ Linear1D_Col.gather_output self
          = default false (Linear1D_Col.arg_gather_output a)
       /\ is_some (Linear1D_Col.bias self)
          = default true (Linear1D_Col.arg_bias a)
       /\ default false (Linear1D_Col.arg_skip_bias_add a)
          && negb (default true (Linear1D_Col.arg_bias a)) = false)
    (Linear1D_Col.__init__ a).
Proof.
  unfold Linear1D_Col.__init__.
  apply returns_mbind; intros pg. cbv zeta.
  destruct (default false (Linear1D_Col.arg_skip_bias_add a)
            && negb (default true (Linear1D_Col.arg_bias a))) eqn:Hguard;
    [apply returns_mraise|].
  do 4 (apply returns_mbind; intros ?).
  apply (returns_mbind_strong
           (fun b => is_some b = default true (Linear1D_Col.arg_bias a))).
  { destruct (default true (Linear1D_Col.arg_bias a)).
    - apply returns_mbind; intros bias.
      destruct (b_distributed bias); returns_tac; apply returns_mret; reflexivity.
    - apply returns_mret. reflexivity. }
  intros b Hb.
  destruct (Linear1D_Col.arg_weight a).
  - apply returns_mret. repeat split; try reflexivity; exact Hb.
  - unfold Linear1D_Col.reset_parameters. apply returns_fork_rng.
    cbn [Linear1D_Col.bias Linear1D_Col.weight Linear1D_Col.in_features
         Linear1D_Col.out_features].
    destruct b as [b|]; returns_tac; apply returns_mret;
      repeat split; try reflexivity; exact Hb.
Qed.

(** What a row-parallel layer is when its constructor returns: in
    training mode, with [num_partitions] the world size of its group, with
    a bias exactly when [bias] was not switched off, and -- whether the
    weight was passed or initialised after [chunk_weight] had stored its
    views -- with a [weight_list] that is the chunking of the final weight
    when [stream_chunk_num > 1], and empty otherwise. *)
Theorem row_constructor_establishes {R : Type} `{Scalar R}
  (a : Linear1D_Row.Args R) (w w' : World R) (self : Linear1D_Row.Layer R)
  (Hbuilt : Linear1D_Row.__init__ a w = (w', inr self)) :
  Linear1D_Row.training self = true
  /\ Linear1D_Row.num_partitions self
     = get_world_size (Linear1D_Row.process_group self)
  /\ is_some (Linear1D_Row.bias self) = default true (Linear1D_Row.arg_bias a)
  /\ Linear1D_Row.stream_chunk_num self
     = default 1%Z (Linear1D_Row.arg_stream_chunk_num a)
  /\ Linear1D_Row.weight_list self
     = (if (1 <? Linear1D_Row.stream_chunk_num self)%Z
        then torch_chunk (Linear1D_Row.weight self)
               (Z.to_nat (Linear1D_Row.stream_chunk_num self))
        else []).
Proof.
  destruct (row_init_invariants a w w' self Hbuilt)
    as (Ht & Hk & _ & Hn & Hb & _ & Hwl).
  repeat split; assumption.
Qed.

Lemma row_constructor_establishes_witness :
  Linear1D_Row.training ex_row_chunked_built = true
  /\ Linear1D_Row.num_partitions ex_row_chunked_built = 2
  /\ Linear1D_Row.weight_list ex_row_chunked_built
     = torch_chunk (mkTensor 2 [[1; 2]; [5; 6]]%Z) 2.
Proof.
  destruct (row_constructor_establishes ex_row_args_chunked ex_world_pair
              (log_event ex_world_pair (Shard [2; 4])) ex_row_chunked_built
              eq_refl)
    as (Ht & Hn & _ & _ & Hwl).
  split; [exact Ht | split; [exact Hn | exact Hwl]].
Defined.

(** A row-parallel layer built with [stream_chunk_num > 1] leaves its
    constructor in training mode, so its [forward] reaches no collective
    on any input: an input that passes the shape check raises the
    training error, any other input the error of the shape check. *)
Theorem constructed_chunked_layer_raises_in_training {R : Type} `{Scalar R}
  (divide : nat -> nat -> Exc nat) (a : Linear1D_Row.Args R) (k : Z)
  (w w' : World R) (self : Linear1D_Row.Layer R)
  (Hchunks : Linear1D_Row.arg_stream_chunk_num a = Some k)
  (Hk : (1 < k)%Z)
  (Hbuilt : Linear1D_Row.__init__ a w = (w', inr self)) :
  forall input_ : Tensor R,
    no_collective (Linear1D_Row.forward divide self input_) = true
    /\ (forall x,
           Linear1D_Row.check_input divide self input_ = inr x ->
           Linear1D_Row.forward divide self input_
           = Raise (RuntimeError
                      "use stream_chunk_num=1 in Linear1D_Row for training!")).
Proof.
  destruct (row_init_invariants a w w' self Hbuilt) as (Ht & Hnum & _).
  rewrite Hchunks in Hnum. cbn [default] in Hnum.
  intros input_.
  assert (Hpass : forall x,
             Linear1D_Row.check_input divide self input_ = inr x ->
             Linear1D_Row.forward divide self input_
             = Raise (RuntimeError Linear1D_Row.training_message)).
  { intros x Hc. rewrite (row_forward_check_passes divide self input_ x Hc).
    unfold Linear1D_Row.reduced_output.
    rewrite Hnum, Ht. apply Z.ltb_lt in Hk. now rewrite Hk. }
  split; [|exact Hpass].
  destruct (Linear1D_Row.check_input divide self input_) as [e | x] eqn:Hc.
  - now rewrite (row_forward_check_fails divide self input_ e Hc).
  - now rewrite (Hpass x eq_refl).
Qed.

Lemma constructed_chunked_layer_raises_in_training_witness :
  Linear1D_Row.forward Linear1D_Row.divide ex_row_chunked_built
    (mkTensor 2 [[1; 1]]%Z)
  = Raise (RuntimeError "use stream_chunk_num=1 in Linear1D_Row for training!").
Proof.
  apply (proj2 (constructed_chunked_layer_raises_in_training Linear1D_Row.divide
                  ex_row_args_chunked 2 ex_world_pair
                  (log_event ex_world_pair (Shard [2; 4])) ex_row_chunked_built
                  eq_refl eq_refl eq_refl (mkTensor 2 [[1; 1]]%Z))
           (mkTensor 2 [[1; 1]]%Z)).
  reflexivity.
Defined.

(** A layer that leaves its constructor with [skip_bias_add] set has a
    bias, and its forward pass hands it back: on an input that passes the
    shape check, [Linear1D_Col.forward] ends -- after the gather, if
    any -- with the pair of the product without bias and that bias, and
    so does [Linear1D_Row.forward] in standard mode after the
    reduction. *)
Theorem skip_bias_add_hands_back_a_bias {R : Type} `{Scalar R}
  (divide : nat -> nat -> Exc nat) (w w' : World R) :
  (forall (a : Linear1D_Col.Args R) (self : Linear1D_Col.Layer R),
      Linear1D_Col.__init__ a w = (w', inr self) ->
      Linear1D_Col.skip_bias_add self = true ->
      exists b,
        Linear1D_Col.bias self = Some b
        /\ forall input_,
            t_width input_ = t_width (Linear1D_Col.weight self) ->
            Linear1D_Col.forward self input_
            = if Linear1D_Col.gather_output self
              then AllGather (F_linear input_ (Linear1D_Col.weight self) None)
                     (fun output => Ret (WithBias output (Some b)))
              else Ret (WithBias
                          (F_linear input_ (Linear1D_Col.weight self) None)
                          (Some b)))
  /\
  (forall (a : Linear1D_Row.Args R) (self : Linear1D_Row.Layer R),
      Linear1D_Row.__init__ a w = (w', inr self) ->
      Linear1D_Row.skip_bias_add self = true ->
      exists b,
        Linear1D_Row.bias self = Some b
        /\ forall input_ x,
            Linear1D_Row.check_input divide self input_ = inr x ->
            (Linear1D_Row.stream_chunk_num self <= 1)%Z ->
            Linear1D_Row.forward divide self input_
            = AllReduce (F_linear x (Linear1D_Row.weight self) None)
                (fun output => Ret (WithBias output (Some b)))).
Proof.
  split; intros a self Hbuilt Hskip.
  - destruct (col_init_invariants a w w' self Hbuilt) as (Hs & _ & Hb & Hguard).
    rewrite <- Hs, Hskip in Hguard. rewrite <- Hb in Hguard.
    destruct (Linear1D_Col.bias self) as [b|] eqn:Hbias; [|discriminate].
    exists b. split; [reflexivity|]. intros input_ Hw.
    unfold Linear1D_Col.forward, Linear1D_Col.linear_with_async_comm.
    rewrite Hw, Nat.eqb_refl, Hskip, Hbias. cbn [negb].
    destruct (Linear1D_Col.gather_output self); reflexivity.
  - destruct (row_init_invariants a w w' self Hbuilt)
      as (_ & _ & Hs & _ & Hb & Hguard & _).
    rewrite <- Hs, Hskip in Hguard. rewrite <- Hb in Hguard.
    destruct (Linear1D_Row.bias self) as [b|] eqn:Hbias; [|discriminate].
    exists b. split; [reflexivity|]. intros input_ x Hcheck Hk.
    rewrite (row_forward_check_passes divide self input_ x Hcheck).
    unfold Linear1D_Row.reduced_output, Linear1D_Row.finish.
    replace (1 <? Linear1D_Row.stream_chunk_num self)%Z with false
      by (symmetry; apply Z.ltb_ge; exact Hk).
    rewrite Hskip, Hbias. reflexivity.
Qed.

Lemma skip_bias_add_hands_back_a_bias_witness :
  Linear1D_Col.forward ex_col_skip_built (mkTensor 2 [[3; 4]]%Z)
  = Ret (WithBias (mkTensor 2 [[11; 4]]%Z) (Some [10; 20]%Z))
  /\
  Linear1D_Row.forward Linear1D_Row.divide ex_row_skip_built
    (mkTensor 2 [[1; 1]]%Z)
  = AllReduce (mkTensor 2 [[3; 11]]%Z)
      (fun output => Ret (WithBias output (Some [5; 7]%Z))).
Proof.
  pose proof (skip_bias_add_hands_back_a_bias Linear1D_Row.divide ex_world_pair
                (log_event (log_event ex_world_pair (Shard [4; 2])) (Shard [4])))
    as [Hcol _].
  pose proof (skip_bias_add_hands_back_a_bias Linear1D_Row.divide ex_world_pair
                (log_event ex_world_pair (Shard [2; 4])))
    as [_ Hrow].
  destruct (Hcol ex_col_args_skip ex_col_skip_built eq_refl eq_refl)
    as (bc & Hbc & Hforward_col).
  destruct (Hrow ex_row_args_skip ex_row_skip_built eq_refl eq_refl)
    as (br & Hbr & Hforward_row).
  injection Hbc as <-. injection Hbr as <-.
  split.
  - exact (Hforward_col (mkTensor 2 [[3; 4]]%Z) eq_refl).
  - exact (Hforward_row (mkTensor 2 [[1; 1]]%Z) (mkTensor 2 [[1; 1]]%Z)
             eq_refl ltac:(vm_compute; discriminate)).
Defined.

(** ** Conversion followed by the forward pass *)

Section Blocks.
Context {X : Type}.

Lemma firstn_plus (n m : nat) (l : list X) :
  firstn (n + m) l = firstn n l ++ firstn m (skipn n l).
Proof.
  revert l. induction n as [|n IH]; intros l; [reflexivity|].
  destruct l as [|x l]; [cbn; now rewrite firstn_nil|].
  cbn. now rewrite IH.
Qed.

Lemma concat_firstn_skipn (n : nat) (xs : list X) (m k : nat) :
  concat (map (fun i => firstn n (skipn (i * n) xs)) (seq k m))
  = firstn (m * n) (skipn (k * n) xs).
Proof.
  revert k. induction m as [|m IH]; intros k; [reflexivity|].
  cbn [seq map concat]. rewrite IH.
  replace (S m * n) with (n + m * n) by lia.
  rewrite firstn_plus, skipn_skipn.
  replace (n + k * n) with (S k * n) by lia. reflexivity.
Qed.

(** The blocks the ranks of a group keep, joined in rank order, are the
    whole list when the world size divides its length. *)
Lemma concat_blocks (P : nat) (xs : list X) :
  length xs mod P = 0 ->
  concat (map (fun i => block P i xs) (seq 0 P)) = xs.
Proof.
  intros Hdiv. unfold block. rewrite concat_firstn_skipn.
  cbn [Nat.mul skipn].
  apply Nat.Div0.div_exact in Hdiv.
  replace (P * (length xs / P)) with (length xs) by lia.
  apply firstn_all.
Qed.

End Blocks.

Lemma col_conversion_inv {R : Type} `{Scalar R} (module : Linear R)
  (arg : GroupArg) (pg : option ProcessGroup) (kwargs : Linear1D_Col.Kwargs R)
  (w w' : World R) (self : Linear1D_Col.Layer R) :
  passes_one arg pg ->
  Linear1D_Col.from_native_module module arg kwargs w
  = (w', inr (Parallelized self)) ->
  lin_out_features module mod get_world_size (group_of w pg) = 0
  /\ Linear1D_Col.gather_output self
     = default false (Linear1D_Col.kw_gather_output kwargs)
  /\ Linear1D_Col.skip_bias_add self
     = default false (Linear1D_Col.kw_skip_bias_add kwargs)
  /\ Linear1D_Col.weight self
     = (if w_distributed (lin_weight module) then w_data (lin_weight module)
        else shard_rowwise (w_data (lin_weight module)) (group_of w pg))
  /\ Linear1D_Col.bias self
     = option_map
         (fun b => if b_distributed b then b_data b
                   else shard_colwise_1d (b_data b) (group_of w pg))
         (lin_bias module).
Proof.
  intros Hone. unfold Linear1D_Col.from_native_module.
  unfold mbind at 1. rewrite (single_group_one arg pg w Hone).
  unfold mbind at 1. cbv beta iota delta [resolve_group].
  fold (group_of w pg).
  destruct (lin_out_features module <? get_world_size (group_of w pg));
    [discriminate|].
  destruct (get_world_size (group_of w pg) =? 0); [discriminate|].
  destruct (lin_out_features module mod get_world_size (group_of w pg) =? 0)
    eqn:Hmod; [|discriminate].
  apply Nat.eqb_eq in Hmod. cbn [negb].
  unfold Linear1D_Col.__init__.
  destruct module as [fin fout [wd wdist] [[bd bdist]|]].
  all: destruct kwargs as [g [[|]|] wi bi].
  all: destruct pg as [pg|]; destruct wdist; try destruct bdist.
  all: repeat (progress conv_step).
  all: intros Heq; inversion Heq; subst; clear Heq.
  all: repeat split; try reflexivity; try exact Hmod.
Qed.

Lemma block_length {X : Type} (P i : nat) (xs : list X) :
  length xs mod P = 0 -> i < P -> length (block P i xs) = length xs / P.
Proof.
  intros Hdiv Hi. unfold block. rewrite length_firstn, length_skipn.
  apply Nat.Div0.div_exact in Hdiv. nia.
Qed.

Section ColConverted.
Context {R : Type} `{Scalar R}.
Variable module : Linear R.
Variable kwargs : Linear1D_Col.Kwargs R.
Variable l0 : Linear1D_Col.Layer R.
Variable ls : list (Linear1D_Col.Layer R).
Hypothesis Hmodule : dense_ok module.
Hypothesis Hconv :
  forall i, i < length (l0 :: ls) ->
            col_converted_at module kwargs (length (l0 :: ls)) i (nth i (l0 :: ls) l0).

Lemma col_converted_divides :
  lin_out_features module mod length (l0 :: ls) = 0.
Proof.
  destruct (Hconv 0 ltac:(cbn; lia)) as (arg & pg & w & w' & Hone & HP & _ & Hrun).
  destruct (col_conversion_inv module arg pg kwargs w w' _ Hone Hrun) as (Hd & _).
  rewrite HP in Hd. exact Hd.
Qed.

Lemma col_converted_layer (i : nat) :
  i < length (l0 :: ls) ->
  Linear1D_Col.gather_output (nth i (l0 :: ls) l0)
  = default false (Linear1D_Col.kw_gather_output kwargs)
  /\ Linear1D_Col.skip_bias_add (nth i (l0 :: ls) l0)
     = default false (Linear1D_Col.kw_skip_bias_add kwargs)
  /\ Linear1D_Col.weight (nth i (l0 :: ls) l0)
     = {| t_width := t_width (w_data (lin_weight module));
          t_rows := block (length (l0 :: ls)) i
                      (t_rows (w_data (lin_weight module))) |}
  /\ Linear1D_Col.bias (nth i (l0 :: ls) l0)
     = option_map (fun b => block (length (l0 :: ls)) i (b_data b))
         (lin_bias module).
Proof.
  intros Hi.
  destruct (Hconv i Hi) as (arg & pg & w & w' & Hone & HP & Hidx & Hrun).
  destruct (col_conversion_inv module arg pg kwargs w w' _ Hone Hrun)
    as (_ & Hg & Hs & Hw & Hb).
  destruct Hmodule as (_ & _ & _ & Hwd & Hbd).
  rewrite Hwd in Hw. unfold shard_rowwise in Hw. rewrite HP, Hidx in Hw.
  repeat split; try assumption.
  rewrite Hb. destruct (lin_bias module) as [b|]; [|reflexivity].
  destruct (Hbd b eq_refl) as [_ Hdist]. cbn [option_map]. rewrite Hdist.
  unfold shard_colwise_1d. now rewrite HP, Hidx.
Qed.

Lemma layers_by_index :
  l0 :: ls = map (fun i => nth i (l0 :: ls) l0) (seq 0 (length (l0 :: ls))).
Proof.
  symmetry. apply map_nth_seq.
Qed.

(** The weight shards of the converted layers, stacked in rank order, are
    the rows of the dense weight. *)
Lemma col_converted_rows :
  concat (map (fun l => t_rows (Linear1D_Col.weight l)) (l0 :: ls))
  = t_rows (w_data (lin_weight module)).
Proof.
  rewrite layers_by_index at 1. rewrite map_map.
  rewrite (map_ext_in _
             (fun i => block (length (l0 :: ls)) i
                         (t_rows (w_data (lin_weight module))))).
  - apply concat_blocks.
    destruct Hmodule as (_ & _ & Hrows & _). rewrite Hrows.
    apply col_converted_divides.
  - intros i Hi. apply in_seq in Hi.
    destruct (col_converted_layer i ltac:(lia)) as (_ & _ & Hw & _).
    now rewrite Hw.
Qed.

Lemma col_converted_bias (b : BiasParam R) :
  lin_bias module = Some b ->
  concat (map (fun l => default [] (Linear1D_Col.bias l)) (l0 :: ls)) = b_data b.
Proof.
  intros Hb. rewrite layers_by_index at 1. rewrite map_map.
  rewrite (map_ext_in _ (fun i => block (length (l0 :: ls)) i (b_data b))).
  - apply concat_blocks.
    destruct Hmodule as (_ & _ & _ & _ & Hbd).
    destruct (Hbd b Hb) as [Hlen _]. rewrite Hlen.
    apply col_converted_divides.
  - intros i Hi. apply in_seq in Hi.
    destruct (col_converted_layer i ltac:(lia)) as (_ & _ & _ & Hbias).
    rewrite Hbias, Hb. reflexivity.
Qed.

Lemma col_converted_each (l : Linear1D_Col.Layer R) :
  In l (l0 :: ls) ->
  exists i, i < length (l0 :: ls) /\ l = nth i (l0 :: ls) l0.
Proof.
  intros Hl. destruct (In_nth _ _ l0 Hl) as (i & Hi & Hnth).
  exists i. split; [exact Hi | now symmetry].
Qed.

End ColConverted.

Lemma map_map_ext_in {A B C : Type} (f : A -> B) (g : B -> C) (h : A -> C)
  (l : list A) :
  (forall a, In a l -> g (f a) = h a) -> map g (map f l) = map h l.
Proof.
  intros Hgh. rewrite map_map. apply map_ext_in. exact Hgh.
Qed.

(** Every rank of a group converts the same dense module with
    [from_native_module], asking for [gather_output], and the converted
    column-parallel layers are called with the same input: every rank
    returns what the dense module returns on that input. *)
Theorem converted_column_group_computes_dense_layer {R : Type} `{Scalar R}
  (module : Linear R) (kwargs : Linear1D_Col.Kwargs R) (x : Tensor R)
  (l0 : Linear1D_Col.Layer R) (ls : list (Linear1D_Col.Layer R))
  (Hmodule : dense_ok module)
  (Hgather : Linear1D_Col.kw_gather_output kwargs = Some true)
  (Hskip : default false (Linear1D_Col.kw_skip_bias_add kwargs) = false)
  (Hconv : forall i, i < length (l0 :: ls) ->
                     col_converted_at module kwargs (length (l0 :: ls)) i
                       (nth i (l0 :: ls) l0))
  (Hx : t_width x = lin_in_features module) :
  run_group (map col_forward (map (fun l => (l, x)) (l0 :: ls)))
  = Finished
      (map (fun _ =>
              inr (Single (Linear_forward (w_data (lin_weight module))
                             (option_map b_data (lin_bias module)) x)))
         (l0 :: ls)).
Proof.
  pose proof (col_converted_layer module kwargs l0 ls Hmodule Hconv) as Hlayer.
  pose proof (col_converted_each l0 ls) as Heach.
  assert (Hall : forall l, In l (l0 :: ls) ->
            Linear1D_Col.gather_output l = true
            /\ Linear1D_Col.skip_bias_add l = false
            /\ t_width (Linear1D_Col.weight l) = t_width (w_data (lin_weight module))
            /\ (forall b, lin_bias module = Some b ->
                  exists bl, Linear1D_Col.bias l = Some bl
                             /\ length bl = length (t_rows (Linear1D_Col.weight l)))
            /\ (lin_bias module = None -> Linear1D_Col.bias l = None)).
  { intros l Hl. destruct (Heach l Hl) as (i & Hi & ->).
    destruct (Hlayer i Hi) as (Hg & Hs & Hw & Hb).
    rewrite Hg, Hs, Hw, Hb, Hgather, Hskip.
    repeat split; try reflexivity.
    - intros b Hbias. rewrite Hbias. eexists. split; [reflexivity|].
      cbn [t_rows].
      pose proof (col_converted_divides module kwargs l0 ls Hconv) as Hdiv.
      destruct Hmodule as (_ & _ & Hrows & _ & Hbd).
      destruct (Hbd b Hbias) as [Hlen _].
      rewrite !block_length; try lia; try congruence.
    - intros ->. reflexivity. }
  assert (Hc : Forall col_check_passes
                 ((l0, x) :: map (fun l : Linear1D_Col.Layer R => (l, x)) ls)).
  { change ((l0, x) :: map (fun l : Linear1D_Col.Layer R => (l, x)) ls)
      with (map (fun l : Linear1D_Col.Layer R => (l, x)) (l0 :: ls)).
    apply Forall_map, Forall_forall. intros l Hl.
    destruct (Hall l Hl) as (_ & _ & Hw & _).
    unfold col_check_passes. cbn [fst snd]. rewrite Hw.
    destruct Hmodule as (_ & Hin & _). congruence. }
  assert (Hg : Forall (fun d : ColRank R => Linear1D_Col.gather_output (fst d) = true)
                 ((l0, x) :: map (fun l : Linear1D_Col.Layer R => (l, x)) ls)).
  { change ((l0, x) :: map (fun l : Linear1D_Col.Layer R => (l, x)) ls)
      with (map (fun l : Linear1D_Col.Layer R => (l, x)) (l0 :: ls)).
    apply Forall_map, Forall_forall. intros l Hl.
    destruct (Hall l Hl) as (Hg & _). exact Hg. }
  etransitivity; [exact (run_col_gather _ _ Hc Hg)|]. clear Hc Hg.
  rewrite (output_parallel_same_input x _
             (fun d : ColRank R => Linear1D_Col.bias (fst d))).
  2:{ apply Forall_map, Forall_forall. reflexivity. }
  2:{ apply Forall_map, Forall_forall. intros l Hl.
      destruct (Hall l (or_intror Hl)) as (_ & Hs & _).
      cbn [fst]. now rewrite Hs. }
  replace (output_parallel (l0, x))
    with (F_linear x (Linear1D_Col.weight (fst (l0, x)))
            (Linear1D_Col.bias (fst (l0, x)))).
  2:{ destruct (Hall l0 (or_introl eq_refl)) as (_ & Hs & _).
      unfold output_parallel, Linear1D_Col.linear_with_async_comm.
      cbn [fst snd]. now rewrite Hs. }
  assert (Hrows : t_rows (col_dense_weight (l0, x)
                            (map (fun l : Linear1D_Col.Layer R => (l, x)) ls))
                  = t_rows (w_data (lin_weight module))).
  { unfold col_dense_weight. cbn [t_rows].
    rewrite <- (col_converted_rows module kwargs l0 ls Hmodule Hconv).
    cbn [map fst]. now rewrite map_map. }
  unfold Linear_forward.
  destruct (lin_bias module) as [b|] eqn:Hbias; cbn [option_map].
  - rewrite gather_products_bias.
    2:{ change ((l0, x) :: map (fun l : Linear1D_Col.Layer R => (l, x)) ls)
          with (map (fun l : Linear1D_Col.Layer R => (l, x)) (l0 :: ls)).
        apply Forall_map, Forall_forall. intros l Hl.
        destruct (Hall l Hl) as (_ & _ & _ & Hb & _).
        exact (Hb b eq_refl). }
    replace (col_dense_bias (l0, x)
               (map (fun l : Linear1D_Col.Layer R => (l, x)) ls))
      with (b_data b).
    2:{ rewrite <- (col_converted_bias module kwargs l0 ls Hmodule Hconv b Hbias).
        unfold col_dense_bias, bias_shard. cbn [map fst].
        now rewrite map_map. }
    rewrite (F_linear_weight_ext x _ (w_data (lin_weight module)) _ Hrows).
    apply (f_equal Finished).
    apply (map_map_ext_in (fun l : Linear1D_Col.Layer R => (l, x)) _ _ (l0 :: ls)).
    intros l Hl. destruct (Hall l Hl) as (_ & Hs & _).
    unfold col_result. cbn [fst]. now rewrite Hs.
  - replace (Linear1D_Col.bias (fst (l0, x))) with (@None (list R)).
    2:{ destruct (Hall l0 (or_introl eq_refl)) as (_ & _ & _ & _ & Hn).
        symmetry. apply Hn. reflexivity. }
    rewrite (map_ext_in
               (fun d : ColRank R =>
                  F_linear x (Linear1D_Col.weight (fst d)) (Linear1D_Col.bias (fst d)))
               (fun d : ColRank R => F_linear x (Linear1D_Col.weight (fst d)) None)).
    2:{ intros d Hd. apply in_map_iff in Hd. destruct Hd as (l & <- & Hl).
        destruct (Hall l (or_intror Hl)) as (_ & _ & _ & _ & Hn).
        cbn [fst]. now rewrite Hn. }
    rewrite (gather_products x (l0, x)
               (map (fun l : Linear1D_Col.Layer R => (l, x)) ls)).
    rewrite (F_linear_weight_ext x _ (w_data (lin_weight module)) _ Hrows).
    apply (f_equal Finished).
    apply (map_map_ext_in (fun l : Linear1D_Col.Layer R => (l, x)) _ _ (l0 :: ls)).
    intros l Hl. destruct (Hall l Hl) as (_ & Hs & _).
    unfold col_result. cbn [fst]. now rewrite Hs.
Qed.

Lemma converted_column_group_computes_dense_layer_witness :
  run_group
    (map col_forward
       (map (fun l => (l, mkTensor 2 [[3; 4]]%Z)) [fst ex_gather0; fst ex_gather1]))
  = Finished
      (map (fun _ =>
              inr (Single (Linear_forward
                             (mkTensor 2 [[1; 0]; [0; 1]; [1; 1]; [2; 0]]%Z)
                             (Some [10; 20; 30; 40]%Z) (mkTensor 2 [[3; 4]]%Z))))
         [fst ex_gather0; fst ex_gather1]).
Proof.
  assert (Hmodule : dense_ok ex_dense_4x2).
  { repeat split; try reflexivity.
    - repeat constructor.
    - injection H as <-. reflexivity.
    - injection H as <-. reflexivity. }
  assert (Hconv : forall i, i < length [fst ex_gather0; fst ex_gather1] ->
            col_converted_at ex_dense_4x2 ex_gather_kwargs
              (length [fst ex_gather0; fst ex_gather1]) i
              (nth i [fst ex_gather0; fst ex_gather1] (fst ex_gather0))).
  { intros [|[|i]] Hi; [| | cbn in Hi; lia].
    - exists (OneGroup (Some (ex_pair 0))), (Some (ex_pair 0)), ex_world_pair,
        (log_event (log_event ex_world_pair (Shard [4; 2])) (Shard [4])).
      repeat split; try reflexivity. left. reflexivity.
    - exists (OneGroup (Some (ex_pair 1))), (Some (ex_pair 1)), ex_world_pair,
        (log_event (log_event ex_world_pair (Shard [4; 2])) (Shard [4])).
      repeat split; try reflexivity. left. reflexivity. }
  exact (converted_column_group_computes_dense_layer ex_dense_4x2 ex_gather_kwargs
           (mkTensor 2 [[3; 4]]%Z) (fst ex_gather0) [fst ex_gather1]
           Hmodule eq_refl eq_refl Hconv eq_refl).
Defined.

Lemma row_conversion_inv {R : Type} `{Scalar R} (module : Linear R)
  (arg : GroupArg) (pg : option ProcessGroup) (kwargs : Linear1D_Row.Kwargs R)
  (w w' : World R) (self : Linear1D_Row.Layer R) :
  passes_one arg pg ->
  Linear1D_Row.from_native_module module arg kwargs w
  = (w', inr (Parallelized self)) ->
  lin_in_features module mod get_world_size (group_of w pg) = 0
  /\ 0 < get_world_size (group_of w pg)
  /\ Linear1D_Row.parallel_input self
     = default true (Linear1D_Row.kw_parallel_input kwargs)
  /\ Linear1D_Row.skip_bias_add self
     = default false (Linear1D_Row.kw_skip_bias_add kwargs)
  /\ Linear1D_Row.stream_chunk_num self
     = default 1%Z (Linear1D_Row.kw_stream_chunk_num kwargs)
  /\ Linear1D_Row.process_group self = group_of w pg
  /\ Linear1D_Row.num_partitions self = get_world_size (group_of w pg)
  /\ Linear1D_Row.weight self
     = (if w_distributed (lin_weight module) then w_data (lin_weight module)
        else shard_colwise (w_data (lin_weight module)) (group_of w pg))
  /\ Linear1D_Row.bias self = option_map b_data (lin_bias module).
Proof.
  intros Hone. unfold Linear1D_Row.from_native_module.
  unfold mbind at 1. rewrite (single_group_one arg pg w Hone).
  unfold mbind at 1. cbv beta iota delta [resolve_group].
  fold (group_of w pg).
  destruct (lin_in_features module <? get_world_size (group_of w pg));
    [discriminate|].
  destruct (get_world_size (group_of w pg) =? 0) eqn:Hpos; [discriminate|].
  destruct (lin_in_features module mod get_world_size (group_of w pg) =? 0)
    eqn:Hmod; [|discriminate].
  apply Nat.eqb_eq in Hmod. apply Nat.eqb_neq in Hpos. cbn [negb].
  unfold Linear1D_Row.__init__.
  destruct module as [fin fout [wd wdist] [[bd bdist]|]].
  all: destruct kwargs as [p [[|]|] wi bi k].
  all: destruct pg as [pg|]; destruct wdist.
  all: repeat (progress conv_step).
  all: intros Heq; inversion Heq; subst; clear Heq.
  all: repeat split; try reflexivity; try exact Hmod; try lia.
Qed.

Section ColumnBlocks.
Context {R : Type} `{Scalar R}.

(** Tensors cut out of the same rows, joined along the last dimension. *)
Lemma fold_cat2_slices {I : Type} (f : I -> list R -> list R) (n : nat)
  (rs : list (list R)) (l : list I) (a : nat) (g : list R -> list R) :
  fold_left cat2 (map (fun i => mkTensor n (map (f i) rs)) l)
    (mkTensor a (map g rs))
  = mkTensor (a + n * length l)
      (map (fun r => g r ++ concat (map (fun i => f i r) l)) rs).
Proof.
  revert a g. induction l as [|i l IH]; intros a g.
  - cbn. rewrite Nat.mul_0_r, Nat.add_0_r. f_equal.
    apply map_ext. intros r. now rewrite app_nil_r.
  - cbn [map fold_left length concat]. unfold cat2 at 2. cbn [t_width t_rows].
    rewrite map2_map_same. rewrite (IH (a + n) (fun r => g r ++ f i r)).
    f_equal; [lia|]. apply map_ext. intros r. now rewrite app_assoc.
Qed.

(** The column blocks of a tensor whose width the number of blocks
    divides, joined in order, are the tensor. *)
Lemma cat_column_blocks (t : Tensor R) (P' : nat) :
  tensor_wf t -> t_width t mod S P' = 0 ->
  fold_left cat2
    (map (fun i =>
            mkTensor (t_width t / S P')
              (map (fun r => firstn (t_width t / S P')
                               (skipn (i * (t_width t / S P')) r)) (t_rows t)))
       (seq 1 P'))
    (mkTensor (t_width t / S P')
       (map (fun r => firstn (t_width t / S P') (skipn (0 * (t_width t / S P')) r))
          (t_rows t)))
  = t.
Proof.
  intros Hwf Hdiv.
  rewrite (fold_cat2_slices
             (fun i r => firstn (t_width t / S P') (skipn (i * (t_width t / S P')) r))).
  rewrite length_seq.
  apply Nat.Div0.div_exact in Hdiv.
  destruct t as [wd rows]. cbn [t_width t_rows] in *. f_equal.
  - nia.
  - rewrite <- (map_id rows) at 2. apply map_ext_in. intros r Hr.
    unfold tensor_wf in Hwf. cbn in Hwf. rewrite Forall_forall in Hwf.
    change (firstn (wd / S P') (skipn (0 * (wd / S P')) r)
            ++ concat (map (fun i => firstn (wd / S P') (skipn (i * (wd / S P')) r))
                         (seq 1 P')))
      with (concat (map (fun i => firstn (wd / S P') (skipn (i * (wd / S P')) r))
                      (seq 0 (S P')))).
    rewrite concat_firstn_skipn.
    replace (S P' * (wd / S P')) with (length r) by (rewrite (Hwf r Hr); lia).
    cbn [Nat.mul skipn]. apply firstn_all.
Qed.

Lemma shard_colwise_slices (t : Tensor R) (pg : ProcessGroup) :
  tensor_wf t ->
  shard_colwise t pg
  = mkTensor (t_width t / get_world_size pg)
      (map (fun r => firstn (t_width t / get_world_size pg)
                       (skipn (pg_index pg * (t_width t / get_world_size pg)) r))
         (t_rows t)).
Proof.
  intros Hwf. unfold shard_colwise. f_equal.
  apply map_ext_in. intros r Hr. unfold block.
  unfold tensor_wf in Hwf. rewrite Forall_forall in Hwf.
  now rewrite (Hwf r Hr).
Qed.

Lemma slice_wf (t : Tensor R) (P i : nat) :
  tensor_wf t -> t_width t mod P = 0 -> i < P ->
  tensor_wf
    (mkTensor (t_width t / P)
       (map (fun r => firstn (t_width t / P) (skipn (i * (t_width t / P)) r))
          (t_rows t))).
Proof.
  intros Hwf Hdiv Hi. unfold tensor_wf in *. cbn [t_rows t_width].
  rewrite Forall_map. eapply Forall_impl; [|exact Hwf].
  intros r Hr. cbn beta. rewrite length_firstn, length_skipn, Hr.
  apply Nat.Div0.div_exact in Hdiv. nia.
Qed.

End ColumnBlocks.

Section RowConverted.
Context {R : Type} `{ScalarLaws R}.
Variable module : Linear R.
Variable kwargs : Linear1D_Row.Kwargs R.
Variable x : Tensor R.
Variable l0 : Linear1D_Row.Layer R.
Variable ls : list (Linear1D_Row.Layer R).
Hypothesis Hmodule : dense_ok module.
Hypothesis Hreplicated : Linear1D_Row.kw_parallel_input kwargs = Some false.
Hypothesis Hstandard : default 1%Z (Linear1D_Row.kw_stream_chunk_num kwargs) = 1%Z.
Hypothesis Hconv :
  forall i, i < length (l0 :: ls) ->
            row_converted_at module kwargs (length (l0 :: ls)) i (nth i (l0 :: ls) l0).
Hypothesis Hxwf : tensor_wf x.
Hypothesis Hx : t_width x = lin_in_features module.

Abbreviation slice_of t i :=
  (mkTensor (t_width t / length (l0 :: ls))
     (map (fun r => firstn (t_width t / length (l0 :: ls))
                      (skipn (i * (t_width t / length (l0 :: ls))) r))
        (t_rows t))).

Lemma row_converted_divides :
  lin_in_features module mod length (l0 :: ls) = 0.
Proof.
  destruct (Hconv 0 ltac:(cbn; lia)) as (arg & pg & w & w' & Hone & HP & _ & Hrun).
  destruct (row_conversion_inv module arg pg kwargs w w' _ Hone Hrun) as (Hd & _).
  rewrite HP in Hd. exact Hd.
Qed.

Lemma row_converted_layer (i : nat) :
  i < length (l0 :: ls) ->
  Linear1D_Row.parallel_input (nth i (l0 :: ls) l0) = false
  /\ Linear1D_Row.skip_bias_add (nth i (l0 :: ls) l0)
     = default false (Linear1D_Row.kw_skip_bias_add kwargs)
  /\ Linear1D_Row.stream_chunk_num (nth i (l0 :: ls) l0) = 1%Z
  /\ Linear1D_Row.num_partitions (nth i (l0 :: ls) l0) = length (l0 :: ls)
  /\ split_forward x (Linear1D_Row.process_group (nth i (l0 :: ls) l0))
     = slice_of x i
  /\ Linear1D_Row.weight (nth i (l0 :: ls) l0)
     = slice_of (w_data (lin_weight module)) i
  /\ Linear1D_Row.bias (nth i (l0 :: ls) l0)
     = option_map b_data (lin_bias module).
Proof.
  intros Hi.
  destruct (Hconv i Hi) as (arg & pg & w & w' & Hone & HP & Hidx & Hrun).
  destruct (row_conversion_inv module arg pg kwargs w w' _ Hone Hrun)
    as (_ & _ & Hp & Hs & Hk & Hpg & Hn & Hw & Hb).
  destruct Hmodule as (Hwf & _ & _ & Hwd & _).
  rewrite Hwd in Hw. rewrite (shard_colwise_slices _ _ Hwf) in Hw.
  rewrite HP, Hidx in Hw. rewrite Hreplicated in Hp. rewrite Hstandard in Hk.
  rewrite HP in Hn.
  repeat split; try assumption.
  rewrite Hpg. unfold split_forward. now rewrite HP, Hidx.
Qed.

Lemma row_converted_each (l : Linear1D_Row.Layer R) :
  In l (l0 :: ls) ->
  exists i, i < length (l0 :: ls) /\ l = nth i (l0 :: ls) l0.
Proof.
  intros Hl. destruct (In_nth _ _ l0 Hl) as (i & Hi & Hnth).
  exists i. split; [exact Hi | now symmetry].
Qed.

Lemma row_tail_by_index :
  ls = map (fun i => nth i (l0 :: ls) l0) (seq 1 (length ls)).
Proof.
  rewrite <- seq_shift, map_map. cbn [nth]. symmetry. apply map_nth_seq.
Qed.

Lemma row_converted_check (l : Linear1D_Row.Layer R) :
  In l (l0 :: ls) -> check_passes Linear1D_Row.divide (l, x).
Proof.
  intros Hl. destruct (row_converted_each l Hl) as (i & Hi & ->).
  destruct (row_converted_layer i Hi) as (Hp & _ & _ & Hn & _ & Hw & _).
  unfold check_passes, shard_of, Linear1D_Row.check_input. cbn [fst snd].
  rewrite Hp, Hn, Hw. cbn [t_width].
  destruct Hmodule as (_ & Hin & _). rewrite Hx, Hin.
  unfold Linear1D_Row.divide.
  pose proof row_converted_divides as Hdiv.
  replace (length (l0 :: ls) =? 0) with false
    by (symmetry; apply Nat.eqb_neq; cbn; lia).
  rewrite Hdiv. cbn [Nat.eqb negb orb]. now rewrite Nat.eqb_refl.
Qed.

Lemma row_converted_shard_ok (l : Linear1D_Row.Layer R) :
  In l (l0 :: ls) ->
  shard_ok (length (t_rows x)) (lin_out_features module) (shard_of (l, x))
    (Linear1D_Row.weight (fst (l, x))).
Proof.
  intros Hl. destruct (row_converted_each l Hl) as (i & Hi & ->).
  destruct (row_converted_layer i Hi) as (Hp & _ & _ & _ & Hsplit & Hw & _).
  unfold shard_of. cbn [fst snd]. rewrite Hp, Hsplit, Hw.
  destruct Hmodule as (Hwf & Hin & Hout & _).
  pose proof row_converted_divides as Hdiv.
  repeat split.
  - apply slice_wf; [exact Hxwf | now rewrite Hx | exact Hi].
  - apply slice_wf; [exact Hwf | now rewrite Hin | exact Hi].
  - cbn [t_width]. now rewrite Hx, Hin.
  - cbn [t_rows]. apply length_map.
  - cbn [t_rows]. rewrite length_map. exact Hout.
Qed.

(** The slices of the replicated input the ranks work on, joined in rank
    order, are the input; the weight shards, joined, are the dense
    weight. *)
Lemma row_converted_dense_input :
  dense_input (l0, x) (map (fun l => (l, x)) ls) = x.
Proof.
  unfold dense_input.
  destruct (row_converted_layer 0 ltac:(cbn; lia)) as (Hp0 & _ & _ & _ & Hs0 & _).
  cbn [nth] in Hp0, Hs0.
  unfold shard_of at 2. cbn [fst snd]. rewrite Hp0, Hs0.
  rewrite row_tail_by_index at 1. rewrite !map_map.
  rewrite (map_ext_in _ (fun i => slice_of x i)).
  - apply (cat_column_blocks x (length ls) Hxwf).
    rewrite Hx. apply row_converted_divides.
  - intros i Hi. apply in_seq in Hi.
    destruct (row_converted_layer i ltac:(cbn; lia)) as (Hp & _ & _ & _ & Hs & _).
    unfold shard_of. cbn [fst snd]. now rewrite Hp, Hs.
Qed.

Lemma row_converted_dense_weight :
  dense_weight (l0, x) (map (fun l => (l, x)) ls) = w_data (lin_weight module).
Proof.
  unfold dense_weight.
  destruct (row_converted_layer 0 ltac:(cbn; lia)) as (_ & _ & _ & _ & _ & Hw0 & _).
  cbn [nth] in Hw0. cbn [fst]. rewrite Hw0.
  rewrite row_tail_by_index at 1. rewrite !map_map.
  rewrite (map_ext_in _ (fun i => slice_of (w_data (lin_weight module)) i)).
  - destruct Hmodule as (Hwf & Hin & _).
    apply (cat_column_blocks _ (length ls) Hwf).
    rewrite Hin. apply row_converted_divides.
  - intros i Hi. apply in_seq in Hi.
    destruct (row_converted_layer i ltac:(cbn; lia)) as (_ & _ & _ & _ & _ & Hw & _).
    cbn [fst]. now rewrite Hw.
Qed.

End RowConverted.

(** Every rank of a group converts the same dense module with
    [from_native_module], with [parallel_input=False] and in standard
    mode, and the converted row-parallel layers are called with the same
    replicated input: each rank slices its own block of the input, and
    every rank returns what the dense module returns on the whole
    input. *)
Theorem converted_row_group_computes_dense_layer {R : Type} `{ScalarLaws R}
  (module : Linear R) (kwargs : Linear1D_Row.Kwargs R) (x : Tensor R)
  (l0 : Linear1D_Row.Layer R) (ls : list (Linear1D_Row.Layer R))
  (Hmodule : dense_ok module)
  (Hreplicated : Linear1D_Row.kw_parallel_input kwargs = Some false)
  (Hskip : default false (Linear1D_Row.kw_skip_bias_add kwargs) = false)
  (Hstandard : default 1%Z (Linear1D_Row.kw_stream_chunk_num kwargs) = 1%Z)
  (Hconv : forall i, i < length (l0 :: ls) ->
                     row_converted_at module kwargs (length (l0 :: ls)) i
                       (nth i (l0 :: ls) l0))
  (Hxwf : tensor_wf x)
  (Hx : t_width x = lin_in_features module) :
  run_group (map (rank_forward Linear1D_Row.divide)
               (map (fun l => (l, x)) (l0 :: ls)))
  = Finished
      (map (fun _ =>
              inr (Single (Linear_forward (w_data (lin_weight module))
                             (option_map b_data (lin_bias module)) x)))
         (l0 :: ls)).
Proof.
  pose proof (row_converted_layer module kwargs x l0 ls Hmodule Hreplicated
                Hstandard Hconv) as Hlayer.
  assert (Hc : Forall (check_passes Linear1D_Row.divide)
                 ((l0, x) :: map (fun l : Linear1D_Row.Layer R => (l, x)) ls)).
  { change ((l0, x) :: map (fun l : Linear1D_Row.Layer R => (l, x)) ls)
      with (map (fun l : Linear1D_Row.Layer R => (l, x)) (l0 :: ls)).
    apply Forall_map, Forall_forall. intros l Hl.
    apply (row_converted_check module kwargs x l0 ls); assumption. }
  assert (Hs : Forall (fun d : Rank R =>
                         (Linear1D_Row.stream_chunk_num (fst d) <= 1)%Z)
                 ((l0, x) :: map (fun l : Linear1D_Row.Layer R => (l, x)) ls)).
  { change ((l0, x) :: map (fun l : Linear1D_Row.Layer R => (l, x)) ls)
      with (map (fun l : Linear1D_Row.Layer R => (l, x)) (l0 :: ls)).
    apply Forall_map, Forall_forall. intros l Hl.
    destruct (row_converted_each l0 ls l Hl) as (i & Hi & ->).
    destruct (Hlayer i Hi) as (_ & _ & Hk & _). cbn [fst]. rewrite Hk. lia. }
  assert (Hok : Forall (fun d : Rank R =>
                          shard_ok (length (t_rows x)) (lin_out_features module)
                            (shard_of d) (Linear1D_Row.weight (fst d)))
                  ((l0, x) :: map (fun l : Linear1D_Row.Layer R => (l, x)) ls)).
  { change ((l0, x) :: map (fun l : Linear1D_Row.Layer R => (l, x)) ls)
      with (map (fun l : Linear1D_Row.Layer R => (l, x)) (l0 :: ls)).
    apply Forall_map, Forall_forall. intros l Hl.
    apply (row_converted_shard_ok module kwargs x l0 ls); assumption. }
  etransitivity; [exact (run_standard Linear1D_Row.divide _ _ Hc Hs)|].
  rewrite <- (dense_equals_sum _ _ _ _ Hok).
  rewrite (row_converted_dense_input module kwargs x l0 ls) by assumption.
  rewrite (row_converted_dense_weight module kwargs x l0 ls) by assumption.
  apply (f_equal Finished).
  apply (map_map_ext_in (fun l : Linear1D_Row.Layer R => (l, x)) _ _ (l0 :: ls)).
  intros l Hl. destruct (row_converted_each l0 ls l Hl) as (i & Hi & ->).
  destruct (Hlayer i Hi) as (_ & Hsk & _ & _ & _ & _ & Hb).
  unfold Linear1D_Row.finish, Linear_forward. cbn [fst].
  rewrite Hsk, Hskip, Hb. cbn [negb].
  destruct (lin_bias module); reflexivity.
Qed.

Lemma converted_row_group_computes_dense_layer_witness :
  run_group
    (map (rank_forward Linear1D_Row.divide)
       (map (fun l => (l, mkTensor 4 [[1; 1; 1; 1]]%Z))
          [ex_row_converted 0 (mkTensor 2 [[1; 2]; [5; 6]]%Z);
           ex_row_converted 1 (mkTensor 2 [[3; 4]; [7; 8]]%Z)]))
  = Finished
      [inr (Single (mkTensor 2 [[15; 33]]%Z));
       inr (Single (mkTensor 2 [[15; 33]]%Z))].
Proof.
  assert (Hmodule : dense_ok ex_dense_2x4).
  { repeat split; try reflexivity.
    - repeat constructor.
    - injection H as <-. reflexivity.
    - injection H as <-. reflexivity. }
  assert (Hconv : forall i,
            i < length [ex_row_converted 0 (mkTensor 2 [[1; 2]; [5; 6]]%Z);
                        ex_row_converted 1 (mkTensor 2 [[3; 4]; [7; 8]]%Z)] ->
            row_converted_at ex_dense_2x4 ex_replicated_kwargs
              (length [ex_row_converted 0 (mkTensor 2 [[1; 2]; [5; 6]]%Z);
                       ex_row_converted 1 (mkTensor 2 [[3; 4]; [7; 8]]%Z)]) i
              (nth i [ex_row_converted 0 (mkTensor 2 [[1; 2]; [5; 6]]%Z);
                      ex_row_converted 1 (mkTensor 2 [[3; 4]; [7; 8]]%Z)]
                 (ex_row_converted 0 (mkTensor 2 [[1; 2]; [5; 6]]%Z)))).
  { intros [|[|i]] Hi; [| | cbn in Hi; lia].
    - exists (OneGroup (Some (ex_pair 0))), (Some (ex_pair 0)), ex_world_pair,
        (log_event ex_world_pair (Shard [2; 4])).
      repeat split; try reflexivity. left. reflexivity.
    - exists (OneGroup (Some (ex_pair 1))), (Some (ex_pair 1)), ex_world_pair,
        (log_event ex_world_pair (Shard [2; 4])).
      repeat split; try reflexivity. left. reflexivity. }
  exact (converted_row_group_computes_dense_layer ex_dense_2x4 ex_replicated_kwargs
           (mkTensor 4 [[1; 1; 1; 1]]%Z)
           (ex_row_converted 0 (mkTensor 2 [[1; 2]; [5; 6]]%Z))
           [ex_row_converted 1 (mkTensor 2 [[3; 4]; [7; 8]]%Z)]
           Hmodule eq_refl eq_refl eq_refl Hconv
           ltac:(repeat constructor) eq_refl).
Defined.

(** * Properties of the UniEval helpers *)

(** ** [add_question] *)

Lemma names_self (s : string) : names s s.
Proof.
  exists ""%string, ""%string. cbn.
  induction s as [|c s IH]; [reflexivity|]. cbn. now rewrite <- IH.
Qed.

Lemma inr_injective {A B : Type} (b b' : B) : @inr A B b = inr b' -> b = b'.
Proof.
  congruence.
Qed.

Ltac question_names :=
  first [ apply names_here | apply names_after; apply names_self ].

Section AddQuestion.
Variable dimension : string.
Variable output : list string.
Variables src ref context : option (list string).
Variable task : option string.

(** Whatever branch builds it, a question starts with ["question: "] and
    carries the output it asks about. *)
Lemma cur_input_shape (output_i cur : string) (i : nat) :
  UniEval.cur_input dimension output_i src ref context task i = inr cur ->
  names cur output_i
  /\ exists rest, cur = ("question: " ++ rest)%string.
Proof.
  unfold UniEval.cur_input, UniEval.rbind.
  repeat match goal with
         | |- context [if ?c then _ else _] => destruct c
         | |- context [match UniEval.subscript ?l ?j with _ => _ end] =>
             destruct (UniEval.subscript l j)
         end;
    intros Heq; try discriminate;
    apply inr_injective in Heq; subst cur;
    (split; [question_names | eexists; reflexivity]).
Qed.

Lemma add_question_from_shape (n : nat) :
  forall (i : nat) (acc res : list string),
    UniEval.add_question_from dimension output src ref context task n i acc
    = inr res ->
    exists new,
      res = acc ++ new
      /\ length new = n
      /\ forall j output_j,
          j < n -> nth_error output (i + j) = Some output_j ->
          exists cur, nth_error new j = Some cur
                      /\ names cur output_j
                      /\ exists rest, cur = ("question: " ++ rest)%string.
Proof.
  induction n as [|n IH]; intros i acc res Hrun.
  - cbn in Hrun. inversion Hrun; subst. exists []. rewrite app_nil_r.
    repeat split. intros j o Hj. lia.
  - cbn [UniEval.add_question_from] in Hrun. unfold UniEval.rbind in Hrun.
    unfold UniEval.index in Hrun.
    destruct (nth_error output i) as [o|] eqn:Ho; [|discriminate].
    destruct (UniEval.cur_input dimension o src ref context task i)
      as [e|cur] eqn:Hcur; [discriminate|].
    destruct (IH (S i) (acc ++ [cur]) res Hrun) as (new & Hres & Hlen & Hnew).
    exists (cur :: new). rewrite Hres, <- app_assoc. repeat split.
    + cbn. now rewrite Hlen.
    + intros [|j] o' Hj Ho'.
      * rewrite Nat.add_0_r in Ho'. rewrite Ho in Ho'. inversion Ho'; subst.
        exists cur. split; [reflexivity|].
        apply (cur_input_shape _ _ i). exact Hcur.
      * cbn [nth_error]. apply Hnew; [lia|].
        rewrite <- Ho'. f_equal. lia.
Qed.

End AddQuestion.

(** When [add_question] returns, it returns one question per output, in
    the order of the outputs; each starts with ["question: "] and carries
    its output. *)
Theorem add_question_returns_one_question_per_output
  (dimension : string) (output : list string)
  (src ref context : option (list string)) (task : option string)
  (questions : list string)
  (Hreturns : UniEval.add_question dimension output src ref context task
              = inr questions) :
  length questions = length output
  /\ forall i output_i,
      nth_error output i = Some output_i ->
      exists cur, nth_error questions i = Some cur
                  /\ names cur output_i
                  /\ exists rest, cur = ("question: " ++ rest)%string.
Proof.
  destruct (add_question_from_shape dimension output src ref context task
              (length output) 0 [] questions Hreturns)
    as (new & Hres & Hlen & Hnew).
  cbn [app] in Hres. subst new. split; [exact Hlen|].
  intros i o Ho. apply (Hnew i o); [|exact Ho].
  apply nth_error_Some. congruence.
Qed.

Lemma add_question_returns_one_question_per_output_witness :
  length ["question: Is this a fluent paragraph? </s> paragraph: a";
          "question: Is this a fluent paragraph? </s> paragraph: b"]
  = length ["a"; "b"].
Proof.
  apply (add_question_returns_one_question_per_output "fluency" ["a"; "b"]
           None None None (Some "summarization")
           ["question: Is this a fluent paragraph? </s> paragraph: a";
            "question: Is this a fluent paragraph? </s> paragraph: b"]
           eq_refl).
Defined.

Section AddQuestionLoops.
Variable dimension : string.
Variable output : list string.
Variables src ref context : option (list string).
Variable task : option string.

Lemma skipn_nth_error {A : Type} (l : list A) (i : nat) (a : A) :
  nth_error l i = Some a -> skipn i l = a :: skipn (S i) l.
Proof.
  revert i. induction l as [|b l IH]; intros [|i] Hi; try discriminate.
  - cbn in Hi. now inversion Hi.
  - cbn in Hi. cbn [skipn]. rewrite (IH i Hi). reflexivity.
Qed.

(** A first iteration that raises ends the call. *)
Lemma add_question_first_raises (e : UniEval.PyError) :
  (forall output_i,
      UniEval.cur_input dimension output_i src ref context task 0 = inl e) ->
  UniEval.add_question dimension output src ref context task
  = raises_unless_empty output e.
Proof.
  intros Hraise. unfold UniEval.add_question.
  destruct output as [|o rest]; [reflexivity|].
  cbn [length UniEval.add_question_from UniEval.index nth_error UniEval.rbind
       raises_unless_empty].
  now rewrite Hraise.
Qed.

(** A question asked of the output alone is asked of every output. *)
Lemma add_question_from_map (f : string -> string) :
  (forall output_i i,
      UniEval.cur_input dimension output_i src ref context task i
      = inr (f output_i)) ->
  forall (n i : nat) (acc : list string),
    i + n = length output ->
    UniEval.add_question_from dimension output src ref context task n i acc
    = inr (acc ++ map f (skipn i output)).
Proof.
  intros Hcur. induction n as [|n IH]; intros i acc Hlen.
  - cbn. rewrite skipn_all2 by lia. now rewrite app_nil_r.
  - cbn [UniEval.add_question_from]. unfold UniEval.index.
    destruct (nth_error output i) as [o|] eqn:Ho.
    2:{ apply nth_error_None in Ho. lia. }
    cbn [UniEval.rbind]. rewrite Hcur. cbn [UniEval.rbind].
    rewrite IH by lia. rewrite (skipn_nth_error _ _ _ Ho).
    cbn [map]. now rewrite <- app_assoc.
Qed.

(** A question asked of the output and of [xs[i]]. *)
Lemma add_question_from_zip (g : string -> string -> string)
  (xs : option (list string)) :
  (forall output_i i,
      UniEval.cur_input dimension output_i src ref context task i
      = UniEval.rbind (UniEval.subscript xs i) (fun x => inr (g output_i x))) ->
  forall (n i : nat) (acc : list string),
    i + n = length output ->
    UniEval.add_question_from dimension output src ref context task n i acc
    = match xs with
      | None =>
          match n with
          | 0 => inr acc
          | S _ => inl (UniEval.TypeError "'NoneType' object is not subscriptable")
          end
      | Some l =>
          if length output <=? Nat.max i (length l)
          then inr (acc ++ map (fun ox => g (fst ox) (snd ox))
                             (combine (skipn i output) (skipn i l)))
          else inl (UniEval.IndexError "list index out of range")
      end.
Proof.
  intros Hcur. induction n as [|n IH]; intros i acc Hlen.
  - cbn [UniEval.add_question_from]. destruct xs as [l|]; [|reflexivity].
    replace (length output <=? Nat.max i (length l)) with true
      by (symmetry; apply Nat.leb_le; lia).
    rewrite (skipn_all2 output) by lia. cbn. now rewrite app_nil_r.
  - cbn [UniEval.add_question_from]. unfold UniEval.index at 1.
    destruct (nth_error output i) as [o|] eqn:Ho.
    2:{ apply nth_error_None in Ho. lia. }
    cbn [UniEval.rbind]. rewrite Hcur.
    destruct xs as [l|]; cbn [UniEval.subscript UniEval.rbind]; [|reflexivity].
    unfold UniEval.index.
    destruct (nth_error l i) as [x|] eqn:Hx; cbn [UniEval.rbind].
    + rewrite IH by lia.
      assert (Hi : i < length l) by (apply nth_error_Some; congruence).
      replace (Nat.max (S i) (length l)) with (Nat.max i (length l)) by lia.
      destruct (length output <=? Nat.max i (length l)); [|reflexivity].
      rewrite (skipn_nth_error _ _ _ Ho), (skipn_nth_error _ _ _ Hx).
      cbn [combine map fst snd]. now rewrite <- app_assoc.
    + apply nth_error_None in Hx.
      replace (length output <=? Nat.max i (length l)) with false
        by (symmetry; apply Nat.leb_gt; lia).
      reflexivity.
Qed.

End AddQuestionLoops.

Lemma is_task_unknown (task : option string) (name : string) :
  unknown_task task -> In name known_tasks -> UniEval.is_task task name = false.
Proof.
  intros Hunknown Hname. destruct task as [t|]; [|reflexivity].
  apply String.eqb_neq. intros ->. exact (Hunknown name Hname eq_refl).
Qed.

Ltac other_dimension :=
  repeat match goal with
         | H : ~ In _ (_ :: _) |- _ =>
             apply not_in_cons in H; destruct H as [? H]
         | H : ?d <> ?name |- context [String.eqb ?d ?name] =>
             rewrite (proj2 (String.eqb_neq d name) H)
         end.

(** A task or a dimension [add_question] does not know makes the first
    iteration raise [NotImplementedError], with the message of the branch
    that was reached; on an empty list of outputs there is no iteration,
    and the empty list is returned whatever the task and the dimension. *)
Theorem add_question_unknown_task_or_dimension (output : list string)
  (src ref context : option (list string)) :
  (forall dimension task,
      unknown_task task ->
      UniEval.add_question dimension output src ref context task
      = raises_unless_empty output
          (UniEval.NotImplementedError
             "Other tasks are not implemented, please customize specific tasks here."))
  /\
  (forall dimension,
      ~ In dimension ["fluency"; "coherence"; "consistency"; "relevance"] ->
      UniEval.add_question dimension output src ref context (Some "summarization")
      = raises_unless_empty output
          (UniEval.NotImplementedError
             "The input format for this dimension is still undefined. Please customize it first."))
  /\
  (forall dimension,
      ~ In dimension ["naturalness"; "coherence"; "engagingness"; "groundedness";
                      "understandability"] ->
      UniEval.add_question dimension output src ref context (Some "dialogue")
      = raises_unless_empty output
          (UniEval.NotImplementedError
             "The input format for this dimension is still undefined. Please customize it first."))
  /\
  (forall dimension,
      ~ In dimension ["naturalness"; "informativeness"] ->
      UniEval.add_question dimension output src ref context (Some "data2text")
      = raises_unless_empty output
          (UniEval.NotImplementedError
             "The input format for this dimension is still undefined. Please customize it first."))
  /\
  (forall dimension,
      dimension <> "consistency" ->
      UniEval.add_question dimension output src ref context (Some "fact")
      = raises_unless_empty output
          (UniEval.NotImplementedError
             "No other dimensions for the factual consistency detection task.")).
Proof.
  split; [|split; [|split; [|split]]].
  - intros dimension task Hunknown. apply add_question_first_raises.
    intros o. unfold UniEval.cur_input.
    rewrite !(is_task_unknown task) by (assumption || (cbn; tauto)).
    reflexivity.
  - intros dimension Hd. apply add_question_first_raises.
    intros o. unfold UniEval.cur_input.
    cbn [UniEval.is_task String.eqb Ascii.eqb Bool.eqb].
    other_dimension. reflexivity.
  - intros dimension Hd. apply add_question_first_raises.
    intros o. unfold UniEval.cur_input.
    cbn [UniEval.is_task String.eqb Ascii.eqb Bool.eqb].
    other_dimension. reflexivity.
  - intros dimension Hd. apply add_question_first_raises.
    intros o. unfold UniEval.cur_input.
    cbn [UniEval.is_task String.eqb Ascii.eqb Bool.eqb].
    other_dimension. reflexivity.
  - intros dimension Hd. apply add_question_first_raises.
    intros o. unfold UniEval.cur_input.
    cbn [UniEval.is_task String.eqb Ascii.eqb Bool.eqb].
    other_dimension. reflexivity.
Qed.

Lemma add_question_unknown_task_or_dimension_witness :
  UniEval.add_question "fluency" ["a"] None None None None
  = inl (UniEval.NotImplementedError
           "Other tasks are not implemented, please customize specific tasks here.")
  /\ UniEval.add_question "fluency" [] None None None (Some "translation")
     = inr []
  /\ UniEval.add_question "fluency" ["a"] None None None (Some "fact")
     = inl (UniEval.NotImplementedError
              "No other dimensions for the factual consistency detection task.").
Proof.
  split; [|split].
  - apply (proj1 (add_question_unknown_task_or_dimension ["a"] None None None)
             "fluency" None).
    intros name _. discriminate.
  - apply (proj1 (add_question_unknown_task_or_dimension [] None None None)
             "fluency" (Some "translation")).
    intros name [<- | [<- | [<- | [<- | []]]]]; discriminate.
  - apply (proj2 (proj2 (proj2 (proj2
             (add_question_unknown_task_or_dimension ["a"] None None None))))
             "fluency").
    discriminate.
Defined.

(** The question of the task ["fact"] is the question of the dimension
    ["consistency"] of the task ["summarization"]: the two calls return
    the same questions, and fail alike. *)
Theorem add_question_fact_is_summarization_consistency (output : list string)
  (src ref context : option (list string)) :
  UniEval.add_question "consistency" output src ref context (Some "fact")
  = UniEval.add_question "consistency" output src ref context
      (Some "summarization").
Proof.
  unfold UniEval.add_question.
  rewrite !(add_question_from_zip "consistency" output src ref context _
              (fun o s =>
                 ("question: Is this claim consistent with the document? </s> claim: "
                  ++ o ++ " </s> document: " ++ s)%string) src)
    by (reflexivity || lia).
  reflexivity.
Qed.

(** The four questions that are asked of the output alone: the call
    returns, for every output, the text of the question followed by the
    output, and never looks at [src], [ref] or [context]. *)
Theorem add_question_of_output_alone (task dimension before : string)
  (Hquestion : In (task, dimension, before) output_questions)
  (output : list string) (src ref context : option (list string)) :
  UniEval.add_question dimension output src ref context (Some task)
  = inr (map (fun output_i => (before ++ output_i)%string) output).
Proof.
  unfold UniEval.add_question.
  destruct Hquestion as [Hq | [Hq | [Hq | [Hq | []]]]];
    inversion Hq; subst; clear Hq;
    rewrite (add_question_from_map _ output src ref context _
               (fun o => (_ ++ o)%string)) by (reflexivity || lia);
    reflexivity.
Qed.

Lemma add_question_of_output_alone_witness :
  UniEval.add_question "understandability" ["a"; "b"] None None None
    (Some "dialogue")
  = inr ["question: Is this an understandable response in the dialogue? </s> response: a";
         "question: Is this an understandable response in the dialogue? </s> response: b"].
Proof.
  apply (add_question_of_output_alone "dialogue" "understandability"
           "question: Is this an understandable response in the dialogue? </s> response: ").
  right. right. left. reflexivity.
Defined.

(** The four questions that are asked of the output and of the source:
    with at least as many sources as outputs, the call pairs them in
    order and ignores the sources beyond the outputs; with fewer sources
    it fails on the index; with [src] left out it fails on the first
    output, and returns the empty list when there is none. *)
Theorem add_question_of_output_and_source (task dimension before between : string)
  (Hquestion : In (task, dimension, before, between) source_questions)
  (output : list string) (ref context : option (list string)) :
  UniEval.add_question dimension output None ref context (Some task)
  = raises_unless_empty output
      (UniEval.TypeError "'NoneType' object is not subscriptable")
  /\
  (forall src,
      length output <= length src ->
      UniEval.add_question dimension output (Some src) ref context (Some task)
      = inr (map (fun os => (before ++ fst os ++ between ++ snd os)%string)
               (combine output src)))
  /\
  (forall src,
      length src < length output ->
      UniEval.add_question dimension output (Some src) ref context (Some task)
      = inl (UniEval.IndexError "list index out of range")).
Proof.
  assert (Hzip : forall src,
             UniEval.add_question dimension output src ref context (Some task)
             = match src with
               | None =>
                   match length output with
                   | 0 => inr []
                   | S _ => inl (UniEval.TypeError
                                   "'NoneType' object is not subscriptable")
                   end
               | Some l =>
                   if length output <=? Nat.max 0 (length l)
                   then inr ([] ++ map (fun os => (before ++ fst os ++ between
                                                   ++ snd os)%string)
                                     (combine (skipn 0 output) (skipn 0 l)))
                   else inl (UniEval.IndexError "list index out of range")
               end).
  { intros src. unfold UniEval.add_question.
    destruct Hquestion as [Hq | [Hq | [Hq | [Hq | []]]]];
      inversion Hq; subst; clear Hq;
      apply (add_question_from_zip _ output src ref context _
               (fun o s => (_ ++ o ++ _ ++ s)%string) src);
      (reflexivity || lia). }
  split; [|split].
  - rewrite Hzip. destruct output; reflexivity.
  - intros src Hlen. rewrite Hzip.
    replace (length output <=? Nat.max 0 (length src)) with true
      by (symmetry; apply Nat.leb_le; lia).
    reflexivity.
  - intros src Hlen. rewrite Hzip.
    replace (length output <=? Nat.max 0 (length src)) with false
      by (symmetry; apply Nat.leb_gt; lia).
    reflexivity.
Qed.

Lemma add_question_of_output_and_source_witness :
  UniEval.add_question "coherence" ["a"; "b"] (Some ["x"; "y"; "z"]) None None
    (Some "dialogue")
  = inr ["question: Is this a coherent response given the dialogue history? </s> response: a </s> dialogue history: x";
         "question: Is this a coherent response given the dialogue history? </s> response: b </s> dialogue history: y"]
  /\ UniEval.add_question "coherence" ["a"; "b"] (Some ["x"]) None None
       (Some "dialogue")
     = inl (UniEval.IndexError "list index out of range").
Proof.
  pose proof (add_question_of_output_and_source "dialogue" "coherence"
                "question: Is this a coherent response given the dialogue history? </s> response: "
                " </s> dialogue history: "
                ltac:(right; right; left; reflexivity) ["a"; "b"] None None)
    as (_ & Hlong & Hshort).
  split.
  - apply (Hlong ["x"; "y"; "z"]). cbn. lia.
  - apply (Hshort ["x"]). cbn. lia.
Defined.

(** ** [convert_data_to_unieval_format] *)

Section Convert.
Variable output_list : list string.
Variables src_list ref_list : option (list string).

Lemma cur_record_at (i : nat) :
  i < length output_list ->
  UniEval.cur_record output_list src_list ref_list i
  = if has_index i src_list && has_index i ref_list
    then inr (record_at output_list src_list ref_list i)
    else inl (UniEval.IndexError "list index out of range").
Proof.
  intros Hi. unfold UniEval.cur_record, record_at.
  unfold UniEval.index at 1.
  rewrite (nth_error_nth' output_list ""%string Hi). cbn [UniEval.rbind].
  assert (Hfield : forall l : list string,
             UniEval.index l i
             = if i <? length l then inr (nth i l ""%string)
               else inl (UniEval.IndexError "list index out of range")).
  { intros l. unfold UniEval.index. destruct (i <? length l) eqn:Hl.
    - apply Nat.ltb_lt in Hl. now rewrite (nth_error_nth' l ""%string Hl).
    - apply Nat.ltb_ge in Hl. now rewrite (proj2 (nth_error_None l i) Hl). }
  destruct src_list as [ls|]; destruct ref_list as [lr|];
    cbn [optional_field app has_index]; rewrite ?Hfield;
    repeat match goal with
      | |- context [?j <? length ?l] => destruct (j <? length l)
      end; reflexivity.
Qed.

Lemma covers_from_has_index (i : nat) (xs : option (list string)) :
  i < length output_list ->
  covers_from (length output_list) i xs
  = has_index i xs && covers_from (length output_list) (S i) xs.
Proof.
  intros Hi. destruct xs as [l|]; [|reflexivity]. unfold covers_from, has_index.
  destruct (i <? length l) eqn:Hl.
  - apply Nat.ltb_lt in Hl. cbn [andb].
    now replace (Nat.max (S i) (length l)) with (Nat.max i (length l)) by lia.
  - apply Nat.ltb_ge in Hl. cbn [andb]. apply Nat.leb_gt. lia.
Qed.

Lemma convert_from_records (n : nat) :
  forall (i : nat) (json_data : list (UniEval.Dict string)),
    i + n = length output_list ->
    UniEval.convert_from output_list src_list ref_list n i json_data
    = if covers_from (length output_list) i src_list
         && covers_from (length output_list) i ref_list
      then inr (json_data
                ++ map (record_at output_list src_list ref_list) (seq i n))
      else inl (UniEval.IndexError "list index out of range").
Proof.
  induction n as [|n IH]; intros i json_data Hlen.
  - cbn [UniEval.convert_from seq map]. rewrite app_nil_r.
    replace (covers_from (length output_list) i src_list) with true
      by (destruct src_list; [symmetry; apply Nat.leb_le; lia | reflexivity]).
    replace (covers_from (length output_list) i ref_list) with true
      by (destruct ref_list; [symmetry; apply Nat.leb_le; lia | reflexivity]).
    reflexivity.
  - cbn [UniEval.convert_from]. rewrite cur_record_at by lia.
    rewrite (covers_from_has_index i src_list), (covers_from_has_index i ref_list)
      by lia.
    destruct (has_index i src_list); [|reflexivity].
    destruct (has_index i ref_list);
      [|cbn [andb UniEval.rbind]; now rewrite andb_false_r].
    cbn [andb UniEval.rbind]. rewrite IH by lia.
    destruct (covers_from (length output_list) (S i) src_list
              && covers_from (length output_list) (S i) ref_list);
      [|reflexivity].
    cbn [seq map]. now rewrite <- app_assoc.
Qed.

End Convert.

(** [convert_data_to_unieval_format] returns one record per output, in
    order: the output under ["system_output"], then the source and the
    reference of the same index when these lists are passed, then an empty
    ["context"].  A list of sources or of references that is shorter than
    the list of outputs makes the call fail on the index; longer lists
    are cut at the number of outputs. *)
Theorem convert_data_to_unieval_format_records (output_list : list string)
  (src_list ref_list : option (list string)) :
  UniEval.convert_data_to_unieval_format output_list src_list ref_list
  = if covers (length output_list) src_list && covers (length output_list) ref_list
    then inr (map (record_at output_list src_list ref_list)
                (seq 0 (length output_list)))
    else inl (UniEval.IndexError "list index out of range").
Proof.
  unfold UniEval.convert_data_to_unieval_format.
  rewrite convert_from_records by reflexivity.
  unfold covers_from, covers. cbn [Nat.max app].
  reflexivity.
Qed.

(** ** [calculate_average_score] *)

Section Dicts.
Context {V : Type}.

Lemma get_in_keys (d : UniEval.Dict V) (k : string) :
  In k (UniEval.keys d) -> exists v, UniEval.get d k = Some v.
Proof.
  induction d as [|[k' v'] d IH]; intros Hin; [contradiction|].
  cbn [UniEval.get]. destruct (String.eqb k' k) eqn:Hk; [eexists; reflexivity|].
  apply IH. destruct Hin as [Heq | Hin]; [|exact Hin].
  cbn in Heq. subst. now rewrite String.eqb_refl in Hk.
Qed.

Lemma get_not_in_keys (d : UniEval.Dict V) (k : string) :
  ~ In k (UniEval.keys d) -> UniEval.get d k = None.
Proof.
  induction d as [|[k' v'] d IH]; intros Hin; [reflexivity|].
  cbn [UniEval.get]. destruct (String.eqb k' k) eqn:Hk.
  - apply String.eqb_eq in Hk. subst. exfalso. apply Hin. now left.
  - apply IH. intros Hk'. apply Hin. now right.
Qed.

Lemma keys_set_item (d : UniEval.Dict V) (k : string) (v : V) :
  forall k', In k' (UniEval.keys (UniEval.set_item d k v))
             <-> In k' (UniEval.keys d) \/ k' = k.
Proof.
  intros k'. induction d as [|[k0 v0] d IH].
  - cbn. intuition congruence.
  - cbn [UniEval.set_item]. destruct (String.eqb k0 k) eqn:Hk.
    + apply String.eqb_eq in Hk. subst. cbn. intuition congruence.
    + cbn [UniEval.keys map fst In] in *. rewrite IH. intuition.
Qed.

Lemma get_dict_of (ks : list string) (val : string -> V) (k : string) :
  In k ks -> UniEval.get (dict_of ks val) k = Some (val k).
Proof.
  induction ks as [|k0 ks IH]; intros Hin; [contradiction|].
  cbn [dict_of map UniEval.get]. destruct (String.eqb k0 k) eqn:Hk.
  - apply String.eqb_eq in Hk. now subst.
  - apply IH. destruct Hin as [-> | Hin]; [|exact Hin].
    now rewrite String.eqb_refl in Hk.
Qed.

Lemma keys_dict_of (ks : list string) (val : string -> V) :
  UniEval.keys (dict_of ks val) = ks.
Proof.
  unfold UniEval.keys, dict_of. rewrite map_map. cbn. apply map_id.
Qed.

Lemma dict_of_ext (ks : list string) (val val' : string -> V) :
  (forall k, In k ks -> val k = val' k) -> dict_of ks val = dict_of ks val'.
Proof.
  intros Hext. apply map_ext_in. intros k Hk. now rewrite (Hext k Hk).
Qed.

(** Writing under a key that is there changes its value and nothing
    else. *)
Lemma set_item_dict_of (ks : list string) (val : string -> V) (k : string) (v : V) :
  NoDup ks -> In k ks ->
  UniEval.set_item (dict_of ks val) k v
  = dict_of ks (fun k' => if String.eqb k' k then v else val k').
Proof.
  induction ks as [|k0 ks IH]; intros Hnd Hin; [contradiction|].
  inversion Hnd as [|? ? Hk0 Hnd']; subst.
  cbn [dict_of map UniEval.set_item]. destruct (String.eqb k0 k) eqn:Hk.
  - apply String.eqb_eq in Hk. subst k0. f_equal.
    apply map_ext_in. intros k' Hk'.
    destruct (String.eqb k' k) eqn:Hk''; [|reflexivity].
    apply String.eqb_eq in Hk''. subst. contradiction.
  - f_equal. apply IH; [exact Hnd'|].
    destruct Hin as [-> | Hin]; [|exact Hin].
    now rewrite String.eqb_refl in Hk.
Qed.

End Dicts.

Section AverageLoops.
Context {N : Type} `{UniEval.Number N}.

Lemma set_item_new {V : Type} (d : UniEval.Dict V) (k : string) (v : V) :
  ~ In k (UniEval.keys d) -> UniEval.set_item d k v = d ++ [(k, v)].
Proof.
  induction d as [|[k0 v0] d IH]; intros Hin; [reflexivity|].
  cbn [UniEval.set_item]. destruct (String.eqb k0 k) eqn:Hk.
  - apply String.eqb_eq in Hk. subst. exfalso. apply Hin. now left.
  - cbn [app]. f_equal. apply IH. intros Hk'. apply Hin. now right.
Qed.

(** [{metric: 0 for metric in scores[0]}]. *)
Lemma initial_metrics (l acc : list string) :
  NoDup (acc ++ l) ->
  fold_left (fun metrics metric => UniEval.set_item metrics metric UniEval.nzero)
    l (dict_of acc (fun _ => UniEval.nzero))
  = dict_of (acc ++ l) (fun _ => UniEval.nzero).
Proof.
  revert acc. induction l as [|k l IH]; intros acc Hnd.
  - cbn. now rewrite app_nil_r.
  - cbn [fold_left]. rewrite set_item_new.
    + change (dict_of acc (fun _ => UniEval.nzero) ++ [(k, UniEval.nzero)])
        with (dict_of acc (fun _ : string => UniEval.nzero)
              ++ dict_of [k] (fun _ : string => UniEval.nzero)).
      unfold dict_of at 1 2. rewrite <- map_app.
      change (map (fun k0 : string => (k0, UniEval.nzero)) (acc ++ [k]))
        with (dict_of (acc ++ [k]) (fun _ : string => UniEval.nzero)).
      rewrite IH; rewrite <- app_assoc; [reflexivity | exact Hnd].
    + rewrite keys_dict_of. apply NoDup_remove_2 in Hnd.
      intros Hk. apply Hnd. apply in_or_app. now left.
Qed.

Lemma mem_false (k : string) (l : list string) : ~ In k l -> mem k l = false.
Proof.
  intros Hin. unfold mem. destruct (existsb (String.eqb k) l) eqn:He; [|reflexivity].
  apply existsb_exists in He. destruct He as (k' & Hk' & Heq).
  apply String.eqb_eq in Heq. subst. contradiction.
Qed.

Lemma mem_true (k : string) (l : list string) : In k l -> mem k l = true.
Proof.
  intros Hin. apply existsb_exists. exists k. split; [exact Hin|].
  apply String.eqb_refl.
Qed.

Lemma add_score_dict_of (ks : list string) (score : UniEval.Dict N)
  (todo : list string) :
  NoDup ks -> NoDup todo -> incl todo ks -> incl todo (UniEval.keys score) ->
  forall val : string -> N,
    UniEval.add_score (dict_of ks val) score todo
    = inr (dict_of ks (fun k => if mem k todo then add_value score k (val k)
                                else val k)).
Proof.
  intros Hks. induction todo as [|m todo IH]; intros Hnd Hin Hsc val.
  - reflexivity.
  - inversion Hnd as [|? ? Hm Hnd']; subst.
    cbn [UniEval.add_score]. unfold UniEval.get_item.
    rewrite get_dict_of by (apply Hin; now left). cbn [UniEval.rbind].
    destruct (get_in_keys score m (Hsc m (or_introl eq_refl))) as [v Hv].
    rewrite Hv. cbn [UniEval.rbind].
    rewrite set_item_dict_of by (auto; apply Hin; now left).
    rewrite IH; try assumption.
    2:{ intros k Hk. apply Hin. now right. }
    2:{ intros k Hk. apply Hsc. now right. }
    f_equal. apply dict_of_ext. intros k Hk.
    unfold mem. cbn [existsb]. fold (mem k todo).
    destruct (String.eqb k m) eqn:Hkm.
    + apply String.eqb_eq in Hkm. subst k. rewrite (mem_false m todo Hm).
      cbn [orb]. unfold add_value. now rewrite Hv.
    + cbn [orb]. reflexivity.
Qed.

(** One pass of the inner loop adds, to every metric the score holds,
    the value of the score. *)
Lemma add_score_all (ks : list string) (score : UniEval.Dict N)
  (val : string -> N) :
  NoDup ks -> NoDup (UniEval.keys score) -> incl (UniEval.keys score) ks ->
  UniEval.add_score (dict_of ks val) score (UniEval.keys score)
  = inr (dict_of ks (fun k => add_value score k (val k))).
Proof.
  intros Hks Hnd Hin.
  rewrite (add_score_dict_of ks score (UniEval.keys score) Hks Hnd Hin)
    by apply incl_refl.
  f_equal. apply dict_of_ext. intros k Hk.
  destruct (mem k (UniEval.keys score)) eqn:Hmem; [reflexivity|].
  unfold add_value. rewrite get_not_in_keys; [reflexivity|].
  intros Hk'. now rewrite (mem_true _ _ Hk') in Hmem.
Qed.

Lemma add_scores_dict_of (ks : list string) (scores : list (UniEval.Dict N)) :
  NoDup ks ->
  Forall (fun score => NoDup (UniEval.keys score)
                       /\ incl (UniEval.keys score) ks) scores ->
  forall val : string -> N,
    UniEval.add_scores (dict_of ks val) scores
    = inr (dict_of ks (fun k =>
                         fold_left (fun sum score => add_value score k sum)
                           scores (val k))).
Proof.
  intros Hks. induction scores as [|score scores IH]; intros Hok val.
  - reflexivity.
  - inversion Hok as [|? ? [Hnd Hin] Hok']; subst.
    cbn [UniEval.add_scores]. rewrite add_score_all by assumption.
    cbn [UniEval.rbind fold_left]. now rewrite IH.
Qed.

Lemma divide_all_dict_of (ks : list string) (n : nat) (todo : list string) :
  NoDup ks -> NoDup todo -> incl todo ks ->
  forall val : string -> N,
    UniEval.divide_all (dict_of ks val) n todo
    = inr (dict_of ks (fun k => if mem k todo then UniEval.ndiv (val k) n
                                else val k)).
Proof.
  intros Hks. induction todo as [|m todo IH]; intros Hnd Hin val.
  - reflexivity.
  - inversion Hnd as [|? ? Hm Hnd']; subst.
    cbn [UniEval.divide_all]. unfold UniEval.get_item.
    rewrite get_dict_of by (apply Hin; now left). cbn [UniEval.rbind].
    rewrite set_item_dict_of by (auto; apply Hin; now left).
    rewrite IH; try assumption.
    2:{ intros k Hk. apply Hin. now right. }
    f_equal. apply dict_of_ext. intros k Hk.
    unfold mem. cbn [existsb]. fold (mem k todo).
    destruct (String.eqb k m) eqn:Hkm.
    + apply String.eqb_eq in Hkm. subst k. rewrite (mem_false m todo Hm).
      reflexivity.
    + reflexivity.
Qed.

End AverageLoops.

(** On scores that are dictionaries whose metrics are metrics of the
    first score, [calculate_average_score] returns the metrics of the
    first score, in its order, each with the sum -- started from [0], in
    the order of the scores -- of the values of the scores that hold the
    metric, divided by the number of all scores: a score that lacks a
    metric adds nothing to its sum and still counts in the divisor. *)
Theorem calculate_average_score_averages {N : Type} `{UniEval.Number N}
  (first : UniEval.Dict N) (rest : list (UniEval.Dict N))
  (Hscores : scores_ok first (first :: rest)) :
  UniEval.calculate_average_score (first :: rest)
  = inr (dict_of (UniEval.keys first)
           (fun metric =>
              UniEval.ndiv (total metric (first :: rest))
                (length (first :: rest)))).
Proof.
  assert (Hnd : NoDup (UniEval.keys first)).
  { inversion Hscores as [|? ? [Hnd _] _]. exact Hnd. }
  unfold UniEval.calculate_average_score.
  cbn [UniEval.index nth_error UniEval.rbind].
  pose proof (initial_metrics (UniEval.keys first) [] Hnd) as Hinit.
  change (dict_of [] (fun _ : string => UniEval.nzero))
    with (@nil (string * N)) in Hinit.
  rewrite Hinit. clear Hinit. cbn [app]. rewrite (add_scores_dict_of _ _ Hnd Hscores).
  cbn [UniEval.rbind]. rewrite keys_dict_of.
  rewrite divide_all_dict_of; try assumption; [|apply incl_refl].
  f_equal. apply dict_of_ext. intros k Hk.
  rewrite (mem_true _ _ Hk). reflexivity.
Qed.

Lemma calculate_average_score_averages_witness :
  UniEval.calculate_average_score ex_scores
  = inr [("coherence", Over (Plus (Plus Int0 (Value 1)) (Value 3)) 2);
         ("fluency", Over (Plus Int0 (Value 2)) 2)].
Proof.
  assert (Hscores : scores_ok [("coherence", Value 1); ("fluency", Value 2)]
                      ex_scores).
  { constructor; [split | constructor; [split | constructor]].
    - constructor; [intros [Heq | []]; discriminate |].
      constructor; [intros [] | constructor].
    - apply incl_refl.
    - constructor; [intros [] | constructor].
    - intros k [<- | []]. now left. }
  exact (calculate_average_score_averages
           [("coherence", Value 1); ("fluency", Value 2)]
           [[("coherence", Value 3)]] Hscores).
Defined.

Section AverageErrors.
Context {N : Type} `{UniEval.Number N}.

Lemma initial_metrics_keys (l : list string) (metrics : UniEval.Dict N) :
  forall k,
    In k (UniEval.keys
            (fold_left (fun metrics metric =>
                          UniEval.set_item metrics metric UniEval.nzero) l metrics))
    <-> In k (UniEval.keys metrics) \/ In k l.
Proof.
  revert metrics. induction l as [|m l IH]; intros metrics k.
  - cbn. tauto.
  - cbn [fold_left]. rewrite IH, keys_set_item. cbn [In]. intuition.
Qed.

(** The inner loop returns with the keys it found, or fails on a metric
    of the score that is no key. *)
Lemma add_score_outcome (score : UniEval.Dict N) (todo : list string) :
  incl todo (UniEval.keys score) ->
  forall metrics : UniEval.Dict N,
    match UniEval.add_score metrics score todo with
    | inr metrics' =>
        incl todo (UniEval.keys metrics)
        /\ forall k, In k (UniEval.keys metrics') <-> In k (UniEval.keys metrics)
    | inl e =>
        exists metric, e = UniEval.KeyError metric
                       /\ In metric todo
                       /\ ~ In metric (UniEval.keys metrics)
    end.
Proof.
  induction todo as [|m todo IH]; intros Hsc metrics.
  - cbn. split; [intros k [] | tauto].
  - cbn [UniEval.add_score]. unfold UniEval.get_item.
    destruct (UniEval.get metrics m) as [sum|] eqn:Hsum; cbn [UniEval.rbind].
    + destruct (get_in_keys score m (Hsc m (or_introl eq_refl))) as [v Hv].
      rewrite Hv. cbn [UniEval.rbind].
      assert (Hm : In m (UniEval.keys metrics)).
      { destruct (in_dec string_dec m (UniEval.keys metrics)) as [Hin | Hout];
          [exact Hin|].
        rewrite (get_not_in_keys _ _ Hout) in Hsum. discriminate. }
      assert (Hkeys : forall k,
                 In k (UniEval.keys
                         (UniEval.set_item metrics m (UniEval.nadd sum v)))
                 <-> In k (UniEval.keys metrics)).
      { intros k. rewrite keys_set_item. intuition congruence. }
      specialize (IH (fun k Hk => Hsc k (or_intror Hk))
                    (UniEval.set_item metrics m (UniEval.nadd sum v))).
      destruct (UniEval.add_score
                  (UniEval.set_item metrics m (UniEval.nadd sum v)) score todo)
        as [e | metrics'].
      * destruct IH as (k & He & Hk & Hout). exists k.
        split; [exact He | split; [now right |]].
        intros Hin. apply Hout. now apply Hkeys.
      * destruct IH as [Hincl Hsame]. split.
        -- intros k [<- | Hk]; [exact Hm |]. apply Hkeys. now apply Hincl.
        -- intros k. rewrite Hsame. apply Hkeys.
    + exists m. split; [reflexivity | split; [now left |]].
      intros Hin. destruct (get_in_keys metrics m Hin) as [v Hv]. congruence.
Qed.

Lemma add_scores_outcome (scores : list (UniEval.Dict N)) :
  forall metrics : UniEval.Dict N,
    match UniEval.add_scores metrics scores with
    | inr metrics' =>
        Forall (fun score => incl (UniEval.keys score) (UniEval.keys metrics))
          scores
        /\ forall k, In k (UniEval.keys metrics') <-> In k (UniEval.keys metrics)
    | inl e =>
        exists metric score,
          e = UniEval.KeyError metric
          /\ In score scores
          /\ In metric (UniEval.keys score)
          /\ ~ In metric (UniEval.keys metrics)
    end.
Proof.
  induction scores as [|score scores IH]; intros metrics.
  - cbn. split; [constructor | tauto].
  - cbn [UniEval.add_scores].
    pose proof (add_score_outcome score (UniEval.keys score)
                  (incl_refl _) metrics) as Hone.
    destruct (UniEval.add_score metrics score (UniEval.keys score))
      as [e | metrics1]; cbn [UniEval.rbind].
    + destruct Hone as (k & He & Hk & Hout). exists k, score.
      repeat split; try assumption. now left.
    + destruct Hone as [Hincl Hsame]. specialize (IH metrics1).
      destruct (UniEval.add_scores metrics1 scores) as [e | metrics'].
      * destruct IH as (k & s & He & Hs & Hk & Hout). exists k, s.
        repeat split; try assumption; [now right |].
        intros Hin. apply Hout. now apply Hsame.
      * destruct IH as [Hall Hsame']. split.
        -- constructor; [exact Hincl |].
           eapply Forall_impl; [| exact Hall].
           intros s Hs k Hk. apply Hsame. now apply Hs.
        -- intros k. rewrite Hsame'. apply Hsame.
Qed.

End AverageErrors.

(** The failures of [calculate_average_score]: on an empty list of scores
    it fails on [scores[0]]; when some score holds a metric that the
    first score does not hold, it fails with [KeyError] on such a
    metric. *)
Theorem calculate_average_score_errors {N : Type} `{UniEval.Number N} :
  UniEval.calculate_average_score (@nil (UniEval.Dict N))
  = inl (UniEval.IndexError "list index out of range")
  /\
  forall (first : UniEval.Dict N) (rest : list (UniEval.Dict N)),
    (exists score metric,
        In score (first :: rest)
        /\ In metric (UniEval.keys score)
        /\ ~ In metric (UniEval.keys first)) ->
    exists metric,
      UniEval.calculate_average_score (first :: rest)
      = inl (UniEval.KeyError metric)
      /\ ~ In metric (UniEval.keys first)
      /\ exists score, In score (first :: rest) /\ In metric (UniEval.keys score).
Proof.
  split; [reflexivity|].
  intros first rest (score & metric & Hscore & Hmetric & Hout).
  unfold UniEval.calculate_average_score.
  cbn [UniEval.index nth_error UniEval.rbind].
  set (metrics := fold_left
                    (fun metrics metric =>
                       UniEval.set_item metrics metric UniEval.nzero)
                    (UniEval.keys first) []).
  assert (Hkeys : forall k, In k (UniEval.keys metrics) <-> In k (UniEval.keys first)).
  { intros k. unfold metrics. rewrite initial_metrics_keys. cbn. tauto. }
  pose proof (add_scores_outcome (first :: rest) metrics) as Hrun.
  destruct (UniEval.add_scores metrics (first :: rest)) as [e | metrics'].
  - destruct Hrun as (k & s & -> & Hs & Hk & Hko). exists k.
    cbn [UniEval.rbind]. split; [reflexivity | split].
    + intros Hin. apply Hko. now apply Hkeys.
    + exists s. split; assumption.
  - exfalso. destruct Hrun as [Hall _]. rewrite Forall_forall in Hall.
    apply Hout. apply Hkeys. exact (Hall score Hscore metric Hmetric).
Qed.

Lemma calculate_average_score_errors_witness :
  exists metric,
    UniEval.calculate_average_score
      [[("coherence", Value 1)]; [("coherence", Value 3); ("fluency", Value 2)]]
    = inl (UniEval.KeyError metric)
    /\ ~ In metric ["coherence"]
    /\ exists score,
        In score [[("coherence", Value 1)];
                  [("coherence", Value 3); ("fluency", Value 2)]]
        /\ In metric (UniEval.keys score).
Proof.
  apply (proj2 calculate_average_score_errors [("coherence", Value 1)]
           [[("coherence", Value 3); ("fluency", Value 2)]]).
  exists [("coherence", Value 3); ("fluency", Value 2)], "fluency"%string.
  split; [right; left; reflexivity | split; [right; left; reflexivity |]].
  intros [Heq | []]. discriminate.
Defined.

(** ** The column-parallel forward pass, entry by entry *)

Section ColEntries.
Context {R : Type} `{Scalar R}.

Lemma map_by_index {A B : Type} (f : A -> B) (l : list A) (d : A) :
  map f l = map (fun j => f (nth j l d)) (seq 0 (length l)).
Proof.
  rewrite <- (map_nth_seq l d) at 1. now rewrite map_map.
Qed.

Lemma map2_by_index {A B C : Type} (f : A -> B -> C) (g : nat -> A) (d : B)
  (n : nat) :
  forall (s : nat) (b : list B),
    length b = n ->
    map2 f (map g (seq s n)) b
    = map (fun j => f (g j) (nth (j - s) b d)) (seq s n).
Proof.
  induction n as [|n IH]; intros s b Hb.
  - reflexivity.
  - destruct b as [|y b]; [discriminate|]. cbn [seq map map2].
    rewrite Nat.sub_diag. cbn [nth]. f_equal.
    rewrite (IH (S s) b) by (cbn in Hb; lia).
    apply map_ext_in. intros j Hj. apply in_seq in Hj.
    replace (j - s) with (S (j - S s)) by lia. reflexivity.
Qed.

(** What [linear_with_async_comm] computes is the local output of the
    specification, when the bias shard has one entry per weight row. *)
Lemma linear_is_local_output (self : Linear1D_Col.Layer R) (x : Tensor R) :
  (forall b, Linear1D_Col.bias self = Some b ->
             length b = length (t_rows (Linear1D_Col.weight self))) ->
  Linear1D_Col.linear_with_async_comm x (Linear1D_Col.weight self)
    (if negb (Linear1D_Col.skip_bias_add self) then Linear1D_Col.bias self
     else None)
  = local_output self x.
Proof.
  intros Hfit.
  unfold Linear1D_Col.linear_with_async_comm, local_output, local_row, F_linear.
  destruct (Linear1D_Col.skip_bias_add self); cbn [negb].
  - f_equal. apply map_ext. intros xr.
    rewrite (map_by_index (dot xr) _ []).
    apply map_ext. intros j. destruct (Linear1D_Col.bias self); reflexivity.
  - destruct (Linear1D_Col.bias self) as [b|] eqn:Hb.
    + unfold add_bias. cbn [t_width t_rows]. f_equal. rewrite map_map.
      apply map_ext. intros xr.
      rewrite (map_by_index (dot xr) _ []).
      rewrite (map2_by_index radd _ rzero _ 0 b (Hfit b eq_refl)).
      apply map_ext. intros j. now rewrite Nat.sub_0_r.
    + f_equal. apply map_ext. intros xr.
      apply (map_by_index (dot xr) _ []).
Qed.

(** Tensors cut out of the same rows, each with its own width, joined
    along the last dimension. *)
Lemma fold_cat2_rows {I : Type} (f : I -> list R -> list R) (n : I -> nat)
  (rs : list (list R)) (l : list I) (a : nat) (g : list R -> list R) :
  fold_left cat2 (map (fun i => mkTensor (n i) (map (f i) rs)) l)
    (mkTensor a (map g rs))
  = mkTensor (a + list_sum (map n l))
      (map (fun r => g r ++ concat (map (fun i => f i r) l)) rs).
Proof.
  revert a g. induction l as [|i l IH]; intros a g.
  - cbn. rewrite Nat.add_0_r. f_equal.
    apply map_ext. intros r. now rewrite app_nil_r.
  - cbn [map fold_left list_sum concat]. unfold cat2 at 2. cbn [t_width t_rows].
    rewrite map2_map_same. rewrite (IH (a + n i) (fun r => g r ++ f i r)).
    f_equal.
    + change (list_sum (n i :: map n l)) with (n i + list_sum (map n l)). lia.
    + apply map_ext. intros r. now rewrite app_assoc.
Qed.

Lemma gather_local_outputs (x : Tensor R) (l0 : Linear1D_Col.Layer R)
  (ls : list (Linear1D_Col.Layer R)) :
  all_gather (local_output l0 x) (map (fun l => local_output l x) ls)
  = gathered_output x (l0 :: ls).
Proof.
  unfold all_gather, local_output, gathered_output.
  rewrite (fold_cat2_rows local_row
             (fun l => length (t_rows (Linear1D_Col.weight l)))).
  reflexivity.
Qed.

Lemma length_local_row (self : Linear1D_Col.Layer R) (xr : list R) :
  length (local_row self xr) = length (t_rows (Linear1D_Col.weight self)).
Proof.
  unfold local_row. now rewrite length_map, length_seq.
Qed.

Lemma length_gathered_row (layers : list (Linear1D_Col.Layer R)) (xr : list R) :
  length (concat (map (fun l => local_row l xr) layers))
  = list_sum (map (fun l => length (t_rows (Linear1D_Col.weight l))) layers).
Proof.
  induction layers as [|l layers IH]; [reflexivity|].
  cbn [map concat]. rewrite length_app, length_local_row, IH. reflexivity.
Qed.

Lemma list_sum_constant {A : Type} (f : A -> nat) (n : nat) (l : list A) :
  Forall (fun a => f a = n) l -> list_sum (map f l) = n * length l.
Proof.
  induction 1 as [|a l Ha _ IH]; [cbn; lia|].
  change (list_sum (map f (a :: l))) with (f a + list_sum (map f l)).
  rewrite Ha, IH. cbn [length]. lia.
Qed.

(** [forward] on an input of the shard's width. *)
Lemma col_forward_is (self : Linear1D_Col.Layer R) (x : Tensor R) :
  t_width x = t_width (Linear1D_Col.weight self) ->
  (forall b, Linear1D_Col.bias self = Some b ->
             length b = length (t_rows (Linear1D_Col.weight self))) ->
  Linear1D_Col.forward self x
  = if Linear1D_Col.gather_output self
    then AllGather (local_output self x)
           (fun output =>
              Ret (if Linear1D_Col.skip_bias_add self
                   then WithBias output (Linear1D_Col.bias self)
                   else Single output))
    else Ret (if Linear1D_Col.skip_bias_add self
              then WithBias (local_output self x) (Linear1D_Col.bias self)
              else Single (local_output self x)).
Proof.
  intros Hw Hfit. unfold Linear1D_Col.forward.
  rewrite Hw, Nat.eqb_refl. cbn [negb].
  rewrite (linear_is_local_output self x Hfit).
  destruct (Linear1D_Col.gather_output self);
    destruct (Linear1D_Col.skip_bias_add self); reflexivity.
Qed.

End ColEntries.

(** C7: the ranks of a group of column-parallel layers are called with
    the same input, of the width of the weight shards, each of which has
    [out / P] rows (and each bias shard as many entries).  With
    [gather_output] every rank ends with the same tensor, the local
    outputs joined along the last dimension in rank order, whose rows
    have [out] entries; without it every rank ends with its own local
    output, whose rows have [out / P] entries.  Entry [j] of a local
    output row is the inner product of the input row with row [j] of the
    weight shard, plus entry [j] of the bias shard exactly when
    [skip_bias_add] is not set; and [forward] returns the pair of the
    output and the bias shard exactly when [skip_bias_add] is set, the
    output alone otherwise. *)
Theorem col_forward_gathers_or_returns_shard {R : Type} `{Scalar R}
  (x : Tensor R) (l0 : Linear1D_Col.Layer R) (ls : list (Linear1D_Col.Layer R))
  (out : nat)
  (Hwidth : Forall (fun l => t_width x = t_width (Linear1D_Col.weight l))
              (l0 :: ls))
  (Hshard : Forall (fun l => length (t_rows (Linear1D_Col.weight l))
                             = out / length (l0 :: ls)) (l0 :: ls))
  (Hdiv : out mod length (l0 :: ls) = 0)
  (Hbias : Forall (fun l => forall b,
                       Linear1D_Col.bias l = Some b ->
                       length b = length (t_rows (Linear1D_Col.weight l)))
             (l0 :: ls)) :
  (Forall (fun l => Linear1D_Col.gather_output l = true) (l0 :: ls) ->
   run_group (map (fun l => Linear1D_Col.forward l x) (l0 :: ls))
   = Finished
       (map (fun l =>
               inr (if Linear1D_Col.skip_bias_add l
                    then WithBias (gathered_output x (l0 :: ls))
                           (Linear1D_Col.bias l)
                    else Single (gathered_output x (l0 :: ls))))
          (l0 :: ls))
   /\ t_width (gathered_output x (l0 :: ls)) = out
   /\ Forall (fun row => length row = out)
        (t_rows (gathered_output x (l0 :: ls))))
  /\
  (Forall (fun l => Linear1D_Col.gather_output l = false) (l0 :: ls) ->
   run_group (map (fun l => Linear1D_Col.forward l x) (l0 :: ls))
   = Finished
       (map (fun l =>
               inr (if Linear1D_Col.skip_bias_add l
                    then WithBias (local_output l x) (Linear1D_Col.bias l)
                    else Single (local_output l x)))
          (l0 :: ls))
   /\ Forall (fun l =>
                t_width (local_output l x) = out / length (l0 :: ls)
                /\ Forall (fun row => length row = out / length (l0 :: ls))
                     (t_rows (local_output l x)))
        (l0 :: ls))
  /\
  (forall (l : Linear1D_Col.Layer R) (xr : list R) (j : nat),
      In l (l0 :: ls) -> j < out / length (l0 :: ls) ->
      nth j (local_row l xr) rzero
      = match Linear1D_Col.bias l with
        | Some b =>
            if Linear1D_Col.skip_bias_add l
            then dot xr (nth j (t_rows (Linear1D_Col.weight l)) [])
            else radd (dot xr (nth j (t_rows (Linear1D_Col.weight l)) []))
                   (nth j b rzero)
        | None => dot xr (nth j (t_rows (Linear1D_Col.weight l)) [])
        end).
Proof.
  assert (Hfw : forall l, In l (l0 :: ls) ->
            Linear1D_Col.forward l x
            = if Linear1D_Col.gather_output l
              then AllGather (local_output l x)
                     (fun output =>
                        Ret (if Linear1D_Col.skip_bias_add l
                             then WithBias output (Linear1D_Col.bias l)
                             else Single output))
              else Ret (if Linear1D_Col.skip_bias_add l
                        then WithBias (local_output l x) (Linear1D_Col.bias l)
                        else Single (local_output l x))).
  { rewrite Forall_forall in Hwidth, Hbias. intros l Hl.
    apply col_forward_is; [apply Hwidth | apply Hbias]; exact Hl. }
  assert (Hsum : list_sum (map (fun l => length (t_rows (Linear1D_Col.weight l)))
                             (l0 :: ls)) = out).
  { rewrite (list_sum_constant _ (out / length (l0 :: ls)) _ Hshard).
    apply Nat.Div0.div_exact in Hdiv. lia. }
  split; [|split].
  - intros Hg. split; [|split].
    + cbn [run_group map].
      rewrite (Hfw l0 (or_introl eq_refl)).
      rewrite (map_ext_in _ _ ls (fun l Hl => Hfw l (or_intror Hl))).
      inversion Hg as [|? ? Hg0 Hgs]; subst. rewrite Hg0.
      rewrite (map_ext_in _
                 (fun l => AllGather (local_output l x)
                             (fun output =>
                                Ret (if Linear1D_Col.skip_bias_add l
                                     then WithBias output (Linear1D_Col.bias l)
                                     else Single output)))).
      2:{ intros l Hl. rewrite Forall_forall in Hgs. now rewrite (Hgs l Hl). }
      rewrite (run_all_gather [] (fun l => local_output l x)
                 (fun l output =>
                    Ret (if Linear1D_Col.skip_bias_add l
                         then WithBias output (Linear1D_Col.bias l)
                         else Single output))).
      rewrite gather_local_outputs.
      apply (run_all_ret []
               (fun l => if Linear1D_Col.skip_bias_add l
                         then WithBias (gathered_output x (l0 :: ls))
                                (Linear1D_Col.bias l)
                         else Single (gathered_output x (l0 :: ls)))).
    + exact Hsum.
    + unfold gathered_output. cbn [t_rows]. apply Forall_map, Forall_forall.
      intros xr _. now rewrite length_gathered_row.
  - intros Hg. split.
    + cbn [run_group map].
      rewrite (Hfw l0 (or_introl eq_refl)).
      rewrite (map_ext_in _ _ ls (fun l Hl => Hfw l (or_intror Hl))).
      inversion Hg as [|? ? Hg0 Hgs]; subst. rewrite Hg0.
      rewrite (map_ext_in _
                 (fun l => Ret (if Linear1D_Col.skip_bias_add l
                                then WithBias (local_output l x) (Linear1D_Col.bias l)
                                else Single (local_output l x)))).
      2:{ intros l Hl. rewrite Forall_forall in Hgs. now rewrite (Hgs l Hl). }
      apply (run_all_ret []
               (fun l => if Linear1D_Col.skip_bias_add l
                         then WithBias (local_output l x) (Linear1D_Col.bias l)
                         else Single (local_output l x))).
    + eapply Forall_impl; [|exact Hshard]. intros l Hl. split; [exact Hl|].
      unfold local_output. cbn [t_rows]. apply Forall_map, Forall_forall.
      intros xr _. now rewrite length_local_row.
  - intros l xr j Hl Hj. rewrite Forall_forall in Hshard.
    unfold local_row.
    rewrite (nth_indep _ rzero
               (let product :=
                  dot xr (nth (length (t_rows (Linear1D_Col.weight l)))
                            (t_rows (Linear1D_Col.weight l)) []) in
                match Linear1D_Col.bias l with
                | Some b =>
                    if Linear1D_Col.skip_bias_add l then product
                    else radd product
                           (nth (length (t_rows (Linear1D_Col.weight l))) b rzero)
                | None => product
                end))
      by (rewrite length_map, length_seq, (Hshard l Hl); exact Hj).
    rewrite (map_nth
               (fun j =>
                  let product :=
                    dot xr (nth j (t_rows (Linear1D_Col.weight l)) []) in
                  match Linear1D_Col.bias l with
                  | Some b =>
                      if Linear1D_Col.skip_bias_add l then product
                      else radd product (nth j b rzero)
                  | None => product
                  end)
               (seq 0 (length (t_rows (Linear1D_Col.weight l))))
               (length (t_rows (Linear1D_Col.weight l))) j).
    rewrite seq_nth by (rewrite (Hshard l Hl); exact Hj).
    reflexivity.
Qed.

Lemma col_forward_gathers_or_returns_shard_witness :
  run_group
    (map (fun l => Linear1D_Col.forward l (mkTensor 2 [[3; 4]]%Z))
       (ex_col_pair true false))
  = Finished
      [inr (Single (mkTensor 4 [[21; 24; 37; 46]]%Z));
       inr (Single (mkTensor 4 [[21; 24; 37; 46]]%Z))]
  /\
  run_group
    (map (fun l => Linear1D_Col.forward l (mkTensor 2 [[3; 4]]%Z))
       (ex_col_pair true true))
  = Finished
      [inr (WithBias (mkTensor 4 [[11; 4; 7; 6]]%Z) (Some [10; 20]%Z));
       inr (WithBias (mkTensor 4 [[11; 4; 7; 6]]%Z) (Some [30; 40]%Z))]
  /\
  run_group
    (map (fun l => Linear1D_Col.forward l (mkTensor 2 [[3; 4]]%Z))
       (ex_col_pair false false))
  = Finished
      [inr (Single (mkTensor 2 [[21; 24]]%Z));
       inr (Single (mkTensor 2 [[37; 46]]%Z))]
  /\
  run_group
    (map (fun l => Linear1D_Col.forward l (mkTensor 2 [[3; 4]]%Z))
       (ex_col_pair false true))
  = Finished
      [inr (WithBias (mkTensor 2 [[11; 4]]%Z) (Some [10; 20]%Z));
       inr (WithBias (mkTensor 2 [[7; 6]]%Z) (Some [30; 40]%Z))].
Proof.
  assert (Hall : forall gather_output skip_bias_add,
            Forall (fun l => t_width (mkTensor 2 [[3; 4]]%Z)
                             = t_width (Linear1D_Col.weight l))
              (ex_col_pair gather_output skip_bias_add)
            /\ Forall (fun l => length (t_rows (Linear1D_Col.weight l))
                                = 4 / length (ex_col_pair gather_output skip_bias_add))
                 (ex_col_pair gather_output skip_bias_add)
            /\ Forall (fun l => forall b,
                           Linear1D_Col.bias l = Some b ->
                           length b = length (t_rows (Linear1D_Col.weight l)))
                 (ex_col_pair gather_output skip_bias_add)
            /\ Forall (fun l => Linear1D_Col.gather_output l = gather_output)
                 (ex_col_pair gather_output skip_bias_add)).
  { intros g s. repeat split; repeat constructor.
    - intros b Hb. injection Hb as <-. reflexivity.
    - intros b Hb. injection Hb as <-. reflexivity. }
  split; [|split; [|split]].
  - destruct (Hall true false) as (Hw & Hs & Hb & Hg).
    exact (proj1 (proj1 (col_forward_gathers_or_returns_shard
                           (mkTensor 2 [[3; 4]]%Z) _ _ 4 Hw Hs eq_refl Hb) Hg)).
  - destruct (Hall true true) as (Hw & Hs & Hb & Hg).
    exact (proj1 (proj1 (col_forward_gathers_or_returns_shard
                           (mkTensor 2 [[3; 4]]%Z) _ _ 4 Hw Hs eq_refl Hb) Hg)).
  - destruct (Hall false false) as (Hw & Hs & Hb & Hg).
    exact (proj1 (proj1 (proj2 (col_forward_gathers_or_returns_shard
                                  (mkTensor 2 [[3; 4]]%Z) _ _ 4 Hw Hs eq_refl Hb))
                    Hg)).
  - destruct (Hall false true) as (Hw & Hs & Hb & Hg).
    exact (proj1 (proj1 (proj2 (col_forward_gathers_or_returns_shard
                                  (mkTensor 2 [[3; 4]]%Z) _ _ 4 Hw Hs eq_refl Hb))
                    Hg)).
Defined.
